(** * fish-autoclicker: the perception-to-action decision core of [main.py]

    A shallow embedding of the two minigame recognizers and of the main
    loop of [src/main.py], and the properties of the specification checked
    on it.

    Conventions of the embedding.
    - Python [int] is [Z].  Python [float] values (template scores,
      thresholds read from the configuration, clock readings) are the
      rationals they denote, in [Q], and are compared exactly, as floats
      are.  The quotient of the two areas of the bar is rounded to a double
      as IEEE 754 does ([to_double]), and so is a threshold that numpy
      compares with a [float32] array, to [float32] ([to_float32]); the
      literal [0.35] is the double nearest to it.  The aspect ratio of a
      rectangle and the difference of two clock readings are taken
      exactly.
    - A frame is the list of its pixel rows; numpy slicing is [py_slice].
    - The OpenCV pipelines (colour segmentation and contour filling,
      template matching, quadrilateral detection) are the operations of the
      class [Vision]; the program is a function of what they return.
      Exceptions raised inside OpenCV are outside the model.
    - Simulated input is an explicit output: every function that can press
      a key or click returns the list of actions it issued.
    - The hotkey thread and the thread pressing E are modelled apart
      (module [Background]), each over the events and frames it reads; for
      the main loop the pause flag and the clock are inputs of each
      iteration.  Log lines are observational only and are left out.
    - Reading files (configuration, templates) is outside the model. *)

From Stdlib Require Import String ZArith QArith Bool List Lia Lqa Sorted.
Import ListNotations.
Local Open Scope Z_scope.

(** ** Python and numpy primitives used by the program *)

Definition Qlt_bool (a b : Q) : bool := negb (Qle_bool b a).

(** The integer nearest to [n / d] for [0 < d], the even one of the two
    when [n / d] lies halfway between them. *)
Definition round_half_even (n d : Z) : Z :=
  let q := n / d in
  let r := n mod d in
  if 2 * r <? d then q
  else if d <? 2 * r then q + 1
  else if Z.even q then q else q + 1.

(** For [0 < n] and [0 < d], the exponent [e] with
    [2 ^ e <= n / d < 2 ^ (e + 1)]. *)
Definition binade (n d : Z) : Z :=
  let e := Z.log2 n - Z.log2 d in
  if (if 0 <=? e then n <? d * 2 ^ e else n * 2 ^ (- e) <? d)
  then e - 1 else e.

(** Rounding of a real number to the nearest binary floating-point number
    with a significand of [prec] bits, ties to even (the rounding of IEEE
    754 arithmetic).  The exponent range of the format is not modelled: the
    values rounded by the program (quotients of pixel counts, thresholds
    between 0 and 1) neither overflow nor are subnormal. *)
Definition round_to (prec : Z) (q : Q) : Q :=
  let n := Z.abs (Qnum q) in
  let d := Z.pos (Qden q) in
  if n =? 0 then 0%Q
  else
    let e := binade n d - (prec - 1) in
    let v :=
      if 0 <=? e
      then inject_Z (round_half_even n (d * 2 ^ e) * 2 ^ e)
      else Qmake (round_half_even (n * 2 ^ (- e)) d) (Z.to_pos (2 ^ (- e))) in
    if Qnum q <? 0 then Qopp v else v.

(** The Python [float] (a double) nearest to a real number: the value of a
    decimal literal, and the result of a float operation on its exact
    result. *)
Definition to_double (q : Q) : Q := round_to 53 q.

(** [np.float32(q)] *)
Definition to_float32 (q : Q) : Q := round_to 24 q.

Arguments round_to : simpl never.
Arguments to_double : simpl never.
Arguments to_float32 : simpl never.

(** The values of the [float32] numbers (every exponent admitted):
    [m * 2 ^ a / 2 ^ b] with a significand [m] of at most 24 bits. *)
Definition float32_value (q : Q) : Prop :=
  exists m a b : Z,
    Z.abs m < 2 ^ 24 /\ 0 <= a /\ 0 <= b /\
    (q == Qmake (m * 2 ^ a) (Z.to_pos (2 ^ b)))%Q.

(** [int(a / 2 + b)] for integers [a], [b]: true division, then truncation
    towards zero. *)
Definition int_half_plus (a b : Z) : Z := Z.quot (a + 2 * b) 2.

(** Normalisation of one bound of a slice [l[start:stop]] over a sequence
    of length [len] (step 1): a negative bound counts from the end, and
    every bound is clipped to [0, len]. *)
Definition slice_bound (len i : Z) : Z :=
  if i <? 0 then Z.max 0 (i + len) else Z.min i len.

Definition py_slice {A : Type} (start stop : Z) (l : list A) : list A :=
  let len := Z.of_nat (length l) in
  let a := slice_bound len start in
  let b := slice_bound len stop in
  firstn (Z.to_nat (b - a)) (skipn (Z.to_nat a) l).

(** ** Region *)

Module Region.

Record t := mk { left : Z; top : Z; width : Z; height : Z }.

Definition right (r : t) : Z := left r + width r.
Definition bottom (r : t) : Z := top r + height r.

End Region.

(** An image is the list of its pixel rows. *)
Definition Color : Type := (Z * Z * Z)%type.
Definition Image : Type := list (list Color).

(** [frame[r.top : r.bottom, r.left : r.right]] *)
Definition crop (r : Region.t) (frame : Image) : Image :=
  map (py_slice (Region.left r) (Region.right r))
      (py_slice (Region.top r) (Region.bottom r) frame).

Definition color_eqb (a b : Color) : bool :=
  let '(a1, a2, a3) := a in
  let '(b1, b2, b3) := b in
  (a1 =? b1) && (a2 =? b2) && (a3 =? b3).

(** Simulated input actions. *)
Inductive Action :=
| KeyTap (vk_code : Z)
| KeyUp (key : string)
| Click (x y : Z).

(** A rectangle [(x, y, w, h)] found in a frame, and a template hit
    [{"digit": d, "box": (x, y, w, h)}]. *)
Definition Box : Type := (Z * Z * Z * Z)%type.
Record Detection := mkDetection { digit : Z; box : Box }.

(** The OpenCV pipelines, as functions of the image they are run on.
    - [bar_area]: lines 157-164, the pixel count of the re-filled mask of
      the cropped bar zone;
    - [number_scores]: lines 115-124, [max_val] of [matchTemplate] for each
      numeral template over the numeral window;
    - [process_frame_number], [process_frame_boxes]: the methods of these
      names, on the cropped working region. *)
Class Vision := {
  bar_area : Image -> Z;
  number_scores : Image -> list Q;
  process_frame_number : Image -> list Detection;
  process_frame_boxes : Image -> list Box
}.

(** ** The bar minigame: [class NewMiniGame] *)

Module NewMiniGame.

Inductive State := RESET | FOUND | INTERCEPTION.

Definition State_eqb (a b : State) : bool :=
  match a, b with
  | RESET, RESET | FOUND, FOUND | INTERCEPTION, INTERCEPTION => true
  | _, _ => false
  end.

Definition VK_1 : Z := 0x31.
Definition VK_2 : Z := 0x32.
Definition VK_3 : Z := 0x33.
Definition VK_4 : Z := 0x34.
Definition vk_keys : list Z := [VK_1; VK_2; VK_3; VK_4].

(** The attributes [__init__] sets from [config["new_minig_game"]] that
    the state machine reads; [number_zone] is the numeral window relative to
    [zone], as [__init__] computes it.  ([filter_noise], [number_threshold]
    and the colour range of the bar are consumed by the OpenCV pipeline
    only.) *)
Record Config := mkConfig {
  zone : Region.t;
  number_zone : Region.t;
  number_conf : Q;
  compare_dif : Q;
  new_area_diff : Q
}.

Record t := mk {
  state : State;
  starting_area : Z;
  prev_area : Z;
  number : Z;
  number_reset_flag : bool
}.

(** [__init__] *)
Definition init : t := mk RESET 0 0 0 false.

(** The first loop of [_detect_number]: [scores] are the values [max_val]
    of the templates from position [idx] on, in order. *)
Fixpoint scan_templates (conf : Q) (idx : Z) (scores : list Q)
  (best_score : Q) (detected : Z) : Q * Z :=
  match scores with
  | [] => (best_score, detected)
  | max_val :: rest =>
      if Qle_bool conf max_val && Qlt_bool best_score max_val
      then scan_templates conf (idx + 1) rest max_val (idx + 1)
      else scan_templates conf (idx + 1) rest best_score detected
  end.

(** [all_scores]: the pairs [(idx + 1, max_val)]. *)
Fixpoint all_scores_from (idx : Z) (scores : list Q) : list (Z * Q) :=
  match scores with
  | [] => []
  | max_val :: rest => (idx + 1, max_val) :: all_scores_from (idx + 1) rest
  end.

(** Python's [max(items, key=lambda x: x[1])] on a non-empty list
    [first :: items]: the first item whose key is maximal. *)
Fixpoint max_by_score (best : Z * Q) (items : list (Z * Q)) : Z * Q :=
  match items with
  | [] => best
  | x :: rest =>
      max_by_score (if Qlt_bool (snd best) (snd x) then x else best) rest
  end.

(** The literal [0.35] of line 133. *)
Definition floor_score : Q := to_double (35 # 100).

(** Lines 117-135 of [_detect_number]: the pair [(best_score, detected)]
    after the threshold loop and the fallback. *)
Definition select_number (conf : Q) (scores : list Q) : Q * Z :=
  let '(best_score, detected) := scan_templates conf 0 scores (-1 # 1) 0 in
  if detected =? 0 then
    match all_scores_from 0 scores with
    | [] => (best_score, detected)
    | first :: rest =>
        let '(best_idx, best_val) := max_by_score first rest in
        if Qle_bool floor_score best_val
        then (best_val, best_idx)
        else (best_score, detected)
    end
  else (best_score, detected).

Definition detected_number (conf : Q) (scores : list Q) : Z :=
  snd (select_number conf scores).

(** [_detect_number], from the match scores of the region of interest. *)
Definition _detect_number (cfg : Config) (s : t) (scores : list Q) : t :=
  let detected := detected_number (number_conf cfg) scores in
  let number1 := if number_reset_flag s then 0 else number s in
  mk (state s) (starting_area s) (prev_area s)
     (if detected =? 0 then number1 else detected)
     false.

(** [current_area / self.starting_area]: the true division of two
    integers, the double nearest to their quotient. *)
Definition ratio (current_area starting_area : Z) : Q :=
  to_double (inject_Z current_area / inject_Z starting_area).

Arguments floor_score : simpl never.
Arguments ratio : simpl never.

(** Lines 166-172 of [run]: the numeral is read whenever the bar is
    visible. *)
Definition sense (cfg : Config) (s : t) (current_area : Z) (scores : list Q) : t :=
  if 0 <? current_area then _detect_number cfg s scores else s.

(** Lines 174-202 of [run]: the [if]/[elif] chain on the state, entered
    after the numeral was read, and the update of [prev_area]. *)
Definition update_state (cfg : Config) (s : t) (current_area : Z) : t :=
  let s1 :=
    if State_eqb (state s) FOUND && negb (starting_area s =? 0) then
      if Qle_bool (ratio current_area (starting_area s)) (compare_dif cfg) then
        if 0 <? number s
        then mk INTERCEPTION (starting_area s) (prev_area s) (number s)
                (number_reset_flag s)
        else s
      else s
    else if State_eqb (state s) RESET && (0 <? current_area) then
      mk FOUND current_area (prev_area s) (number s) true
    else if current_area =? 0 then
      mk RESET 0 (prev_area s) 0 (number_reset_flag s)
    else if negb (current_area =? 0)
            && State_eqb (state s) FOUND
            && negb (starting_area s =? 0)
            && Qle_bool (new_area_diff cfg) (ratio current_area (starting_area s))
    then mk (state s) current_area (prev_area s) (number s) (number_reset_flag s)
    else s
  in
  mk (state s1) (starting_area s1) current_area (number s1) (number_reset_flag s1).

Definition transition (cfg : Config) (s : t) (current_area : Z) (scores : list Q) : t :=
  update_state cfg (sense cfg s current_area scores) current_area.

(** [max(0, min(len(self.vk_keys) - 1, self.number - 1))] *)
Definition vk_idx (number : Z) : Z :=
  Z.max 0 (Z.min (Z.of_nat (length vk_keys) - 1) (number - 1)).

(** Lines 204-218 of [run]: the action block.  The result is the new
    state, the keys pressed, and the value returned by [run]. *)
Definition act (s : t) : t * list Action * bool :=
  if State_eqb (state s) INTERCEPTION && negb (number s =? 0) then
    (mk RESET 0 0 0 false,
     [KeyTap (nth (Z.to_nat (vk_idx (number s))) vk_keys 0)],
     true)
  else (s, [], negb (State_eqb (state s) RESET)).

(** [run], from what the frame shows: [current_area] is the number of
    pixels of the re-filled bar mask, [scores] the best match score of each
    numeral template over the numeral window. *)
Definition run (cfg : Config) (s : t) (current_area : Z) (scores : list Q)
  : t * list Action * bool :=
  act (transition cfg s current_area scores).

(** [_crop_zone] *)
Definition _crop_zone (cfg : Config) (frame : Image) : Image :=
  crop (zone cfg) frame.

(** [run] on a captured frame. *)
Definition run_frame `{Vision} (cfg : Config) (s : t) (frame : Image)
  : t * list Action * bool :=
  let zone_image := _crop_zone cfg frame in
  let current_area := bar_area zone_image in
  run cfg s current_area (number_scores (crop (number_zone cfg) zone_image)).

End NewMiniGame.

(** ** The box minigame and the main loop: [class FivemAutoFish] *)

Module FivemAutoFish.

Record BoxRecord := mkBoxRecord {
  center : Z * Z;
  color : Color;
  bounds : Z * Z * Z * Z
}.

Record Config := mkConfig {
  mini_cfg : NewMiniGame.Config;
  region : Region.t;
  last_no_detection_delay : Q;
  cs_background_color_lower : Color;
  cs_background_color_upper : Color;
  cs_success_color : Color
}.

(** The attributes of the object the main loop reads and writes.  [pause]
    is written by the hotkey thread only and is an input of each cycle. *)
Record t := mk {
  new_fish_mini : NewMiniGame.t;
  BoxNumber1 : option BoxRecord;
  BoxNumber2 : option BoxRecord;
  BoxNumber3 : option BoxRecord;
  went_to_none : bool;
  last_no_detection : Q
}.

(** [__init__]; [now] is the reading of the clock at construction. *)
Definition init (now : Q) : t :=
  mk NewMiniGame.init None None None false now.

Definition color_ltb (a b : Color) : bool :=
  let '(a1, a2, a3) := a in
  let '(b1, b2, b3) := b in
  (a1 <? b1) || ((a1 =? b1) && ((a2 <? b2) || ((a2 =? b2) && (a3 <? b3)))).

Definition count_color (c : Color) (l : list Color) : nat :=
  length (filter (color_eqb c) l).

(** [np.unique(pixels, axis=0)]: the distinct colours, in increasing
    (lexicographic) order. *)
Fixpoint insert_color (c : Color) (colors : list Color) : list Color :=
  match colors with
  | [] => [c]
  | d :: rest =>
      if color_ltb c d then c :: colors
      else if color_eqb c d then colors
      else d :: insert_color c rest
  end.

Definition unique_colors (pixels : list Color) : list Color :=
  fold_right insert_color [] pixels.

(** [counts.argmax()], as the colour it selects: the first colour whose
    count is maximal. *)
Fixpoint argmax_count (best : Color * nat) (rest : list (Color * nat)) : Color :=
  match rest with
  | [] => fst best
  | x :: rest' =>
      argmax_count (if (snd best <? snd x)%nat then x else best) rest'
  end.

(** Lines 318-321: [(0, 0, 0)] for an empty region, or else the most
    frequent colour of [np.unique(..., return_counts=True)]. *)
Definition most_common (pixels : list Color) : Color :=
  match map (fun c => (c, count_color c pixels)) (unique_colors pixels) with
  | [] => (0, 0, 0)
  | first :: rest => argmax_count first rest
  end.

Definition most_common_rgb_in_region (image_array : Image) (x1 y1 x2 y2 : Z)
  : Color :=
  let region := map (py_slice x1 x2) (py_slice y1 y2 image_array) in
  most_common (concat region).

(** [capture_screen_full]: [camera] is what [get_latest_frame] returned. *)
Definition capture_screen_full (camera : option Image) : option Image := camera.

Definition capture_screen (cfg : Config) (camera : option Image) : option Image :=
  match capture_screen_full camera with
  | None => None
  | Some frame => Some (crop (region cfg) frame)
  end.

Definition _click_absolute (x y : Z) : list Action := [Click x y].

Definition click_box (cfg : Config) (record : BoxRecord) : list Action :=
  let abs_x := Region.left (region cfg) + fst (center record) in
  let abs_y := Region.top (region cfg) + snd (center record) in
  _click_absolute abs_x abs_y.

Definition _get_box_by_digit (s : t) (digit : Z) : option BoxRecord :=
  if digit =? 1 then BoxNumber1 s
  else if digit =? 2 then BoxNumber2 s
  else if digit =? 3 then BoxNumber3 s
  else None.

Definition _set_box_by_digit (s : t) (digit : Z) (record : BoxRecord) : t :=
  if digit =? 1 then
    mk (new_fish_mini s) (Some record) (BoxNumber2 s) (BoxNumber3 s)
       (went_to_none s) (last_no_detection s)
  else if digit =? 2 then
    mk (new_fish_mini s) (BoxNumber1 s) (Some record) (BoxNumber3 s)
       (went_to_none s) (last_no_detection s)
  else if digit =? 3 then
    mk (new_fish_mini s) (BoxNumber1 s) (BoxNumber2 s) (Some record)
       (went_to_none s) (last_no_detection s)
  else s.

Definition in_background (cfg : Config) (c : Color) : bool :=
  let '(c1, c2, c3) := c in
  let '(l1, l2, l3) := cs_background_color_lower cfg in
  let '(u1, u2, u3) := cs_background_color_upper cfg in
  ((l1 <=? c1) && (c1 <=? u1))
  && ((l2 <=? c2) && (c2 <=? u2))
  && ((l3 <=? c3) && (c3 <=? u3)).

(** The body of the loop of [_update_number_boxes]. *)
Definition update_number_box (cfg : Config) (frame : Image) (s : t)
  (detection : Detection) : t :=
  let '(x, y, w, h) := box detection in
  let x2 := x + w in
  let y2 := y + h in
  let color0 := most_common_rgb_in_region frame x y x2 y2 in
  let color1 :=
    if in_background cfg color0 then
      match _get_box_by_digit s (digit detection) with
      | Some cached => color cached
      | None => color0
      end
    else color0 in
  let center := (int_half_plus w x, int_half_plus h y) in
  _set_box_by_digit s (digit detection) (mkBoxRecord center color1 (x, y, x2, y2)).

Definition _update_number_boxes (cfg : Config) (s : t)
  (detections : list Detection) (frame : Image) : t :=
  fold_left (update_number_box cfg frame) detections s.

Definition has_color (c : Color) (record : option BoxRecord) : bool :=
  match record with
  | Some r => color_eqb (color r) c
  | None => false
  end.

(** [_find_matching_box] returns the first record of the three slots whose
    colour is [c]; every slot holds a record of its own, so the record is
    named here by its slot. *)
Definition _find_matching_box (s : t) (c : Color) : option Z :=
  if has_color c (BoxNumber1 s) then Some 1
  else if has_color c (BoxNumber2 s) then Some 2
  else if has_color c (BoxNumber3 s) then Some 3
  else None.

Definition _reset_no_detection (s : t) (now : Q) : t :=
  mk (new_fish_mini s) (BoxNumber1 s) (BoxNumber2 s) (BoxNumber3 s) false now.

Definition _click_fail_safe (cfg : Config) (boxes : list Box) : list Action :=
  flat_map
    (fun b : Box =>
       let '(x, y, w, h) := b in
       let center_x := Region.left (region cfg) + x + w / 2 in
       let center_y := Region.top (region cfg) + y + h / 2 in
       _click_absolute center_x center_y)
    boxes.

(** The local variables of [_handle_boxes] and the object, along its loop. *)
Record Scan := mkScan {
  self : t;
  success_count : Z;
  clickable : bool
}.

(** [match.center = new_center; match.bounds = (x, y, x2, y2)] on the record
    of slot [slot]. *)
Definition refresh (s : t) (slot : Z) (new_center : Z * Z)
  (new_bounds : Z * Z * Z * Z) : t :=
  match _get_box_by_digit s slot with
  | Some r => _set_box_by_digit s slot (mkBoxRecord new_center (color r) new_bounds)
  | None => s
  end.

(** The body of the loop of [_handle_boxes]. *)
Definition scan_box (cfg : Config) (frame : Image) (st : Scan) (b : Box) : Scan :=
  let '(x, y, w, h) := b in
  let x2 := x + w in
  let y2 := y + h in
  let c := most_common_rgb_in_region frame x y x2 y2 in
  if color_eqb c (cs_success_color cfg) then
    mkScan (self st) (success_count st + 1) (clickable st)
  else
    match _find_matching_box (self st) c with
    | Some slot =>
        mkScan (refresh (self st) slot (int_half_plus w x, int_half_plus h y)
                        (x, y, x2, y2))
               (success_count st) true
    | None => mkScan (self st) (success_count st) true
    end.

Definition scan_boxes (cfg : Config) (s : t) (boxes : list Box) (frame : Image)
  : Scan :=
  fold_left (scan_box cfg frame) boxes (mkScan s 0 false).

(** Lines 462-468: the slot chosen from the number of successes. *)
Definition target_of (s : t) (success_count : Z) : option BoxRecord :=
  if success_count =? 0 then BoxNumber1 s
  else if success_count =? 1 then BoxNumber2 s
  else if success_count =? 2 then BoxNumber3 s
  else None.

(** [_handle_boxes]: the object after the call, the clicks issued, and
    the value returned. *)
Definition _handle_boxes (cfg : Config) (s : t) (boxes : list Box) (frame : Image)
  : t * list Action * bool :=
  let st := scan_boxes cfg s boxes frame in
  if negb (clickable st) then (self st, [], false)
  else
    match target_of (self st) (success_count st) with
    | Some target => (self st, click_box cfg target, true)
    | None => (self st, [], false)
    end.

(** What one iteration of the loop of [run] receives from outside: the
    pause flag, the two frames the camera hands out ([capture_screen_full],
    then [capture_screen]), and the reading of [time.time()]. *)
Record Input := mkInput {
  pause : bool;
  camera_full : option Image;
  camera_region : option Image;
  clock : Q
}.

(** The exit of the loop body an iteration took. *)
Inductive Outcome :=
| Paused
| NoFullFrame
| BarActive
| NoRegionFrame
| NoDetections
| NoBoxes
| ActionTaken
| FailSafe
| Waiting.

Definition with_mini (s : t) (m : NewMiniGame.t) : t :=
  mk m (BoxNumber1 s) (BoxNumber2 s) (BoxNumber3 s)
     (went_to_none s) (last_no_detection s).

Definition with_went_to_none (s : t) (b : bool) : t :=
  mk (new_fish_mini s) (BoxNumber1 s) (BoxNumber2 s) (BoxNumber3 s)
     b (last_no_detection s).

Definition with_last_no_detection (s : t) (now : Q) : t :=
  mk (new_fish_mini s) (BoxNumber1 s) (BoxNumber2 s) (BoxNumber3 s)
     (went_to_none s) now.

Definition nonempty {A : Type} (l : list A) : bool :=
  match l with [] => false | _ :: _ => true end.

(** Lines 497-522: the box pipeline on a captured working region. *)
Definition box_pipeline `{Vision} (cfg : Config) (s : t) (region_frame : Image)
  (now : Q) : t * list Action * Outcome :=
  let detections :=
    if went_to_none s then [] else process_frame_number region_frame in
  let s1 :=
    if nonempty detections
    then with_went_to_none (_update_number_boxes cfg s detections region_frame) false
    else s in
  if nonempty detections || went_to_none s1 then
    let boxes := process_frame_boxes region_frame in
    if negb (nonempty boxes) then (_reset_no_detection s1 now, [], NoBoxes)
    else
      let '(s2, clicks, action_taken) := _handle_boxes cfg s1 boxes region_frame in
      if action_taken then (with_went_to_none s2 true, clicks, ActionTaken)
      else if Qlt_bool (last_no_detection_delay cfg) (now - last_no_detection s2)
      then (with_last_no_detection s2 now, clicks ++ _click_fail_safe cfg boxes, FailSafe)
      else (s2, clicks, Waiting)
  else (_reset_no_detection s1 now, [], NoDetections).

(** One iteration of the loop of [run]. *)
Definition cycle `{Vision} (cfg : Config) (s : t) (i : Input)
  : t * list Action * Outcome :=
  if pause i then (s, [KeyUp "e"%string], Paused)
  else
    match capture_screen_full (camera_full i) with
    | None => (s, [], NoFullFrame)
    | Some full_frame =>
        let '(m, keys, active) :=
          NewMiniGame.run_frame (mini_cfg cfg) (new_fish_mini s) full_frame in
        let s1 := with_mini s m in
        if active then (s1, keys, BarActive)
        else
          match capture_screen cfg (camera_region i) with
          | None => (s1, keys, NoRegionFrame)
          | Some region_frame =>
              let '(s2, clicks, outcome) :=
                box_pipeline cfg s1 region_frame (clock i) in
              (s2, keys ++ clicks, outcome)
          end
    end.

(** The loop of [run] over the inputs of successive iterations: the final
    object and, for each iteration, the clock reading, the exit taken and
    the actions issued. *)
Fixpoint run `{Vision} (cfg : Config) (s : t) (inputs : list Input)
  : t * list (Q * Outcome * list Action) :=
  match inputs with
  | [] => (s, [])
  | i :: rest =>
      let '(s1, actions, outcome) := cycle cfg s i in
      let '(s2, trace) := run cfg s1 rest in
      (s2, (clock i, outcome, actions) :: trace)
  end.

(** The clock readings of the iterations that fired the fail-safe. *)
Definition fail_safe_times (trace : list (Q * Outcome * list Action)) : list Q :=
  flat_map
    (fun e : Q * Outcome * list Action =>
       match snd (fst e) with
       | FailSafe => [fst (fst e)]
       | _ => []
       end)
    trace.

End FivemAutoFish.

(** ** The selection policy of the numeral recognizer, as the
    specification words it *)

(** Among the scores that satisfy [P], numeral [d] (the scores are those
    of numerals 1, 2, ... in order) has the highest score [v], and is the
    first numeral to have it. *)
Definition first_best (P : Q -> Prop) (scores : list Q) (d : Z) (v : Q) : Prop :=
  1 <= d /\
  nth_error scores (Z.to_nat (d - 1)) = Some v /\
  P v /\
  forall (j : nat) (w : Q),
    nth_error scores j = Some w -> P w ->
    (w <= v)%Q /\ (Z.of_nat j < d - 1 -> (w < v)%Q).

(** A score accepted by the threshold loop: it reaches the configured
    confidence, and it is above the initial [best_score = -1.0]. *)
Definition confident (conf : Q) (v : Q) : Prop :=
  (conf <= v)%Q /\ (-1 < v)%Q.

(** What the threshold loop has established after the scores [seen]:
    nothing was accepted so far, or [detected] is the first best of the
    confident scores. *)
Definition scanned (conf : Q) (seen : list Q) (best_score : Q) (detected : Z)
  : Prop :=
  (detected = 0 /\ best_score = (-1 # 1) /\
   forall v, In v seen -> ~ confident conf v)
  \/ first_best (confident conf) seen detected best_score.

Definition any_score (v : Q) : Prop := True.

(** A score that reaches the confidence threshold. *)
Definition reaches (conf : Q) (v : Q) : Prop := (conf <= v)%Q.

(** ** The shape candidates of a cycle, as the specification words them *)

(** The dominant colour of a candidate box. *)
Definition box_color (frame : Image) (b : Box) : Color :=
  let '(x, y, w, h) := b in
  FivemAutoFish.most_common_rgb_in_region frame x y (x + w) (y + h).

(** A candidate is success-coloured, or else live. *)
Definition succeeded (cfg : FivemAutoFish.Config) (frame : Image) (b : Box) : bool :=
  color_eqb (box_color frame b) (FivemAutoFish.cs_success_color cfg).

Definition count_succeeded (cfg : FivemAutoFish.Config) (frame : Image)
  (boxes : list Box) : Z :=
  Z.of_nat (length (filter (succeeded cfg frame) boxes)).

Definition has_live (cfg : FivemAutoFish.Config) (frame : Image)
  (boxes : list Box) : bool :=
  existsb (fun b => negb (succeeded cfg frame b)) boxes.

(** The colour signature cached in a slot, if any. *)
Definition slot_color (s : FivemAutoFish.t) (slot : Z) : option Color :=
  option_map FivemAutoFish.color (FivemAutoFish._get_box_by_digit s slot).

(** ** Executions of the bar minigame *)

(** A frame, as the bar minigame sees it: the segmented area and the best
    match score of each numeral template. *)
Definition BarFrame : Type := (Z * list Q)%type.

(** The states in which the machine rests between two calls of [run] in
    an execution from the initial state. *)
Definition steady (s : NewMiniGame.t) : Prop :=
  NewMiniGame.state s = NewMiniGame.RESET
  \/ (NewMiniGame.state s = NewMiniGame.FOUND /\ 0 < NewMiniGame.starting_area s).

(** Successive calls of [run]: the final state and, for each frame, the
    state reached by the chain before the action block, the keys pressed and
    the value returned. *)
Fixpoint run_frames (cfg : NewMiniGame.Config) (s : NewMiniGame.t)
  (frames : list BarFrame)
  : NewMiniGame.t * list (NewMiniGame.State * list Action * bool) :=
  match frames with
  | [] => (s, [])
  | (current_area, scores) :: rest =>
      let reached :=
        NewMiniGame.state (NewMiniGame.transition cfg s current_area scores) in
      let '(s1, keys, active) := NewMiniGame.run cfg s current_area scores in
      let '(s2, trace) := run_frames cfg s1 rest in
      (s2, (reached, keys, active) :: trace)
  end.

(** The key pressed for a numeral that is the position of one of three
    templates. *)
Definition numeral_key (k : Action) : Prop :=
  k = KeyTap NewMiniGame.VK_1 \/ k = KeyTap NewMiniGame.VK_2
  \/ k = KeyTap NewMiniGame.VK_3.

(** ** Construction of the bar minigame *)

Module Setup.

(** Lines 90-96 of [NewMiniGame.__init__]: the numeral window, given in
    screen coordinates by [number_region], is stored relative to the bar
    zone. *)
Definition number_zone_of (zone number_region : Region.t) : Region.t :=
  Region.mk (Region.left number_region - Region.left zone)
            (Region.top number_region - Region.top zone)
            (Region.width number_region)
            (Region.height number_region).

End Setup.

(** ** What the detection methods do with the results of OpenCV *)

Module Pipelines.

(** A contour after [approxPolyDP]: the number of vertices of the polygon,
    whether [isContourConvex] holds of it, and its [boundingRect]. *)
Record Approx := mkApprox {
  n_vertices : nat;
  is_convex : bool;
  bounding_rect : Box
}.

(** [w / float(h)] *)
Definition aspect (w h : Z) : Q := (inject_Z w / inject_Z h)%Q.

(** The body of the loop of [process_frame_boxes] (lines 356-364): whether
    the contour is appended. *)
Definition keeps (a : Approx) : bool :=
  let '(x, y, w, h) := bounding_rect a in
  if negb (Nat.eqb (n_vertices a) 4) || negb (is_convex a) then false
  else if (w <? 20) || (h <? 20) then false
  else if negb (Qle_bool (8 # 10) (aspect w h) && Qle_bool (aspect w h) (12 # 10))
  then false
  else true.

(** [process_frame_boxes], from the approximated contours in the order
    [findContours] returned them. *)
Definition process_frame_boxes_of (contours : list Approx) : list Box :=
  map bounding_rect (filter keeps contours).

(** The points [(x, y)] that [np.where(result >= conf)], reversed and
    zipped, yields for one row [y] of a result matrix, from column [x] on.
    [result] is an array of [float32] and [conf] a Python float: numpy makes
    the comparison in [float32], with [conf] rounded to it. *)
Fixpoint hits_in_row (conf : Q) (y x : Z) (row : list Q) : list (Z * Z) :=
  match row with
  | [] => []
  | v :: rest =>
      (if Qle_bool (to_float32 conf) v then [(x, y)] else [])
      ++ hits_in_row conf y (x + 1) rest
  end.

(** The same for a result matrix, from row [y] on: [np.where] lists the
    positions row by row. *)
Fixpoint hits (conf : Q) (y : Z) (result : list (list Q)) : list (Z * Z) :=
  match result with
  | [] => []
  | row :: rest => hits_in_row conf y 0 row ++ hits conf (y + 1) rest
  end.

(** What [matchTemplate] returned for a template, and the shape
    [(h, w)] of the template. *)
Definition Match : Type := (list (list Q) * (Z * Z))%type.

(** The loop of [process_frame_number] (lines 340-345), from template
    [idx] on. *)
Fixpoint detections_from (conf : Q) (idx : Z) (matches : list Match)
  : list Detection :=
  match matches with
  | [] => []
  | (result, (h, w)) :: rest =>
      map (fun pt : Z * Z => mkDetection (idx + 1) (fst pt, snd pt, w, h))
          (hits conf 0 result)
      ++ detections_from conf (idx + 1) rest
  end.

(** [process_frame_number], from the result of [matchTemplate] for each
    template of [self.nums] in order. *)
Definition process_frame_number_of (conf : Q) (matches : list Match)
  : list Detection :=
  detections_from conf 0 matches.

End Pipelines.

(** ** The two background threads *)

Module Background.

(** An event of the [keyboard] library. *)
Record KeyEvent := mkKeyEvent { event_type : string; scan_code : Z }.

(** [winsound.Beep(frequency, duration)] *)
Inductive Sound := Beep (frequency duration : Z).

(** One turn of the loop of [handle_pause]: the pause flag after the event
    and the sounds played. *)
Definition on_key_event (pause_key_code : Z) (pause : bool) (event : KeyEvent)
  : bool * list Sound :=
  if String.eqb (event_type event) "down" && (scan_code event =? pause_key_code)
  then
    let pause' := negb pause in
    (pause', if pause' then [Beep 1000 200] else [Beep 500 200])
  else (pause, []).

(** [handle_pause] over the events read in succession. *)
Fixpoint handle_pause (pause_key_code : Z) (pause : bool) (events : list KeyEvent)
  : bool * list Sound :=
  match events with
  | [] => (pause, [])
  | event :: rest =>
      let '(pause1, sounds1) := on_key_event pause_key_code pause event in
      let '(pause2, sounds2) := handle_pause pause_key_code pause1 rest in
      (pause2, sounds1 ++ sounds2)
  end.

(** [a[i]] for an integer index on a numpy array or a list: a negative
    index counts from the end; [None] stands for [IndexError]. *)
Definition np_index {A : Type} (l : list A) (i : Z) : option A :=
  let len := Z.of_nat (length l) in
  if 0 <=? i then (if i <? len then nth_error l (Z.to_nat i) else None)
  else if - len <=? i then nth_error l (Z.to_nat (i + len))
  else None.

(** [thresh.shape] of a grey image given by its rows. *)
Definition shape0 (gray : list (list Z)) : Z := Z.of_nat (length gray).
Definition shape1 (gray : list (list Z)) : Z :=
  Z.of_nat (length (hd [] gray)).

(** [cv2.threshold(gray, t, 255, cv2.THRESH_BINARY)] on one pixel. *)
Definition threshold_binary (t v : Z) : Z := if t <? v then 255 else 0.

(** [is_bar_available], from the grey image [cvtColor] made of the frame;
    [None] stands for the [IndexError] of line 383. *)
Definition is_bar_available (bar_x bar_y : Z) (gray : list (list Z))
  : option bool :=
  let thresh := map (map (threshold_binary 70)) gray in
  if (shape0 thresh <=? bar_y) || (shape1 thresh <=? bar_x) then Some false
  else
    match np_index thresh bar_y with
    | None => None
    | Some row =>
        match np_index row bar_x with
        | None => None
        | Some v => Some (0 <? v)
        end
    end.

(** What OpenCV computes for the thread pressing E: the grey image of a
    frame, and whether the prompt template is found in it
    ([is_fish_press_e_available]). *)
Class Probe := {
  to_gray : Image -> list (list Z);
  is_fish_press_e_available : Image -> bool
}.

Inductive KeyPress := Press (key : string).

(** One turn of the loop of [handle_press_e]: the counter [e_press_count]
    after it and the keys pressed; [None] when [is_bar_available] raises. *)
Definition press_e_turn `{Probe} (bar_x bar_y : Z) (e_press_count : Z)
  (pause : bool) (camera : option Image) : option (Z * list KeyPress) :=
  if pause then Some (e_press_count, [])
  else
    match camera with
    | None => Some (e_press_count, [])
    | Some frame =>
        let should_press :=
          if is_fish_press_e_available frame then Some true
          else is_bar_available bar_x bar_y (to_gray frame) in
        match should_press with
        | None => None
        | Some true => Some (e_press_count + 1, [Press "e"; Press "e"])
        | Some false => Some (e_press_count, [])
        end
    end.

(** [handle_press_e] over the pause flag and the camera frame of
    successive turns. *)
Fixpoint handle_press_e `{Probe} (bar_x bar_y : Z) (e_press_count : Z)
  (turns : list (bool * option Image)) : option (Z * list KeyPress) :=
  match turns with
  | [] => Some (e_press_count, [])
  | (pause, camera) :: rest =>
      match press_e_turn bar_x bar_y e_press_count pause camera with
      | None => None
      | Some (count1, keys1) =>
          match handle_press_e bar_x bar_y count1 rest with
          | None => None
          | Some (count2, keys2) => Some (count2, keys1 ++ keys2)
          end
      end
  end.

End Background.

(** ** Colours *)

(** The order of [np.unique] on colours, and lists in that order without
    repetition. *)
Definition color_lt (a b : Color) : Prop := FivemAutoFish.color_ltb a b = true.

Definition increasing (colors : list Color) : Prop := StronglySorted color_lt colors.

(** The pixels [most_common_rgb_in_region] looks at. *)
Definition region_pixels (image_array : Image) (x1 y1 x2 y2 : Z) : list Color :=
  concat (map (py_slice x1 x2) (py_slice y1 y2 image_array)).

(** ** Template hits *)

(** The record [_update_number_boxes] stores for a detection, but for its
    colour. *)
Definition placed_at (detection : Detection) (record : FivemAutoFish.BoxRecord)
  : Prop :=
  let '(x, y, w, h) := box detection in
  FivemAutoFish.center record = (int_half_plus w x, int_half_plus h y)
  /\ FivemAutoFish.bounds record = (x, y, x + w, y + h).

(** The dominant colour of the box of a detection is in the configured
    background range. *)
Definition on_background (cfg : FivemAutoFish.Config) (frame : Image)
  (detection : Detection) : Prop :=
  FivemAutoFish.in_background cfg (box_color frame (box detection)) = true.

(** ** Shape candidates *)

(** A click that falls within a box of the working region, at least 10
    pixels from its left and upper edges and before its right and lower
    edges, once translated to the screen. *)
Definition clicks_within (cfg : FivemAutoFish.Config) (b : Box) (a : Action)
  : Prop :=
  let '(x, y, w, h) := b in
  exists cx cy,
    a = Click (Region.left (FivemAutoFish.region cfg) + cx)
              (Region.top (FivemAutoFish.region cfg) + cy)
    /\ x + 10 <= cx < x + w /\ y + 10 <= cy < y + h.

(** A rectangle that [process_frame_boxes] accepts: at least 20 pixels a
    side, with a width between 0.8 and 1.2 times its height. *)
Definition near_square (b : Box) : Prop :=
  let '(x, y, w, h) := b in
  20 <= w /\ 20 <= h /\ 4 * h <= 5 * w /\ 5 * w <= 6 * h.

(** Detection [d] reports a position of the result matrix of a template
    where the score reaches [conf] as a [float32]: the template is the one of position
    [k] (digit [k + 1]), the position is column [j] of row [i], and the box
    has the shape of the template. *)
Definition hit_of (conf : Q) (matches : list Pipelines.Match) (d : Detection)
  : Prop :=
  exists (k i j : nat) (result : list (list Q)) (h w : Z) (row : list Q) (v : Q),
    nth_error matches k = Some (result, (h, w))
    /\ nth_error result i = Some row
    /\ nth_error row j = Some v
    /\ (to_float32 conf <= v)%Q
    /\ d = mkDetection (Z.of_nat k + 1) (Z.of_nat j, Z.of_nat i, w, h).

(** ** Iterations of the main loop *)

(** What an iteration leaves of the box tracker when it does not reach the
    box pipeline. *)
Definition same_tracker (s s' : FivemAutoFish.t) : Prop :=
  FivemAutoFish.BoxNumber1 s' = FivemAutoFish.BoxNumber1 s
  /\ FivemAutoFish.BoxNumber2 s' = FivemAutoFish.BoxNumber2 s
  /\ FivemAutoFish.BoxNumber3 s' = FivemAutoFish.BoxNumber3 s
  /\ FivemAutoFish.went_to_none s' = FivemAutoFish.went_to_none s
  /\ FivemAutoFish.last_no_detection s' = FivemAutoFish.last_no_detection s.

Definition is_key_tap (a : Action) : Prop := exists vk_code, a = KeyTap vk_code.
Definition is_click (a : Action) : Prop := exists x y, a = Click x y.

(** What the exit taken by an iteration says of the actions it issued and
    of the object it leaves, from the object [s] and the input [i]. *)
Definition accounts_for (cfg : FivemAutoFish.Config) (s : FivemAutoFish.t)
  (i : FivemAutoFish.Input) (s' : FivemAutoFish.t) (actions : list Action)
  (outcome : FivemAutoFish.Outcome) : Prop :=
  match outcome with
  | FivemAutoFish.Paused => s' = s /\ actions = [KeyUp "e"%string]
  | FivemAutoFish.NoFullFrame => s' = s /\ actions = []
  | FivemAutoFish.BarActive =>
      same_tracker s s' /\ (length actions <= 1)%nat /\ Forall is_key_tap actions
  | FivemAutoFish.NoRegionFrame => same_tracker s s' /\ actions = []
  | FivemAutoFish.NoDetections | FivemAutoFish.NoBoxes =>
      actions = []
      /\ FivemAutoFish.went_to_none s' = false
      /\ FivemAutoFish.last_no_detection s' = FivemAutoFish.clock i
  | FivemAutoFish.ActionTaken =>
      (exists x y, actions = [Click x y])
      /\ FivemAutoFish.went_to_none s' = true
      /\ FivemAutoFish.last_no_detection s' = FivemAutoFish.last_no_detection s
  | FivemAutoFish.FailSafe =>
      actions <> [] /\ Forall is_click actions
      /\ (FivemAutoFish.last_no_detection_delay cfg
          < FivemAutoFish.clock i - FivemAutoFish.last_no_detection s)%Q
      /\ FivemAutoFish.last_no_detection s' = FivemAutoFish.clock i
  | FivemAutoFish.Waiting =>
      actions = []
      /\ (FivemAutoFish.clock i - FivemAutoFish.last_no_detection s
          <= FivemAutoFish.last_no_detection_delay cfg)%Q
      /\ FivemAutoFish.last_no_detection s' = FivemAutoFish.last_no_detection s
  end.

(** A slot that holds a record in [s] holds one in [s']. *)
Definition keeps_slots (s s' : FivemAutoFish.t) : Prop :=
  forall d, slot_color s d <> None -> slot_color s' d <> None.

(** ** The background threads *)

(** The events that toggle the pause: presses of the pause key. *)
Definition toggles (pause_key_code : Z) (event : Background.KeyEvent) : bool :=
  String.eqb (Background.event_type event) "down"
  && (Background.scan_code event =? pause_key_code).

(** A grey image is an array: its rows have the same length. *)
Definition rectangular (gray : list (list Z)) : Prop :=
  forall row, In row gray -> length row = length (hd [] gray).

(** The grey image made of the frame of a turn, if any, is an array. *)
Definition gray_is_array `{Background.Probe} (turn : bool * option Image) : Prop :=
  forall frame, snd turn = Some frame -> rectangular (Background.to_gray frame).

(** A turn of the thread pressing E in which E is due: the program is
    not paused, the camera has a frame, and the frame shows the prompt or a
    bright pixel at the probe point of the bar. *)
Definition e_is_due `{Background.Probe} (bar_x bar_y : Z)
  (turn : bool * option Image) : bool :=
  match turn with
  | (false, Some frame) =>
      Background.is_fish_press_e_available frame
      || match Background.is_bar_available bar_x bar_y (Background.to_gray frame) with
         | Some true => true
         | _ => false
         end
  | _ => false
  end.

(** ** Pixels *)

(** The pixel at column [x] of row [y] of an image, if there is one. *)
Definition pixel_at (image : Image) (x y : Z) : option Color :=
  match nth_error image (Z.to_nat y) with
  | Some row => nth_error row (Z.to_nat x)
  | None => None
  end.

(** ** Sample configuration and frames, for closed instances *)

Module Sample.

Definition bar_zone : Region.t := Region.mk 0 0 4 1.
Definition numeral_zone : Region.t := Region.mk 0 0 2 1.

(** [number_conf = 0.8], [compare_dif = 0.4], [new_area_diff = 1.2] *)
Definition mini_cfg : NewMiniGame.Config :=
  NewMiniGame.mkConfig bar_zone numeral_zone
    (to_double (8 # 10)) (to_double (4 # 10)) (to_double (12 # 10)).

(** The same with [compare_dif = 0.3333333333333333]. *)
Definition third_cfg : NewMiniGame.Config :=
  NewMiniGame.mkConfig bar_zone numeral_zone
    (to_double (8 # 10)) (to_double (3333333333333333 # 10000000000000000))
    (to_double (12 # 10)).

(** Match scores as [float32] numbers: 0.1, 0.2, 0.1 and 0.1, 0.9, 0.1. *)
Definition low_scores : list Q := map to_float32 [1 # 10; 2 # 10; 1 # 10].
Definition numeral_two_scores : list Q := map to_float32 [1 # 10; 9 # 10; 1 # 10].

Definition black : Color := (0, 0, 0).
Definition white : Color := (255, 255, 255).
Definition green : Color := (0, 255, 0).
Definition red : Color := (200, 30, 30).
Definition blue : Color := (30, 30, 200).
Definition yellow : Color := (220, 220, 0).

(** The working region starts at (2, 1) of the screen and is 60 by 20;
    the fail-safe delay is 5 seconds; green is the success colour. *)
Definition cfg : FivemAutoFish.Config :=
  FivemAutoFish.mkConfig mini_cfg (Region.mk 2 1 60 20) (5 # 1)
    (0, 0, 0) (10, 10, 10) green.

(** A working region showing squares of 20 by 20 pixels side by side, one
    of each of the given colours, and the candidate boxes around them. *)
Definition frame_of (colors : list Color) : Image :=
  repeat (flat_map (fun c => repeat c 20%nat) colors) 20%nat.

Definition boxes_of (n : nat) : list Box :=
  map (fun i => (20 * Z.of_nat i, 0, 20, 20)) (seq 0 n).

(** The screen around such a working region: a black margin, two pixels
    wide at the sides and one pixel high above and below. *)
Definition screen_of (colors : list Color) : Image :=
  let blank := repeat black (20 * length colors + 4)%nat in
  blank
  :: map (fun row => [black; black] ++ row ++ [black; black]) (frame_of colors)
  ++ [blank].

(** Three tracked records: red in slot 1, blue in slot 2, yellow in
    slot 3. *)
Definition tracked : FivemAutoFish.t :=
  FivemAutoFish.mk NewMiniGame.init
    (Some (FivemAutoFish.mkBoxRecord (10, 10) red (0, 0, 20, 20)))
    (Some (FivemAutoFish.mkBoxRecord (30, 10) blue (20, 0, 40, 20)))
    (Some (FivemAutoFish.mkBoxRecord (50, 10) yellow (40, 0, 60, 20)))
    false 0.

(** A stand-in for the OpenCV pipelines: the bar is the white pixels of its
    zone, no numeral is legible, template 2 is found over the first square
    of the working region, and that square is the one shape candidate. *)
Definition vision : Vision := {|
  bar_area := fun zone_image =>
    Z.of_nat (FivemAutoFish.count_color white (concat zone_image));
  number_scores := fun _ => low_scores;
  process_frame_number := fun _ => [mkDetection 2 (0, 0, 20, 20)];
  process_frame_boxes := fun _ => [(0, 0, 20, 20)]
|}.

(** An iteration of the main loop, not paused, on a screen showing one red
    square, at the given reading of the clock. *)
Definition tick (now : Q) : FivemAutoFish.Input :=
  FivemAutoFish.mkInput false (Some (screen_of [red])) (Some (screen_of [red])) now.

End Sample.

(** The clock readings at which the fail-safe fires over three iterations
    at 10, 11 and 20 seconds, from the initial object built at second 0. *)
Definition fail_safe_times_of_sample : list Q :=
  FivemAutoFish.fail_safe_times
    (snd (@FivemAutoFish.run Sample.vision Sample.cfg (FivemAutoFish.init 0)
            [Sample.tick (10 # 1); Sample.tick (11 # 1); Sample.tick (20 # 1)])).


(** ** More samples *)

Module Sample2.

(** A bar zone at (1, 1) of 4 by 2 pixels and, inside it, a numeral
    region at (2, 2) of 2 by 1 pixels; a screen of 3 rows of 6 pixels whose
    pixel at column [x] of row [y] has colour [(x, y, 0)]. *)
Definition zone : Region.t := Region.mk 1 1 4 2.
Definition number_region : Region.t := Region.mk 2 2 2 1.

Definition grid : Image :=
  map (fun y => map (fun x => (Z.of_nat x, Z.of_nat y, 0)) (seq 0 6)) (seq 0 3).

(** Template hits: digit 2 over the first square, digit 1 over the second,
    digit 2 again over the third. *)
Definition hit_a : Detection := mkDetection 2 (0, 0, 20, 20).
Definition hit_b : Detection := mkDetection 1 (20, 0, 20, 20).
Definition hit_c : Detection := mkDetection 2 (40, 0, 20, 20).

(** The sample object after an action was taken. *)
Definition acted : FivemAutoFish.t :=
  FivemAutoFish.with_went_to_none Sample.tracked true.

(** A stand-in for the OpenCV pipelines that finds no template. *)
Definition vision_without_hits : Vision := {|
  bar_area := @bar_area Sample.vision;
  number_scores := @number_scores Sample.vision;
  process_frame_number := fun _ => [];
  process_frame_boxes := @process_frame_boxes Sample.vision
|}.

(** A stand-in for the OpenCV pipelines on images without numeral,
    template or shape: the bar is the white pixels of its zone, and nothing
    else is found. *)
Definition vision_of_nothing : Vision := {|
  bar_area := @bar_area Sample.vision;
  number_scores := @number_scores Sample.vision;
  process_frame_number := fun _ => [];
  process_frame_boxes := fun _ => []
|}.

(** A region whose origin is left of the frame. *)
Definition region_left_of_frame : Region.t := Region.mk (-2) 0 5 2.

(** A grey image of 2 rows of 3 pixels. *)
Definition gray : list (list Z) := [[10; 80; 20]; [30; 200; 70]].

(** A stand-in for the grey conversion (the mean of the channels) and a
    prompt that is never found. *)
Definition probe : Background.Probe := {|
  Background.to_gray :=
    map (map (fun c : Color => (fst (fst c) + snd (fst c) + snd c) / 3));
  Background.is_fish_press_e_available := fun _ => false
|}.

Definition bright : Image := [[Sample.white; Sample.white]].
Definition dark : Image := [[Sample.black; Sample.black]].

Definition turns : list (bool * option Image) :=
  [(false, Some bright); (true, Some bright); (false, None); (false, Some dark);
   (false, Some bright)].

End Sample2.

(** ** Rounding *)

(** The rounding at values of the program: [0.35], [0.4] and [100 / 300] as
    doubles, [0.7] as a [float32]; and ties, which go to the even
    significand: [2 ^ 53 + 1] and [2 ^ 53 + 3] as doubles. *)
Example rounding_at_sample_values :
  (to_double (35 # 100) == 3152519739159347 # 9007199254740992)%Q
  /\ (to_double (4 # 10) == 3602879701896397 # 9007199254740992)%Q
  /\ (to_double (100 # 300) == 6004799503160661 # 18014398509481984)%Q
  /\ (to_float32 (to_double (7 # 10)) == 11744051 # 16777216)%Q
  /\ (to_double (9007199254740993 # 1) == 9007199254740992 # 1)%Q
  /\ (to_double (9007199254740995 # 1) == 9007199254740996 # 1)%Q
  /\ (to_double (- (1 # 3)) == - to_double (1 # 3))%Q.
Proof. repeat split; vm_compute; reflexivity. Qed.

(** A number rounds to itself when its significand fits. *)
Example rounding_keeps_floats :
  (to_double (to_double (1 # 3)) == to_double (1 # 3))%Q
  /\ (to_float32 (3 # 4) == 3 # 4)%Q
  /\ (to_double (inject_Z 120) == inject_Z 120)%Q
  /\ (to_double 0 == 0)%Q.
Proof. repeat split; vm_compute; reflexivity. Qed.

(** * Properties *)

(** ** Comparisons *)

Lemma Qlt_bool_iff (a b : Q) : Qlt_bool a b = true <-> (a < b)%Q.
Proof.
  unfold Qlt_bool. rewrite negb_true_iff. split; intro Hab.
  - apply Qnot_le_lt. intro Hle. apply Qle_bool_iff in Hle. congruence.
  - destruct (Qle_bool b a) eqn:E; [|reflexivity].
    apply Qle_bool_iff in E. exfalso. exact (Qlt_not_le _ _ Hab E).
Qed.

Lemma Qle_bool_false_iff (a b : Q) : Qle_bool a b = false <-> (b < a)%Q.
Proof.
  rewrite <- Qlt_bool_iff. unfold Qlt_bool. rewrite negb_true_iff. tauto.
Qed.

Lemma State_eqb_eq (a b : NewMiniGame.State) :
  NewMiniGame.State_eqb a b = true <-> a = b.
Proof. destruct a, b; simpl; split; congruence. Qed.

Lemma State_eqb_neq (a b : NewMiniGame.State) :
  NewMiniGame.State_eqb a b = false <-> a <> b.
Proof. destruct a, b; simpl; split; congruence. Qed.

(** ** The bar minigame *)

Section BarMiniGame.

Import NewMiniGame.

Variable cfg : Config.

(** Reading the numeral touches the stored numeral and the reset flag
    only. *)
Lemma sense_state s a scores : state (sense cfg s a scores) = state s.
Proof. unfold sense. destruct (0 <? a); reflexivity. Qed.

Lemma sense_starting_area s a scores :
  starting_area (sense cfg s a scores) = starting_area s.
Proof. unfold sense. destruct (0 <? a); reflexivity. Qed.

Lemma sense_no_area s a scores : a <= 0 -> sense cfg s a scores = s.
Proof.
  intro Ha. unfold sense. destruct (0 <? a) eqn:E; [|reflexivity].
  apply Z.ltb_lt in E. lia.
Qed.

(** The chain of [run] never changes the numeral except to clear it. *)
Lemma update_state_number s a :
  number (update_state cfg s a) = number s \/ number (update_state cfg s a) = 0.
Proof.
  unfold update_state.
  repeat match goal with
         | |- context [if ?c then _ else _] => destruct c
         end; simpl; auto.
Qed.

(** From [RESET] the chain leads to [RESET] or [FOUND]. *)
Lemma update_state_from_reset s a :
  state s = RESET -> state (update_state cfg s a) <> INTERCEPTION.
Proof.
  intro Hs. unfold update_state. rewrite Hs. simpl.
  repeat match goal with
         | |- context [if ?c then _ else _] => destruct c
         end; simpl; rewrite ?Hs; discriminate.
Qed.

(** A frame without area resets the machine from every state but [FOUND]
    with a recorded starting area. *)
Lemma run_area_zero_resets s scores :
  state s <> FOUND \/ starting_area s = 0 ->
  let s' := fst (fst (run cfg s 0 scores)) in
  state s' = RESET /\ starting_area s' = 0 /\ number s' = 0.
Proof.
  intros Hs. unfold run, transition. rewrite sense_no_area by lia.
  unfold update_state.
  assert (E : State_eqb (state s) FOUND && negb (starting_area s =? 0) = false).
  { destruct Hs as [Hs|Hs].
    - apply State_eqb_neq in Hs. rewrite Hs. reflexivity.
    - rewrite Hs. simpl. apply andb_false_r. }
  rewrite E. simpl. rewrite andb_false_r. simpl. unfold act. simpl. auto.
Qed.

(** In [FOUND] with a recorded starting area the first branch of the chain
    is taken, whatever the area: without a numeral the machine stays as it
    is, also on a frame without area. *)
Lemma run_area_zero_found_without_numeral s scores :
  state s = FOUND -> starting_area s <> 0 -> number s = 0 ->
  let s' := fst (fst (run cfg s 0 scores)) in
  state s' = FOUND /\ starting_area s' = starting_area s.
Proof.
  intros Hs Ha Hn. unfold run, transition. rewrite sense_no_area by lia.
  unfold update_state. rewrite Hs. simpl.
  apply Z.eqb_neq in Ha. rewrite Ha, Hn. simpl.
  destruct (Qle_bool _ _); simpl; unfold act; simpl; rewrite Hs; simpl; auto.
Qed.

End BarMiniGame.

(** Case analysis along a chain of conditionals. *)
Ltac split_if :=
  match goal with
  | H : context [if ?c then _ else _] |- _ =>
      let E := fresh "E" in destruct c eqn:E; simpl in H
  | |- context [if ?c then _ else _] =>
      let E := fresh "E" in destruct c eqn:E; simpl
  end.

(** Boolean tests of the program, read as propositions. *)
Ltac reflect_tests :=
  repeat match goal with
    | H : _ && _ = true |- _ => apply andb_prop in H; destruct H
    | H : NewMiniGame.State_eqb _ _ = true |- _ => apply State_eqb_eq in H
    | H : NewMiniGame.State_eqb _ _ = false |- _ => apply State_eqb_neq in H
    | H : negb _ = true |- _ => apply negb_true_iff in H
    | H : negb _ = false |- _ => apply negb_false_iff in H
    | H : (_ =? _) = true |- _ => apply Z.eqb_eq in H
    | H : (_ =? _) = false |- _ => apply Z.eqb_neq in H
    | H : (_ <? _) = true |- _ => apply Z.ltb_lt in H
    | H : (_ <? _) = false |- _ => apply Z.ltb_ge in H
    | H : Qle_bool _ _ = true |- _ => apply Qle_bool_iff in H
    | H : Qle_bool _ _ = false |- _ => apply Qle_bool_false_iff in H
    | H : Qlt_bool _ _ = true |- _ => apply Qlt_bool_iff in H
    end.

Section BarMiniGameClaims.

Import NewMiniGame.

(** C1 (the code departs from the claim).  A frame whose segmented area is
    0 must leave the machine in [RESET] with [starting_area = 0] and
    [number = 0] from every state.  From the initial state, a first frame
    with area 120 and no legible numeral leads to [FOUND] with
    [starting_area = 120]; on a following frame with area 0 the first
    branch of the chain of [run] is taken ([0 / 120 <= compare_dif], no
    numeral), the branch [current_area == 0] is not reached, and the machine
    stays in [FOUND] with [starting_area = 120], reporting that it is
    active. *)
Theorem area_zero_in_found_without_numeral_is_not_reset :
  let s1 := fst (fst (run Sample.mini_cfg init 120 Sample.low_scores)) in
  s1 = mk FOUND 120 120 0 true /\
  run Sample.mini_cfg s1 0 [] = (mk FOUND 120 0 0 true, [], true).
Proof. split; reflexivity. Qed.

Variable cfg : Config.

(** C2, as amended.  [INTERCEPTION] is entered only from [FOUND], and
    only in a step where [current_area / starting_area <= compare_dif] (the
    quotient as the double that Python computes) and the numeral stored
    once the step has read the frame's numeral is positive.  A step taken
    in [FOUND] on a frame with non-zero area in which the stored numeral is
    still 0 after that reading ends in [FOUND], both before and after the
    action block.  On a visible bar the numeral is 0 after the reading
    exactly when the frame shows no numeral and the numeral stored before
    was 0 or was due to be cleared. *)
Theorem interception_only_from_found_with_numeral
  (s : t) (current_area : Z) (scores : list Q) :
  let seen := sense cfg s current_area scores in
  let s' := transition cfg s current_area scores in
  (state s <> INTERCEPTION -> state s' = INTERCEPTION ->
   state s = FOUND /\ starting_area s <> 0 /\
   (ratio current_area (starting_area s) <= compare_dif cfg)%Q /\
   0 < number seen /\ number s' = number seen)
  /\
  (state s = FOUND -> number seen = 0 -> current_area <> 0 ->
   state s' = FOUND /\
   state (fst (fst (run cfg s current_area scores))) = FOUND)
  /\
  (0 < current_area ->
   (number seen = 0 <->
    detected_number (number_conf cfg) scores = 0
    /\ (number_reset_flag s = true \/ number s = 0))).
Proof.
  intros seen s'.
  assert (Hst : state seen = state s) by apply sense_state.
  assert (Hsa : starting_area seen = starting_area s) by apply sense_starting_area.
  assert (Hnum : 0 < current_area ->
                 (number seen = 0 <->
                  detected_number (number_conf cfg) scores = 0
                  /\ (number_reset_flag s = true \/ number s = 0))).
  { intro Hpos. subst seen. unfold sense.
    apply Z.ltb_lt in Hpos. rewrite Hpos. unfold _detect_number. cbn [number].
    destruct (detected_number (number_conf cfg) scores =? 0) eqn:E.
    - apply Z.eqb_eq in E. rewrite E.
      destruct (number_reset_flag s).
      + split; [intros _; split; [reflexivity | left; reflexivity] | reflexivity].
      + split; [intro H; split; [reflexivity | right; exact H]|].
        intros [_ [H|H]]; [discriminate | exact H].
    - apply Z.eqb_neq in E. split; [intro H; contradiction | intros [H _]; contradiction]. }
  unfold run. change (transition cfg s current_area scores) with s'.
  assert (Hs' : s' = update_state cfg seen current_area) by reflexivity.
  clearbody s' seen. subst s'. unfold update_state. rewrite Hst, Hsa.
  split; [|split; [|exact Hnum]].
  - intros Hfrom Hto. simpl in Hto.
    repeat split_if; try congruence.
    reflect_tests. simpl. auto.
  - intros HF Hn Ha. rewrite HF, Hn. simpl.
    apply Z.eqb_neq in Ha. rewrite Ha. simpl.
    unfold act.
    repeat split_if; simpl; rewrite ?Hst, ?HF; auto; reflect_tests; congruence.
Qed.

End BarMiniGameClaims.


Section BarAction.

Import NewMiniGame.

Variable cfg : Config.

(** A step that starts in [INTERCEPTION] on a frame with non-zero area
    reaches the action block in [INTERCEPTION]. *)
Lemma interception_kept_on_visible_bar (s : t) (current_area : Z) (scores : list Q) :
  state s = INTERCEPTION -> current_area <> 0 ->
  state (transition cfg s current_area scores) = INTERCEPTION.
Proof.
  intros Hs Ha. unfold transition, update_state.
  rewrite sense_state, Hs. simpl.
  apply Z.eqb_neq in Ha. rewrite Ha. simpl.
  rewrite sense_state. exact Hs.
Qed.

(** C3.  When a step reaches the action block of [run] in [INTERCEPTION]
    (it started there or arrived there in this step) with stored numeral
    [n > 0], exactly one key is pressed, the key of index [n - 1] clamped to
    [0, 3] among the four keys, and the same step leaves the machine in
    [RESET] with [number = 0] and [starting_area = 0], reporting an action;
    a step that starts in [RESET] presses no key. *)
Theorem interception_presses_one_key_and_resets
  (s : t) (current_area : Z) (scores : list Q) (n : Z) :
  state (transition cfg s current_area scores) = INTERCEPTION ->
  number (transition cfg s current_area scores) = n ->
  0 < n ->
  let idx := Z.max 0 (Z.min 3 (n - 1)) in
  run cfg s current_area scores
  = (mk RESET 0 0 0 false, [KeyTap (nth (Z.to_nat idx) vk_keys 0)], true)
  /\ 0 <= idx <= 3
  /\ In (nth (Z.to_nat idx) vk_keys 0) vk_keys
  /\ forall (r : t) (area' : Z) (scores' : list Q),
       state r = RESET -> snd (fst (run cfg r area' scores')) = [].
Proof.
  intros Hst Hn Hpos idx. repeat split.
  - unfold run, act. rewrite Hst, Hn. simpl.
    assert (E : (n =? 0) = false) by (apply Z.eqb_neq; lia).
    rewrite E. simpl. reflexivity.
  - subst idx. lia.
  - subst idx. lia.
  - apply nth_In. subst idx. simpl. lia.
  - intros r area' scores' Hr. unfold run, act.
    assert (E : State_eqb (state (transition cfg r area' scores')) INTERCEPTION = false).
    { apply State_eqb_neq. unfold transition.
      apply update_state_from_reset. rewrite sense_state. exact Hr. }
    rewrite E. reflexivity.
Qed.

End BarAction.

Lemma interception_presses_one_key_and_resets_witness :
  NewMiniGame.run Sample.mini_cfg (NewMiniGame.mk NewMiniGame.FOUND 120 118 0 false)
    40 [1 # 10; 9 # 10; 1 # 10]
  = (NewMiniGame.mk NewMiniGame.RESET 0 0 0 false, [KeyTap NewMiniGame.VK_2], true).
Proof.
  apply (interception_presses_one_key_and_resets Sample.mini_cfg
           (NewMiniGame.mk NewMiniGame.FOUND 120 118 0 false)
           40 [1 # 10; 9 # 10; 1 # 10] 2);
    [reflexivity | reflexivity | lia].
Defined.

(** ** The numeral recognizer *)

Section NumeralSelection.

Import NewMiniGame.

Variable conf : Q.

(** The threshold loop keeps its result on scores below the threshold. *)
Lemma scan_templates_below idx scores best detected :
  (forall v, In v scores -> (v < conf)%Q) ->
  scan_templates conf idx scores best detected = (best, detected).
Proof.
  revert idx. induction scores as [|v rest IH]; intros idx Hlow; simpl.
  - reflexivity.
  - assert (E : Qle_bool conf v = false).
    { apply Qle_bool_false_iff. apply Hlow. left. reflexivity. }
    rewrite E. simpl. apply IH. intros w Hw. apply Hlow. right. exact Hw.
Qed.

(** [max] returns one of the items it is given. *)
Lemma max_by_score_In best items :
  max_by_score best items = best \/ In (max_by_score best items) items.
Proof.
  revert best. induction items as [|x rest IH]; intro best; simpl.
  - left. reflexivity.
  - destruct (IH (if Qlt_bool (snd best) (snd x) then x else best)) as [H|H].
    + rewrite H. destruct (Qlt_bool _ _); auto.
    + auto.
Qed.

Lemma all_scores_from_In idx scores p :
  In p (all_scores_from idx scores) -> In (snd p) scores /\ idx < fst p.
Proof.
  revert idx. induction scores as [|v rest IH]; intros idx Hp; simpl in *.
  - contradiction.
  - destruct Hp as [Hp|Hp].
    + subst p. simpl. split; [auto | lia].
    + apply IH in Hp. destruct Hp. split; [auto | lia].
Qed.

(** No score reaches the threshold or the floor: nothing is detected. *)
Lemma detected_number_none scores :
  (forall v, In v scores -> (v < conf)%Q /\ (v < floor_score)%Q) ->
  detected_number conf scores = 0.
Proof.
  intro Hlow. unfold detected_number, select_number.
  rewrite scan_templates_below by (intros v Hv; apply Hlow; exact Hv).
  simpl. destruct (all_scores_from 0 scores) as [|first rest] eqn:E.
  - reflexivity.
  - destruct (max_by_score first rest) as [best_idx best_val] eqn:EM.
    assert (Hin : In (best_idx, best_val) (all_scores_from 0 scores)).
    { rewrite E. destruct (max_by_score_In first rest) as [H|H];
        rewrite EM in H; [left; auto | right; exact H]. }
    apply all_scores_from_In in Hin. simpl in Hin.
    destruct (Hlow best_val (proj1 Hin)) as [_ Hfloor].
    apply Qle_bool_false_iff in Hfloor. rewrite Hfloor. reflexivity.
Qed.

End NumeralSelection.

Section StickyNumeral.

Import NewMiniGame.

Variable cfg : Config.

(** C4, as amended.  With no reset of the numeral pending
    ([number_reset_flag] not set), a stored numeral [n > 0] is kept by
    [_detect_number] on a frame where no template reaches the confidence
    threshold nor the floor 0.35. *)
Theorem numeral_kept_on_failed_frame_without_pending_reset
  (s : t) (scores : list Q) (n : Z) :
  number s = n -> 0 < n ->
  number_reset_flag s = false ->
  (forall v, In v scores -> (v < number_conf cfg)%Q /\ (v < floor_score)%Q) ->
  number (_detect_number cfg s scores) = n.
Proof.
  intros Hn _ Hflag Hlow. unfold _detect_number.
  rewrite (detected_number_none _ _ Hlow), Hflag. simpl. exact Hn.
Qed.

End StickyNumeral.

(** C4, as stated, fails while the one-shot reset set on [RESET -> FOUND]
    is pending: the stored numeral 2 is cleared by a frame on which no
    template reaches either threshold. *)
Lemma numeral_cleared_on_failed_frame_with_pending_reset :
  0 < NewMiniGame.number (NewMiniGame.mk NewMiniGame.FOUND 120 120 2 true)
  /\ (forall v, In v Sample.low_scores ->
        (v < NewMiniGame.number_conf Sample.mini_cfg)%Q
        /\ (v < NewMiniGame.floor_score)%Q)
  /\ NewMiniGame.number
       (NewMiniGame._detect_number Sample.mini_cfg
          (NewMiniGame.mk NewMiniGame.FOUND 120 120 2 true) Sample.low_scores)
     = 0.
Proof.
  split; [reflexivity|]. split; [|reflexivity].
  intros v Hv. simpl in Hv.
  destruct Hv as [Hv|[Hv|[Hv|[]]]]; subst v; split; reflexivity.
Qed.

Lemma numeral_kept_on_failed_frame_without_pending_reset_witness :
  NewMiniGame.number
    (NewMiniGame._detect_number Sample.mini_cfg
       (NewMiniGame.mk NewMiniGame.FOUND 120 120 2 false) Sample.low_scores)
  = 2.
Proof.
  apply (numeral_kept_on_failed_frame_without_pending_reset Sample.mini_cfg
           (NewMiniGame.mk NewMiniGame.FOUND 120 120 2 false) Sample.low_scores 2);
    [reflexivity | lia | reflexivity |].
  intros v Hv. simpl in Hv.
  destruct Hv as [Hv|[Hv|[Hv|[]]]]; subst v; split; reflexivity.
Defined.

Section SelectionPolicy.

Import NewMiniGame.

Variable conf : Q.

Lemma first_best_bound P scores d v :
  first_best P scores d v -> 1 <= d <= Z.of_nat (length scores).
Proof.
  intros (Hd & Hnth & _). split; [exact Hd|].
  assert (H : (Z.to_nat (d - 1) < length scores)%nat).
  { apply nth_error_Some. congruence. }
  lia.
Qed.

Lemma first_best_In P scores d v : first_best P scores d v -> In v scores /\ P v.
Proof.
  intros (_ & Hnth & HP & _). split; [|exact HP].
  eapply nth_error_In. exact Hnth.
Qed.

Lemma scanned_step seen best_score detected v :
  scanned conf seen best_score detected ->
  scanned conf (seen ++ [v])
    (if Qle_bool conf v && Qlt_bool best_score v then v else best_score)
    (if Qle_bool conf v && Qlt_bool best_score v
     then Z.of_nat (length seen) + 1 else detected).
Proof.
  intro Hinv.
  destruct (Qle_bool conf v && Qlt_bool best_score v) eqn:E.
  - (* the new score is taken *)
    apply andb_prop in E. destruct E as [Hc Hb].
    apply Qle_bool_iff in Hc. apply Qlt_bool_iff in Hb.
    right.
    assert (Hconf : confident conf v).
    { split; [exact Hc|]. destruct Hinv as [(_ & Hbest & _)|Hfb].
      - rewrite Hbest in Hb. exact Hb.
      - apply first_best_In in Hfb. destruct Hfb as [_ [_ Hlow]].
        eapply Qlt_trans; eassumption. }
    split; [lia|]. split.
    { replace (Z.to_nat (Z.of_nat (length seen) + 1 - 1)) with (length seen) by lia.
      rewrite nth_error_app2 by lia. rewrite Nat.sub_diag. reflexivity. }
    split; [exact Hconf|].
    intros j w Hj Hw.
    destruct (Nat.lt_ge_cases j (length seen)) as [Hlt|Hge].
    + rewrite nth_error_app1 in Hj by exact Hlt.
      destruct Hinv as [(_ & _ & Hnone)|Hfb].
      * exfalso. apply (Hnone w); [eapply nth_error_In; exact Hj | exact Hw].
      * destruct Hfb as (_ & _ & _ & Hmax).
        destruct (Hmax j w Hj Hw) as [Hle _].
        assert (Hwv : (w < v)%Q) by (eapply Qle_lt_trans; eassumption).
        split; [apply Qlt_le_weak; exact Hwv | intros _; exact Hwv].
    + rewrite nth_error_app2 in Hj by exact Hge.
      destruct (j - length seen)%nat as [|k] eqn:Ek; simpl in Hj.
      * injection Hj as <-. split; [apply Qle_refl | intro; lia].
      * destruct k; discriminate.
  - (* the new score is passed over *)
    destruct Hinv as [(Hd & Hbest & Hnone)|Hfb].
    + left. split; [exact Hd|]. split; [exact Hbest|].
      intros w Hw. apply in_app_or in Hw. destruct Hw as [Hw|[<-|[]]].
      * apply Hnone. exact Hw.
      * intros [Hc Hlow].
        apply Qle_bool_iff in Hc. rewrite Hc in E. simpl in E.
        rewrite Hbest in E.
        apply Qlt_bool_iff in Hlow. congruence.
    + right. pose proof (first_best_bound _ _ _ _ Hfb) as Hbound.
      destruct Hfb as (Hd & Hnth & HP & Hmax).
      split; [exact Hd|]. split.
      { rewrite nth_error_app1 by lia. exact Hnth. }
      split; [exact HP|].
      intros j w Hj Hw.
      destruct (Nat.lt_ge_cases j (length seen)) as [Hlt|Hge].
      * rewrite nth_error_app1 in Hj by exact Hlt. apply Hmax; assumption.
      * rewrite nth_error_app2 in Hj by exact Hge.
        destruct (j - length seen)%nat as [|k] eqn:Ek; simpl in Hj.
        -- injection Hj as <-. split; [|intro; lia].
           destruct Hw as [Hc _]. apply Qle_bool_iff in Hc.
           rewrite Hc in E. simpl in E.
           apply Qnot_lt_le. intro Hlt. apply Qlt_bool_iff in Hlt. congruence.
        -- destruct k; discriminate.
Qed.

Lemma scan_templates_scanned rest seen best_score detected :
  scanned conf seen best_score detected ->
  scanned conf (seen ++ rest)
    (fst (scan_templates conf (Z.of_nat (length seen)) rest best_score detected))
    (snd (scan_templates conf (Z.of_nat (length seen)) rest best_score detected)).
Proof.
  revert seen best_score detected.
  induction rest as [|v rest IH]; intros seen best_score detected Hinv.
  - simpl. rewrite app_nil_r. exact Hinv.
  - pose proof (scanned_step _ _ _ v Hinv) as Hstep.
    apply IH in Hstep. rewrite <- app_assoc in Hstep. simpl in Hstep.
    rewrite length_app in Hstep. simpl in Hstep.
    replace (Z.of_nat (length seen + 1)) with (Z.of_nat (length seen) + 1)
      in Hstep by lia.
    simpl. destruct (Qle_bool conf v && Qlt_bool best_score v); exact Hstep.
Qed.

(** The threshold loop over all the scores. *)
Lemma scan_templates_spec scores :
  scanned conf scores
    (fst (scan_templates conf 0 scores (-1 # 1) 0))
    (snd (scan_templates conf 0 scores (-1 # 1) 0)).
Proof.
  apply (scan_templates_scanned scores [] (-1 # 1) 0).
  left. split; [reflexivity|]. split; [reflexivity|]. intros v [].
Qed.

End SelectionPolicy.

Section Fallback.

Import NewMiniGame.

Lemma first_best_unique P scores d v d' v' :
  first_best P scores d v -> first_best P scores d' v' -> d = d' /\ v = v'.
Proof.
  intros (Hd & Hnth & HP & Hmax) (Hd' & Hnth' & HP' & Hmax').
  assert (E : d = d').
  { destruct (Z.lt_trichotomy d d') as [Hlt|[Heq|Hgt]]; [|exact Heq|]; exfalso.
    - destruct (Hmax' (Z.to_nat (d - 1)) v Hnth HP) as [_ Hs].
      destruct (Hmax (Z.to_nat (d' - 1)) v' Hnth' HP') as [Hl _].
      apply (Qlt_not_le v v'); [apply Hs; lia | exact Hl].
    - destruct (Hmax (Z.to_nat (d' - 1)) v' Hnth' HP') as [_ Hs].
      destruct (Hmax' (Z.to_nat (d - 1)) v Hnth HP) as [Hl _].
      apply (Qlt_not_le v' v); [apply Hs; lia | exact Hl]. }
  split; [exact E|]. subst d'. congruence.
Qed.

Lemma picked_step seen best v :
  first_best any_score seen (fst best) (snd best) ->
  let x := (Z.of_nat (length seen) + 1, v) in
  let best' := if Qlt_bool (snd best) (snd x) then x else best in
  first_best any_score (seen ++ [v]) (fst best') (snd best').
Proof.
  intros Hfb x best'. pose proof (first_best_bound _ _ _ _ Hfb) as Hbound.
  destruct Hfb as (Hd & Hnth & _ & Hmax).
  subst best' x. simpl. destruct (Qlt_bool (snd best) v) eqn:E; simpl.
  - apply Qlt_bool_iff in E. split; [lia|]. split.
    { replace (Z.to_nat (Z.of_nat (length seen) + 1 - 1)) with (length seen) by lia.
      rewrite nth_error_app2 by lia. rewrite Nat.sub_diag. reflexivity. }
    split; [exact I|]. intros j w Hj _.
    destruct (Nat.lt_ge_cases j (length seen)) as [Hlt|Hge].
    + rewrite nth_error_app1 in Hj by exact Hlt.
      destruct (Hmax j w Hj I) as [Hle _].
      assert (Hwv : (w < v)%Q) by (eapply Qle_lt_trans; eassumption).
      split; [apply Qlt_le_weak; exact Hwv | intros _; exact Hwv].
    + rewrite nth_error_app2 in Hj by exact Hge.
      destruct (j - length seen)%nat as [|k] eqn:Ek; simpl in Hj.
      * injection Hj as <-. split; [apply Qle_refl | intro; lia].
      * destruct k; discriminate.
  - split; [exact Hd|]. split.
    { rewrite nth_error_app1 by lia. exact Hnth. }
    split; [exact I|]. intros j w Hj _.
    destruct (Nat.lt_ge_cases j (length seen)) as [Hlt|Hge].
    + rewrite nth_error_app1 in Hj by exact Hlt. apply Hmax; [exact Hj | exact I].
    + rewrite nth_error_app2 in Hj by exact Hge.
      destruct (j - length seen)%nat as [|k] eqn:Ek; simpl in Hj.
      * injection Hj as <-. split; [|intro; lia].
        apply Qnot_lt_le. intro Hlt. apply Qlt_bool_iff in Hlt. congruence.
      * destruct k; discriminate.
Qed.

Lemma max_by_score_picked rest seen best :
  first_best any_score seen (fst best) (snd best) ->
  let r := max_by_score best (all_scores_from (Z.of_nat (length seen)) rest) in
  first_best any_score (seen ++ rest) (fst r) (snd r).
Proof.
  revert seen best. induction rest as [|v rest IH]; intros seen best Hfb; simpl.
  - rewrite app_nil_r. exact Hfb.
  - pose proof (picked_step _ _ v Hfb) as Hstep. simpl in Hstep.
    apply IH in Hstep. rewrite <- app_assoc in Hstep. simpl in Hstep.
    rewrite length_app in Hstep. simpl in Hstep.
    replace (Z.of_nat (length seen + 1)) with (Z.of_nat (length seen) + 1)
      in Hstep by lia.
    exact Hstep.
Qed.

(** [max(all_scores, key=...)] over a non-empty list of scores. *)
Lemma max_by_score_spec v0 rest :
  let r := max_by_score (1, v0) (all_scores_from 1 rest) in
  first_best any_score (v0 :: rest) (fst r) (snd r).
Proof.
  apply (max_by_score_picked rest [v0] (1, v0)).
  split; [simpl; lia|]. split; [reflexivity|]. split; [exact I|].
  intros [|[|j]] w Hj _; simpl in Hj; try discriminate.
  injection Hj as <-. simpl. split; [apply Qle_refl | intro; lia].
Qed.

(** With a threshold above -1 a confident score is one that reaches the
    threshold. *)
Lemma confident_iff conf v : (-1 < conf)%Q -> confident conf v <-> (conf <= v)%Q.
Proof.
  intro Hc. unfold confident. split; [tauto|]. intro Hv. split; [exact Hv|].
  eapply Qlt_le_trans; eassumption.
Qed.

(** The selection of [_detect_number], from the best match score of each
    template: the first numeral with the highest score among the scores
    that reach the confidence threshold and are above the initial best
    score -1; if no score does, the first numeral with the highest score of
    all exactly when that score is at least the floor, and otherwise
    nothing; without scores nothing is detected. *)
Lemma select_number_policy (conf : Q) (scores : list Q) :
  let d := detected_number conf scores in
  ((exists v, In v scores /\ confident conf v) ->
   exists v, first_best (confident conf) scores d v)
  /\
  ((forall v, In v scores -> ~ confident conf v) ->
   forall m v, first_best any_score scores m v ->
     ((floor_score <= v)%Q -> d = m) /\ ((v < floor_score)%Q -> d = 0))
  /\
  (scores = [] -> d = 0).
Proof.
  intro d. subst d. unfold detected_number, select_number.
  pose proof (scan_templates_spec conf scores) as Hscan.
  destruct (scan_templates conf 0 scores (-1 # 1) 0) as [best_score detected].
  simpl in Hscan. split; [|split].
  - intros (v & Hv & Hconf). destruct Hscan as [(_ & _ & Hnone)|Hfb].
    + exfalso. exact (Hnone v Hv Hconf).
    + pose proof (first_best_bound _ _ _ _ Hfb) as Hbound.
      assert (E : (detected =? 0) = false) by (apply Z.eqb_neq; lia).
      rewrite E. simpl. exists best_score. exact Hfb.
  - intros Hnone m v Hm. destruct Hscan as [(Hd & _ & _)|Hfb].
    + subst detected. simpl.
      destruct scores as [|v0 rest].
      { destruct Hm as (_ & Hnth & _). destruct (Z.to_nat (m - 1)); discriminate. }
      simpl. pose proof (max_by_score_spec v0 rest) as Hmax. simpl in Hmax.
      destruct (max_by_score (1, v0) (all_scores_from 1 rest)) as [best_idx best_val].
      simpl in Hmax.
      destruct (first_best_unique _ _ _ _ _ _ Hm Hmax) as [-> ->].
      destruct (Qle_bool floor_score best_val) eqn:E; simpl.
      * split; [reflexivity|]. intro Hlt. apply Qle_bool_iff in E.
        exfalso. exact (Qlt_not_le _ _ Hlt E).
      * split; [|reflexivity]. intro Hle. apply Qle_bool_iff in Hle. congruence.
    + exfalso. apply first_best_In in Hfb. destruct Hfb as [Hin Hconf].
      exact (Hnone _ Hin Hconf).
  - intros ->. simpl in *. destruct Hscan as [(Hd & _ & _)|Hfb].
    + subst detected. reflexivity.
    + apply first_best_bound in Hfb. simpl in Hfb. lia.
Qed.

(** The floor is the double [0x1.6666666666666p-2]. *)
Lemma floor_score_value :
  (floor_score == 3152519739159347 # 9007199254740992)%Q.
Proof. reflexivity. Qed.

(** No [float32] number equals the floor: the significand of the double
    0.35 has 52 bits. *)
Lemma float32_value_is_not_the_floor (v : Q) :
  float32_value v -> ~ (v == floor_score)%Q.
Proof.
  intros (m & a & b & Hm & Ha & Hb & Hv) Heq.
  rewrite Hv, floor_score_value in Heq. unfold Qeq in Heq.
  cbn [Qnum Qden] in Heq.
  assert (Hpow : forall n, 0 <= n -> 0 < 2 ^ n)
    by (intros n Hn; apply Z.pow_pos_nonneg; lia).
  rewrite Z2Pos.id in Heq by (apply Hpow; exact Hb).
  change (Z.pos 9007199254740992) with (2 ^ 53) in Heq.
  rewrite <- Z.mul_assoc, <- Z.pow_add_r in Heq by lia.
  destruct (Z_lt_le_dec b (a + 53)) as [Hlt|Hle].
  - replace (a + 53) with ((a + 53 - b - 1) + 1 + b) in Heq by lia.
    rewrite !Z.pow_add_r in Heq by lia.
    pose proof (Hpow b Hb) as Hb2.
    rewrite !Z.mul_assoc in Heq.
    apply Z.mul_cancel_r in Heq; [|lia].
    change (2 ^ 1) with 2 in Heq.
    set (x := m * 2 ^ (a + 53 - b - 1)) in Heq. lia.
  - pose proof (Hpow (a + 53) ltac:(lia)) as Hx.
    pose proof (Hpow (b - (a + 53)) ltac:(lia)) as Hy.
    assert (Hsplit : 2 ^ b = 2 ^ (b - (a + 53)) * 2 ^ (a + 53))
      by (rewrite <- Z.pow_add_r by lia; f_equal; lia).
    rewrite Hsplit, Z.mul_assoc in Heq.
    apply Z.mul_cancel_r in Heq; [|lia].
    change (2 ^ 24) with 16777216 in Hm. nia.
Qed.

(** A first best among the scores accepted by the threshold loop is a
    first best among the scores that reach the threshold: the other scores
    that reach it are at most -1. *)
Lemma first_best_confident_reaches conf scores d v :
  first_best (confident conf) scores d v -> first_best (reaches conf) scores d v.
Proof.
  intros (Hd & Hnth & [Hc Hv] & Hmax).
  split; [exact Hd|]. split; [exact Hnth|]. split; [exact Hc|].
  intros j w Hj Hw. destruct (Qlt_le_dec (-1) w) as [Hlt|Hle].
  - apply Hmax; [exact Hj | split; assumption].
  - assert (Hwv : (w < v)%Q) by (eapply Qle_lt_trans; eassumption).
    split; [apply Qlt_le_weak; exact Hwv | intros _; exact Hwv].
Qed.

(** C5.  From the best match score of each template (a list of [float32]
    numbers), [_detect_number] selects the numeral with the highest score
    among the scores that reach the confidence threshold, the first of them
    where several have it; if no score reaches the threshold, it selects
    the numeral with the highest score of all exactly when that score
    exceeds the floor 0.35, and otherwise detects nothing.  The threshold
    is above -1, the least score there is, or some score is. *)
Theorem numeral_selection_on_float32_scores (conf : Q) (scores : list Q) :
  (-1 < conf)%Q \/ (exists v, In v scores /\ (-1 < v)%Q) ->
  Forall float32_value scores ->
  let d := detected_number conf scores in
  ((exists v, In v scores /\ reaches conf v) ->
   exists v, first_best (reaches conf) scores d v)
  /\
  ((forall v, In v scores -> ~ reaches conf v) ->
   (scores <> [] -> exists m v, first_best any_score scores m v)
   /\
   forall m v, first_best any_score scores m v ->
     ((floor_score < v)%Q -> d = m) /\ (~ (floor_score < v)%Q -> d = 0))
  /\
  (scores = [] -> d = 0).
Proof.
  intros Hsane Hfloat d.
  destruct (select_number_policy conf scores) as (Hhigh & Hlow & Hnone).
  fold d in Hhigh, Hlow, Hnone.
  split; [|split].
  - intros (v & Hv & Hr). destruct Hhigh as (u & Hu).
    + destruct (Qlt_le_dec (-1) conf) as [Hc|Hc].
      * exists v. split; [exact Hv | apply confident_iff; assumption].
      * destruct Hsane as [Hc'|(v0 & Hv0 & Hpos)].
        { exfalso. exact (Qlt_not_le _ _ Hc' Hc). }
        exists v0. split; [exact Hv0|]. split; [|exact Hpos].
        apply Qlt_le_weak. eapply Qle_lt_trans; eassumption.
    + exists u. apply first_best_confident_reaches. exact Hu.
  - intro Hnot. split.
    + destruct scores as [|v0 rest]; [congruence|]. intros _.
      eexists. eexists. apply (max_by_score_spec v0 rest).
    + intros m v Hm.
      destruct (Hlow (fun u Hu Hc => Hnot u Hu (proj1 Hc)) m v Hm) as [Hsel Hno].
      split.
      * intro Hlt. apply Hsel. apply Qlt_le_weak. exact Hlt.
      * intro Hnlt. apply Hno. apply Qnot_lt_le in Hnlt.
        apply Qle_lt_or_eq in Hnlt. destruct Hnlt as [Hlt|Heq]; [exact Hlt|].
        exfalso. apply first_best_In in Hm. destruct Hm as [Hin _].
        rewrite Forall_forall in Hfloat.
        exact (float32_value_is_not_the_floor v (Hfloat v Hin) Heq).
  - exact Hnone.
Qed.

End Fallback.

(** ** Executions of the bar minigame *)

Section BarExecutions.

Import NewMiniGame.

Variable cfg : Config.

Lemma run_steady (s : t) (current_area : Z) (scores : list Q) :
  steady s -> 0 <= current_area ->
  steady (fst (fst (run cfg s current_area scores))).
Proof.
  intros Hs Ha. unfold run, transition, update_state.
  assert (Hst : state (sense cfg s current_area scores) = state s)
    by apply sense_state.
  assert (Hsa : starting_area (sense cfg s current_area scores) = starting_area s)
    by apply sense_starting_area.
  set (seen := sense cfg s current_area scores) in *. clearbody seen.
  rewrite Hst, Hsa. unfold steady in *.
  destruct Hs as [Hs|[Hs Hpos]]; rewrite Hs; simpl.
  - destruct (0 <? current_area) eqn:E; simpl.
    + unfold act. simpl. right. split; [reflexivity|]. apply Z.ltb_lt. exact E.
    + destruct (current_area =? 0) eqn:E0; unfold act; simpl; rewrite ?Hst, ?Hs;
        simpl; auto.
  - assert (E : (starting_area s =? 0) = false) by (apply Z.eqb_neq; lia).
    rewrite E. simpl. unfold act.
    repeat split_if; simpl; rewrite ?Hst, ?Hs, ?Hsa; auto;
      reflect_tests; simpl in *; try congruence; lia.
Qed.

(** X1.  In every execution from the initial state on frames of
    non-negative area, the machine rests in [RESET] or in [FOUND] with a
    positive starting area after each call of [run]: [INTERCEPTION] is left
    in the call that enters it. *)
Theorem executions_rest_in_reset_or_found (frames : list BarFrame) :
  Forall (fun f => 0 <= fst f) frames ->
  steady (fst (run_frames cfg init frames)).
Proof.
  assert (H : forall s, steady s -> Forall (fun f => 0 <= fst f) frames ->
                        steady (fst (run_frames cfg s frames))).
  { induction frames as [|[a scores] rest IH]; intros s Hs Hall; simpl.
    - exact Hs.
    - inversion Hall as [|? ? Ha Hrest]; subst. simpl in Ha.
      pose proof (run_steady s a scores Hs Ha) as Hstep.
      destruct (run cfg s a scores) as [[s1 keys] active]. simpl in Hstep.
      specialize (IH s1 Hstep Hrest).
      destruct (run_frames cfg s1 rest) as [s2 trace]. exact IH. }
  apply H. left. reflexivity.
Qed.

(** X2.  In [FOUND] with a recorded starting area the chain of [run] takes
    its first branch, so the branch that rebases [starting_area] on a grown
    area is never reached: [starting_area] is kept, whatever the area. *)
Theorem starting_area_is_never_rebased (s : t) (current_area : Z) (scores : list Q) :
  state s = FOUND -> starting_area s <> 0 ->
  starting_area (transition cfg s current_area scores) = starting_area s.
Proof.
  intros Hs Hsa. unfold transition, update_state.
  rewrite sense_state, sense_starting_area, Hs. simpl.
  apply Z.eqb_neq in Hsa. rewrite Hsa. simpl.
  repeat split_if; simpl; try apply sense_starting_area; reflexivity.
Qed.

End BarExecutions.

Lemma executions_rest_in_reset_or_found_witness :
  steady (fst (run_frames Sample.mini_cfg NewMiniGame.init
                 [(120, Sample.low_scores); (0, [])])).
Proof.
  apply (executions_rest_in_reset_or_found Sample.mini_cfg
           [(120, Sample.low_scores); (0, [])]).
  repeat constructor; simpl; lia.
Defined.

Lemma starting_area_is_never_rebased_witness :
  (NewMiniGame.new_area_diff Sample.mini_cfg <= NewMiniGame.ratio 200 120)%Q
  /\ NewMiniGame.starting_area
       (NewMiniGame.transition Sample.mini_cfg
          (NewMiniGame.mk NewMiniGame.FOUND 120 120 0 false) 200 Sample.low_scores)
     = 120.
Proof.
  split; [discriminate|].
  apply (starting_area_is_never_rebased Sample.mini_cfg
           (NewMiniGame.mk NewMiniGame.FOUND 120 120 0 false) 200 Sample.low_scores);
    [reflexivity | discriminate].
Defined.

(** A scenario: areas [0, 0, 120, 118, 40]
    with [compare_dif = 0.4] and numeral 2 legible on the last frame only.
    The chain reaches [RESET, RESET, FOUND, FOUND, INTERCEPTION]; the one
    key pressed is key 2, on the last frame, after which the machine is
    reset. *)
Theorem scenario_shrinking_bar :
  run_frames Sample.mini_cfg NewMiniGame.init
    [(0, Sample.low_scores); (0, Sample.low_scores); (120, Sample.low_scores);
     (118, Sample.low_scores); (40, [1 # 10; 9 # 10; 1 # 10])]
  = (NewMiniGame.mk NewMiniGame.RESET 0 0 0 false,
     [(NewMiniGame.RESET, [], false);
      (NewMiniGame.RESET, [], false);
      (NewMiniGame.FOUND, [], true);
      (NewMiniGame.FOUND, [], true);
      (NewMiniGame.INTERCEPTION, [KeyTap NewMiniGame.VK_2], true)]).
Proof. reflexivity. Qed.

(** ** More on the numeral recognizer and on [run] *)

Section BarReadings.

Import NewMiniGame.

Variable cfg : Config.

Lemma detected_number_bounds (conf : Q) (scores : list Q) :
  0 <= detected_number conf scores <= Z.of_nat (length scores).
Proof.
  unfold detected_number, select_number.
  pose proof (scan_templates_spec conf scores) as Hscan.
  destruct (scan_templates conf 0 scores (-1 # 1) 0) as [best_score detected].
  simpl in Hscan. destruct Hscan as [(Hd & _ & _)|Hfb].
  - subst detected. simpl. destruct scores as [|v0 rest]; [simpl; lia|].
    cbn [all_scores_from]. change (0 + 1) with 1.
    pose proof (max_by_score_spec v0 rest) as Hmax. simpl in Hmax.
    destruct (max_by_score (1, v0) (all_scores_from 1 rest)) as [best_idx best_val].
    simpl in Hmax. apply first_best_bound in Hmax.
    destruct (Qle_bool floor_score best_val); cbn [snd]; lia.
  - pose proof (first_best_bound _ _ _ _ Hfb) as Hbound.
    assert (E : (detected =? 0) = false) by (apply Z.eqb_neq; lia).
    rewrite E. simpl. lia.
Qed.

(** X5.  The numeral [_detect_number] selects is 0 (none) or the position,
    counted from 1, of one of the templates, and then the score of that
    template reaches the confidence threshold or the floor 0.35: a numeral
    whose own score is below both is never selected. *)
Theorem detected_number_in_range (conf : Q) (scores : list Q) :
  0 <= detected_number conf scores <= Z.of_nat (length scores)
  /\ (detected_number conf scores <> 0 ->
      exists v,
        nth_error scores (Z.to_nat (detected_number conf scores - 1)) = Some v
        /\ ((conf <= v)%Q \/ (floor_score <= v)%Q)).
Proof.
  split; [apply detected_number_bounds|].
  unfold detected_number, select_number.
  pose proof (scan_templates_spec conf scores) as Hscan.
  destruct (scan_templates conf 0 scores (-1 # 1) 0) as [best_score detected].
  simpl in Hscan. destruct Hscan as [(Hd & _ & _)|Hfb].
  - subst detected. simpl. destruct scores as [|v0 rest]; [simpl; congruence|].
    cbn [all_scores_from]. change (0 + 1) with 1.
    pose proof (max_by_score_spec v0 rest) as Hmax. simpl in Hmax.
    destruct (max_by_score (1, v0) (all_scores_from 1 rest)) as [best_idx best_val].
    simpl in Hmax. destruct Hmax as (_ & Hnth & _).
    destruct (Qle_bool floor_score best_val) eqn:E; cbn [snd]; [|congruence].
    intros _. exists best_val. split; [exact Hnth|].
    right. apply Qle_bool_iff. exact E.
  - pose proof (first_best_bound _ _ _ _ Hfb) as Hbound.
    assert (E : (detected =? 0) = false) by (apply Z.eqb_neq; lia).
    rewrite E. cbn [snd]. intros _.
    destruct Hfb as (_ & Hnth & (Hc & _) & _).
    exists best_score. split; [exact Hnth | left; exact Hc].
Qed.

Lemma sense_number_range (N : Z) (s : t) (current_area : Z) (scores : list Q) :
  0 <= number s <= N -> Z.of_nat (length scores) <= N ->
  0 <= number (sense cfg s current_area scores) <= N.
Proof.
  intros Hn Hlen. unfold sense. destruct (0 <? current_area); [|exact Hn].
  unfold _detect_number. simpl.
  pose proof (detected_number_bounds (number_conf cfg) scores) as Hd.
  destruct (detected_number (number_conf cfg) scores =? 0);
    [destruct (number_reset_flag s)|]; lia.
Qed.

Lemma run_number_range (N : Z) (s : t) (current_area : Z) (scores : list Q) :
  0 <= number s <= N -> Z.of_nat (length scores) <= N ->
  0 <= number (transition cfg s current_area scores) <= N
  /\ 0 <= number (fst (fst (run cfg s current_area scores))) <= N.
Proof.
  intros Hn Hlen.
  pose proof (sense_number_range N s current_area scores Hn Hlen) as Hseen.
  assert (Ht : 0 <= number (transition cfg s current_area scores) <= N).
  { unfold transition.
    destruct (update_state_number cfg (sense cfg s current_area scores) current_area)
      as [E|E]; rewrite E; lia. }
  split; [exact Ht|]. unfold run, act.
  destruct (State_eqb _ _ && _); cbn [fst snd number]; lia.
Qed.

Lemma run_keys_three (s : t) (current_area : Z) (scores : list Q) :
  0 <= number s <= 3 -> Z.of_nat (length scores) <= 3 ->
  Forall numeral_key (snd (fst (run cfg s current_area scores))).
Proof.
  intros Hn Hlen.
  destruct (run_number_range 3 s current_area scores Hn Hlen) as [Ht _].
  unfold run, act.
  destruct (State_eqb _ _ && negb (number (transition cfg s current_area scores) =? 0))
    eqn:E; cbn [fst snd]; [|constructor].
  apply andb_prop in E. destruct E as [_ E].
  apply negb_true_iff, Z.eqb_neq in E.
  constructor; [|constructor]. unfold numeral_key.
  assert (H : number (transition cfg s current_area scores) = 1
              \/ number (transition cfg s current_area scores) = 2
              \/ number (transition cfg s current_area scores) = 3) by lia.
  destruct H as [H|[H|H]]; rewrite H;
    [left | right; left | right; right]; reflexivity.
Qed.

(** X6.  With three numeral templates (at most three scores per frame), in
    every execution from the initial state the stored numeral stays within
    0..3 and every key pressed is key 1, 2 or 3: the clamp of the key index
    never acts and the fourth key is never pressed. *)
Theorem executions_press_keys_one_to_three (frames : list BarFrame) :
  Forall (fun f => (length (snd f) <= 3)%nat) frames ->
  0 <= number (fst (run_frames cfg init frames)) <= 3
  /\ Forall (fun e => Forall numeral_key (snd (fst e)))
            (snd (run_frames cfg init frames)).
Proof.
  assert (H : forall s, 0 <= number s <= 3 ->
                        Forall (fun f => (length (snd f) <= 3)%nat) frames ->
                        0 <= number (fst (run_frames cfg s frames)) <= 3
                        /\ Forall (fun e => Forall numeral_key (snd (fst e)))
                                  (snd (run_frames cfg s frames))).
  { induction frames as [|[a scores] rest IH]; intros s Hs Hall; simpl.
    - split; [exact Hs | constructor].
    - inversion Hall as [|? ? Hlen Hrest]; subst. simpl in Hlen.
      assert (Hlen' : Z.of_nat (length scores) <= 3) by lia.
      pose proof (run_keys_three s a scores Hs Hlen') as Hkeys.
      destruct (run_number_range 3 s a scores Hs Hlen') as [_ Hnum].
      destruct (run cfg s a scores) as [[s1 keys] active]. simpl in Hkeys, Hnum.
      destruct (IH s1 Hnum Hrest) as [Hfinal Htrace].
      destruct (run_frames cfg s1 rest) as [s2 trace]. simpl in *.
      split; [exact Hfinal|]. constructor; [exact Hkeys | exact Htrace]. }
  apply H. simpl. lia.
Qed.

End BarReadings.

Section BarRounds.

Import NewMiniGame.

Variable cfg : Config.

(** X7.  A step in [FOUND] with a recorded starting area on a frame whose
    area over the starting area is at most [compare_dif], with a positive
    numeral stored once the frame was read, presses the key of that numeral
    and resets the machine in the same call. *)
Theorem shrunk_bar_with_numeral_fires
  (s : t) (current_area : Z) (scores : list Q) (n : Z) :
  state s = FOUND -> starting_area s <> 0 ->
  (ratio current_area (starting_area s) <= compare_dif cfg)%Q ->
  number (sense cfg s current_area scores) = n -> 0 < n ->
  run cfg s current_area scores
  = (mk RESET 0 0 0 false,
     [KeyTap (nth (Z.to_nat (Z.max 0 (Z.min 3 (n - 1)))) vk_keys 0)], true).
Proof.
  intros Hs Hsa Hratio Hn Hpos. unfold run, transition, update_state.
  rewrite sense_state, sense_starting_area, Hs, Hn. simpl.
  apply Z.eqb_neq in Hsa. rewrite Hsa. simpl.
  apply Qle_bool_iff in Hratio. rewrite Hratio.
  assert (E : (0 <? n) = true) by (apply Z.ltb_lt; exact Hpos).
  rewrite E. unfold act. simpl.
  assert (E0 : (n =? 0) = false) by (apply Z.eqb_neq; lia).
  rewrite E0. reflexivity.
Qed.

(** X8.  [run] reports the bar as active exactly when it pressed a key or
    left the machine outside [RESET]; a key is pressed only in a call that
    leaves the machine reset, and never more than one. *)
Theorem run_reports_activity (s : t) (current_area : Z) (scores : list Q) :
  let r := run cfg s current_area scores in
  (snd r = false <-> snd (fst r) = [] /\ state (fst (fst r)) = RESET)
  /\ (snd (fst r) <> [] ->
      state (fst (fst r)) = RESET /\ number (fst (fst r)) = 0
      /\ starting_area (fst (fst r)) = 0 /\ length (snd (fst r)) = 1%nat).
Proof.
  unfold run, act.
  destruct (State_eqb _ INTERCEPTION && _) eqn:E; cbn [fst snd].
  - split.
    + split; [discriminate | intros [H _]; discriminate].
    + intros _. simpl. auto.
  - split.
    + destruct (State_eqb (state (transition cfg s current_area scores)) RESET) eqn:ER.
      * apply State_eqb_eq in ER. simpl. split; auto.
      * apply State_eqb_neq in ER. simpl. split; [discriminate|].
        intros [_ H]. contradiction.
    + intro H. contradiction.
Qed.

(** X9.  While the machine is in [FOUND] with a recorded starting area and
    no numeral, frames without area change nothing but [prev_area], however
    many there are: no numeral can be read, the machine stays in [FOUND],
    no key is pressed, and every call reports the bar as active. *)
Theorem found_without_numeral_outlasts_empty_frames
  (s : t) (frames : list BarFrame) :
  state s = FOUND -> starting_area s <> 0 -> number s = 0 ->
  Forall (fun f => fst f = 0) frames ->
  let r := run_frames cfg s frames in
  state (fst r) = FOUND
  /\ starting_area (fst r) = starting_area s
  /\ number (fst r) = 0
  /\ Forall (fun e => e = (FOUND, [], true)) (snd r).
Proof.
  revert s. induction frames as [|[a scores] rest IH]; intros s Hs Hsa Hn Hall.
  - simpl. repeat split; auto.
  - inversion Hall as [|? ? Ha Hrest]; subst. simpl in Ha. subst a.
    cbn [run_frames].
    assert (Ht : transition cfg s 0 scores
                 = mk FOUND (starting_area s) 0 0 (number_reset_flag s)).
    { unfold transition. rewrite sense_no_area by lia.
      unfold update_state. rewrite Hs. simpl.
      apply Z.eqb_neq in Hsa. rewrite Hsa, Hn. simpl.
      destruct (Qle_bool _ _); simpl; rewrite Hs, Hn; reflexivity. }
    unfold run. rewrite Ht. unfold act. cbn [state number State_eqb andb fst snd negb].
    specialize (IH (mk FOUND (starting_area s) 0 0 (number_reset_flag s))
                   eq_refl Hsa eq_refl Hrest).
    destruct (run_frames cfg _ rest) as [s2 trace]. simpl in IH |- *.
    destruct IH as (H1 & H2 & H3 & H4). repeat split; auto.
Qed.

(** X10.  The numeral read on the frame that takes the machine from
    [RESET] to [FOUND] is dropped at the next frame that shows the bar: after
    that frame is read, the stored numeral is the one detected on it, or 0
    if none was, and the pending reset is cleared. *)
Theorem numeral_of_new_round_is_read_afresh
  (s : t) (area1 area2 : Z) (scores1 scores2 : list Q) :
  state s = RESET -> 0 < area1 -> 0 < area2 ->
  let s1 := fst (fst (run cfg s area1 scores1)) in
  state s1 = FOUND /\ starting_area s1 = area1 /\ number_reset_flag s1 = true
  /\ number (sense cfg s1 area2 scores2)
     = detected_number (number_conf cfg) scores2
  /\ number_reset_flag (sense cfg s1 area2 scores2) = false.
Proof.
  intros Hs H1 H2 s1.
  assert (E1 : (0 <? area1) = true) by (apply Z.ltb_lt; exact H1).
  assert (E2 : (0 <? area2) = true) by (apply Z.ltb_lt; exact H2).
  assert (Hs1 : state s1 = FOUND /\ starting_area s1 = area1
                /\ number_reset_flag s1 = true).
  { subst s1. unfold run, transition, update_state.
    rewrite sense_state, Hs, E1. simpl. auto. }
  destruct Hs1 as (Ha & Hb & Hc). repeat split; auto.
  - unfold sense. rewrite E2. unfold _detect_number. rewrite Hc. simpl.
    destruct (detected_number (number_conf cfg) scores2 =? 0) eqn:E;
      [apply Z.eqb_eq in E; congruence | reflexivity].
  - unfold sense. rewrite E2. reflexivity.
Qed.

End BarRounds.

(** ** The box tracker *)

Lemma color_eqb_eq (a b : Color) : color_eqb a b = true <-> a = b.
Proof.
  destruct a as [[a1 a2] a3], b as [[b1 b2] b3]. simpl.
  rewrite !andb_true_iff, !Z.eqb_eq. split.
  - intros [[-> ->] ->]. reflexivity.
  - intro H. injection H as -> -> ->. auto.
Qed.

Lemma color_eqb_neq (a b : Color) : color_eqb a b = false <-> a <> b.
Proof.
  rewrite <- color_eqb_eq. destruct (color_eqb a b); split; congruence.
Qed.

Section BoxTracker.

Import FivemAutoFish.

Variable cfg : Config.
Variable frame : Image.

(** Refreshing the position of a record keeps every colour signature. *)
Lemma refresh_slot_color s slot new_center new_bounds d :
  slot_color (refresh s slot new_center new_bounds) d = slot_color s d.
Proof.
  unfold refresh, slot_color, _get_box_by_digit, _set_box_by_digit.
  destruct s as [m r1 r2 r3 went last]. simpl.
  destruct (slot =? 1); [|destruct (slot =? 2); [|destruct (slot =? 3)]].
  - destruct r1; simpl; [|reflexivity]. destruct (d =? 1); reflexivity.
  - destruct r2; simpl; [|reflexivity].
    destruct (d =? 1); [reflexivity|]. destruct (d =? 2); reflexivity.
  - destruct r3; simpl; [|reflexivity].
    destruct (d =? 1); [reflexivity|]. destruct (d =? 2); [reflexivity|].
    destruct (d =? 3); reflexivity.
  - reflexivity.
Qed.

(** One candidate of the loop of [_handle_boxes]. *)
Lemma scan_box_spec st b :
  success_count (scan_box cfg frame st b)
  = success_count st + (if succeeded cfg frame b then 1 else 0)
  /\ clickable (scan_box cfg frame st b)
     = clickable st || negb (succeeded cfg frame b)
  /\ forall d, slot_color (self (scan_box cfg frame st b)) d = slot_color (self st) d.
Proof.
  destruct b as [[[x y] w] h]. unfold scan_box, succeeded, box_color.
  destruct (color_eqb _ (cs_success_color cfg)); simpl.
  - rewrite orb_false_r. repeat split; reflexivity.
  - rewrite orb_true_r, Z.add_0_r.
    destruct (_find_matching_box _ _); simpl; repeat split; try reflexivity.
    intro d. apply refresh_slot_color.
Qed.

Lemma fold_scan_box_spec boxes st :
  let st' := fold_left (scan_box cfg frame) boxes st in
  success_count st' = success_count st + count_succeeded cfg frame boxes
  /\ clickable st' = clickable st || has_live cfg frame boxes
  /\ forall d, slot_color (self st') d = slot_color (self st) d.
Proof.
  revert st. induction boxes as [|b rest IH]; intro st; simpl.
  - unfold count_succeeded. simpl. rewrite Z.add_0_r, orb_false_r. auto.
  - destruct (IH (scan_box cfg frame st b)) as (Hc & Hl & Hs).
    destruct (scan_box_spec st b) as (Hc1 & Hl1 & Hs1).
    rewrite Hc, Hl, Hc1, Hl1. unfold count_succeeded, has_live. simpl.
    split; [|split].
    + destruct (succeeded cfg frame b); simpl; lia.
    + rewrite orb_assoc. reflexivity.
    + intro d. rewrite Hs. apply Hs1.
Qed.

(** The loop of [_handle_boxes]: it counts the success-coloured candidates,
    notes whether a live one exists, and keeps the colour signature of every
    slot. *)
Lemma scan_boxes_spec s boxes :
  let st := scan_boxes cfg s boxes frame in
  success_count st = count_succeeded cfg frame boxes
  /\ clickable st = has_live cfg frame boxes
  /\ forall d, slot_color (self st) d = slot_color s d.
Proof.
  unfold scan_boxes.
  destruct (fold_scan_box_spec boxes (mkScan s 0 false)) as (Hc & Hl & Hs).
  simpl in *. auto.
Qed.

Lemma target_of_slot s k :
  0 <= k <= 2 -> target_of s k = _get_box_by_digit s (k + 1).
Proof.
  intro Hk. unfold target_of, _get_box_by_digit.
  assert (H : k = 0 \/ k = 1 \/ k = 2) by lia.
  destruct H as [H|[H|H]]; subst k; reflexivity.
Qed.

Lemma target_of_none s k : 3 <= k -> target_of s k = None.
Proof.
  intro Hk. unfold target_of.
  destruct (k =? 0) eqn:E0; [apply Z.eqb_eq in E0; lia|].
  destruct (k =? 1) eqn:E1; [apply Z.eqb_eq in E1; lia|].
  destruct (k =? 2) eqn:E2; [apply Z.eqb_eq in E2; lia|].
  reflexivity.
Qed.

(** C6.  In a cycle with at least one live candidate, the click target is
    the record of slot 1, 2 or 3 when 0, 1 or 2 candidates are
    success-coloured.  If that slot holds a record (as it is after the
    positions were refreshed in this cycle; the slots that hold a record,
    and their colours, are those held before), exactly one click is issued,
    at the centre of the record translated by [(region.left, region.top)],
    and the cycle reports an action; if the slot is empty no click is issued
    and no action is reported. *)
Theorem click_target_follows_success_count (s : t) (boxes : list Box) (k : Z) :
  has_live cfg frame boxes = true ->
  count_succeeded cfg frame boxes = k ->
  0 <= k <= 2 ->
  let r := _handle_boxes cfg s boxes frame in
  let s' := fst (fst r) in
  slot_color s' (k + 1) = slot_color s (k + 1)
  /\ match _get_box_by_digit s' (k + 1) with
     | Some record =>
         snd (fst r)
         = [Click (Region.left (region cfg) + fst (center record))
                  (Region.top (region cfg) + snd (center record))]
         /\ snd r = true
     | None => snd (fst r) = [] /\ snd r = false
     end.
Proof.
  intros Hlive Hcount Hk r s'. subst r s'. unfold _handle_boxes.
  destruct (scan_boxes_spec s boxes) as (Hc & Hl & Hs).
  rewrite Hl, Hlive, Hc, Hcount. simpl.
  rewrite (target_of_slot _ k Hk).
  destruct (_get_box_by_digit (self (scan_boxes cfg s boxes frame)) (k + 1))
    as [record|] eqn:E; simpl; rewrite E; split; auto.
Qed.

(** C10.  With three or more success-coloured candidates the cycle issues
    no click and reports no action, whatever live candidates and cached
    records exist. *)
Theorem no_target_beyond_two_successes (s : t) (boxes : list Box) :
  3 <= count_succeeded cfg frame boxes ->
  snd (fst (_handle_boxes cfg s boxes frame)) = []
  /\ snd (_handle_boxes cfg s boxes frame) = false.
Proof.
  intro Hk. unfold _handle_boxes.
  destruct (scan_boxes_spec s boxes) as (Hc & _ & _).
  rewrite Hc, (target_of_none _ _ Hk).
  destruct (negb _); auto.
Qed.

(** C8, as amended.  Three candidates with dominant colours [C1; C2; C1],
    [C1] the success colour and [C2] another colour: both candidates of
    colour [C1] count, [success_count = 2], and the live candidate makes
    slot 3 the click target. *)
Theorem two_success_boxes_count_twice (s : t) (b1 b2 b3 : Box) (C1 C2 : Color) :
  box_color frame b1 = C1 -> box_color frame b2 = C2 -> box_color frame b3 = C1 ->
  C1 = cs_success_color cfg -> C2 <> C1 ->
  let st := scan_boxes cfg s [b1; b2; b3] frame in
  success_count st = 2
  /\ clickable st = true
  /\ target_of (self st) (success_count st) = _get_box_by_digit (self st) 3
  /\ match _get_box_by_digit (self st) 3 with
     | Some record => _handle_boxes cfg s [b1; b2; b3] frame
                      = (self st, click_box cfg record, true)
     | None => _handle_boxes cfg s [b1; b2; b3] frame = (self st, [], false)
     end.
Proof.
  intros H1 H2 H3 HC Hne st.
  destruct (scan_boxes_spec s [b1; b2; b3]) as (Hc & Hl & _). fold st in Hc, Hl.
  assert (E1 : succeeded cfg frame b1 = true).
  { unfold succeeded. apply color_eqb_eq. congruence. }
  assert (E3 : succeeded cfg frame b3 = true).
  { unfold succeeded. apply color_eqb_eq. congruence. }
  assert (E2 : succeeded cfg frame b2 = false).
  { unfold succeeded. apply color_eqb_neq. congruence. }
  unfold count_succeeded, has_live in Hc, Hl. simpl in Hc, Hl.
  rewrite E1, E2, E3 in Hc, Hl. simpl in Hc, Hl.
  assert (Ht : target_of (self st) (success_count st) = _get_box_by_digit (self st) 3).
  { rewrite Hc. reflexivity. }
  split; [exact Hc|]. split; [exact Hl|]. split; [exact Ht|].
  unfold _handle_boxes. fold st. rewrite Hl, Ht. simpl.
  destruct (_get_box_by_digit (self st) 3); reflexivity.
Qed.

Lemma _find_matching_box_by_slot_color s s' c :
  (forall d, slot_color s d = slot_color s' d) ->
  _find_matching_box s c = _find_matching_box s' c.
Proof.
  intro H. unfold _find_matching_box.
  assert (E : forall r r' : option BoxRecord,
             option_map color r = option_map color r' ->
             has_color c r = has_color c r').
  { intros [r|] [r'|]; simpl; intro Hr; try discriminate; [|reflexivity].
    injection Hr as ->. reflexivity. }
  rewrite (E (BoxNumber1 s) (BoxNumber1 s') (H 1)).
  rewrite (E (BoxNumber2 s) (BoxNumber2 s') (H 2)).
  rewrite (E (BoxNumber3 s) (BoxNumber3 s') (H 3)).
  reflexivity.
Qed.

(** X4.  Matching by colour is stable along the loop of [_handle_boxes]:
    after any candidates were scanned, a colour is matched to the record of
    the same slot as before, so that two candidates of one cycle with the
    same dominant colour resolve to the same tracked record. *)
Theorem same_colour_resolves_to_same_record (s : t) (boxes : list Box) (c : Color) :
  _find_matching_box (self (scan_boxes cfg s boxes frame)) c
  = _find_matching_box s c.
Proof.
  apply _find_matching_box_by_slot_color.
  apply (scan_boxes_spec s boxes).
Qed.

End BoxTracker.

(** ** The dominant colour of a region *)

Section DominantColour.

Import FivemAutoFish.

Lemma color_ltb_spec (a b : Color) :
  color_ltb a b = true <->
  (fst (fst a) < fst (fst b)
   \/ (fst (fst a) = fst (fst b)
       /\ (snd (fst a) < snd (fst b)
           \/ (snd (fst a) = snd (fst b) /\ snd a < snd b)))).
Proof.
  destruct a as [[a1 a2] a3], b as [[b1 b2] b3]. simpl.
  rewrite !orb_true_iff, !andb_true_iff, !orb_true_iff, !andb_true_iff,
    !Z.ltb_lt, !Z.eqb_eq. tauto.
Qed.

Lemma color_lt_trans (a b c : Color) : color_lt a b -> color_lt b c -> color_lt a c.
Proof. unfold color_lt. rewrite !color_ltb_spec. lia. Qed.

Lemma color_lt_irrefl (a : Color) : ~ color_lt a a.
Proof. unfold color_lt. rewrite color_ltb_spec. lia. Qed.

Lemma color_trichotomy (a b : Color) : color_lt a b \/ a = b \/ color_lt b a.
Proof.
  unfold color_lt. rewrite !color_ltb_spec.
  destruct a as [[a1 a2] a3], b as [[b1 b2] b3]. simpl.
  assert (H : a1 < b1 \/ b1 < a1
              \/ (a1 = b1 /\ (a2 < b2 \/ b2 < a2
                              \/ (a2 = b2 /\ (a3 < b3 \/ b3 < a3 \/ a3 = b3)))))
    by lia.
  destruct H as [H|[H|(-> & [H|[H|(-> & [H|[H| ->]])]])]]; auto 10.
Qed.

Lemma insert_color_In (c : Color) (colors : list Color) (x : Color) :
  In x (insert_color c colors) <-> x = c \/ In x colors.
Proof.
  induction colors as [|d rest IH]; simpl.
  - split; [intros [H|[]]; auto | intros [H|[]]; auto].
  - destruct (color_ltb c d); simpl; [split; intros [H|H]; auto; tauto|].
    destruct (color_eqb c d) eqn:E; simpl.
    + apply color_eqb_eq in E. subst d. split; [auto | intros [->|H]; auto].
    + rewrite IH. tauto.
Qed.

Lemma insert_color_increasing (c : Color) (colors : list Color) :
  increasing colors -> increasing (insert_color c colors).
Proof.
  unfold increasing. induction colors as [|d rest IH]; intro Hs; simpl.
  - constructor; constructor.
  - inversion Hs as [|? ? Hrest Hd]; subst.
    destruct (color_ltb c d) eqn:E1.
    + constructor; [exact Hs|]. constructor; [exact E1|].
      eapply Forall_impl; [|exact Hd]. intros x Hx.
      eapply color_lt_trans; [exact E1 | exact Hx].
    + destruct (color_eqb c d) eqn:E2; [exact Hs|].
      assert (Hdc : color_lt d c).
      { destruct (color_trichotomy c d) as [H|[H|H]]; [| |exact H].
        - unfold color_lt in H. congruence.
        - apply color_eqb_neq in E2. contradiction. }
      constructor; [apply IH; exact Hrest|].
      apply Forall_forall. intros x Hx. apply insert_color_In in Hx.
      destruct Hx as [->|Hx]; [exact Hdc|].
      rewrite Forall_forall in Hd. apply Hd. exact Hx.
Qed.

Lemma unique_colors_In (pixels : list Color) (x : Color) :
  In x (unique_colors pixels) <-> In x pixels.
Proof.
  induction pixels as [|p rest IH]; simpl; [tauto|].
  rewrite insert_color_In, IH. split; intros [H|H]; auto.
Qed.

Lemma unique_colors_increasing (pixels : list Color) :
  increasing (unique_colors pixels).
Proof.
  induction pixels as [|p rest IH]; simpl.
  - constructor.
  - apply insert_color_increasing. exact IH.
Qed.

Lemma count_color_In (c : Color) (pixels : list Color) :
  In c pixels <-> (0 < count_color c pixels)%nat.
Proof.
  unfold count_color. induction pixels as [|p rest IH]; simpl.
  - split; [contradiction | lia].
  - destruct (color_eqb c p) eqn:E; simpl.
    + apply color_eqb_eq in E. split; [lia | auto].
    + apply color_eqb_neq in E. rewrite <- IH.
      split; [intros [H|H]; [congruence | exact H] | auto].
Qed.

(** [argmax] over the counts of colours in increasing order. *)
Lemma argmax_count_spec (f : Color -> nat) (colors seen : list Color) (best : Color) :
  In best seen ->
  (forall c, In c seen ->
             (f c <= f best)%nat /\ (f c = f best -> best = c \/ color_lt best c)) ->
  increasing (best :: colors) ->
  let r := argmax_count (best, f best) (map (fun c => (c, f c)) colors) in
  In r (seen ++ colors)
  /\ forall c, In c (seen ++ colors) ->
               (f c <= f r)%nat /\ (f c = f r -> r = c \/ color_lt r c).
Proof.
  revert seen best. induction colors as [|x rest IH]; intros seen best Hin Hseen Hs.
  - simpl. rewrite app_nil_r. auto.
  - inversion Hs as [|? ? Hrest Hbest]; subst.
    inversion Hrest as [|? ? Hrest' Hx]; subst.
    inversion Hbest as [|? ? Hbx Hbrest]; subst.
    cbn [map argmax_count snd].
    replace (seen ++ x :: rest) with ((seen ++ [x]) ++ rest)
      by (rewrite <- app_assoc; reflexivity).
    destruct (f best <? f x)%nat eqn:E.
    + apply Nat.ltb_lt in E. apply (IH (seen ++ [x]) x).
      * apply in_or_app. right. left. reflexivity.
      * intros c Hc. apply in_app_or in Hc. destruct Hc as [Hc|[<-|[]]].
        -- destruct (Hseen c Hc) as [Hle _]. split; [lia | intro; lia].
        -- split; [lia | auto].
      * exact Hrest.
    + apply Nat.ltb_ge in E. apply (IH (seen ++ [x]) best).
      * apply in_or_app. left. exact Hin.
      * intros c Hc. apply in_app_or in Hc. destruct Hc as [Hc|[<-|[]]].
        -- apply Hseen. exact Hc.
        -- split; [exact E | intros _; right; exact Hbx].
      * constructor; [exact Hrest' | exact Hbrest].
Qed.

Lemma most_common_spec (pixels : list Color) :
  pixels <> [] ->
  let r := most_common pixels in
  In r pixels
  /\ forall c, (count_color c pixels <= count_color r pixels)%nat
               /\ (count_color c pixels = count_color r pixels ->
                   r = c \/ color_lt r c).
Proof.
  intros Hne r. subst r. unfold most_common.
  pose proof (unique_colors_increasing pixels) as Hs.
  pose proof (unique_colors_In pixels) as Hin.
  destruct (unique_colors pixels) as [|first rest] eqn:E.
  - exfalso. destruct pixels as [|p ps]; [congruence|].
    apply (proj2 (Hin p)). left. reflexivity.
  - cbn [map].
    destruct (argmax_count_spec (fun c => count_color c pixels) rest [first] first)
      as [Hr Hmax].
    + left. reflexivity.
    + intros c [<-|[]]. split; [lia | auto].
    + exact Hs.
    + simpl in Hr, Hmax. split; [apply Hin; exact Hr|].
      intro c. destruct (count_color c pixels) as [|n] eqn:Ec.
      * assert (Hpos : (0 < count_color
                          (argmax_count (first, count_color first pixels)
                             (map (fun c0 => (c0, count_color c0 pixels)) rest))
                          pixels)%nat).
        { apply count_color_In. apply Hin. exact Hr. }
        split; [lia | intro; lia].
      * rewrite <- Ec. apply Hmax. apply Hin. apply count_color_In. lia.
Qed.

(** X12.  [most_common_rgb_in_region] returns [(0, 0, 0)] for an empty
    region (also one that lies outside the image); otherwise it returns a
    colour of the region that no colour of the region outnumbers, and which
    is the least, in the order of [np.unique], of the colours occurring as
    often. *)
Theorem dominant_colour_is_most_frequent
  (image_array : Image) (x1 y1 x2 y2 : Z) :
  let pixels := region_pixels image_array x1 y1 x2 y2 in
  let r := most_common_rgb_in_region image_array x1 y1 x2 y2 in
  (pixels = [] -> r = (0, 0, 0))
  /\ (pixels <> [] ->
      In r pixels
      /\ forall c, (count_color c pixels <= count_color r pixels)%nat
                   /\ (count_color c pixels = count_color r pixels ->
                       r = c \/ color_lt r c)).
Proof.
  intros pixels r. subst r. unfold most_common_rgb_in_region.
  fold (region_pixels image_array x1 y1 x2 y2). fold pixels. split.
  - intros ->. reflexivity.
  - apply most_common_spec.
Qed.

End DominantColour.

(** ** The three slots *)

Section Slots.

Import FivemAutoFish.

Variable cfg : Config.
Variable frame : Image.

(** X13.  Storing a record under digit 1, 2 or 3 and reading that digit
    gives the record back and leaves the other two slots as they were;
    storing under any other digit changes nothing, and reading any other
    digit finds nothing. *)
Theorem slot_store_then_read (s : t) (d : Z) (record : BoxRecord) :
  (1 <= d <= 3 -> _get_box_by_digit (_set_box_by_digit s d record) d = Some record)
  /\ (forall d', d' <> d ->
        _get_box_by_digit (_set_box_by_digit s d record) d' = _get_box_by_digit s d')
  /\ (~ 1 <= d <= 3 ->
      _set_box_by_digit s d record = s /\ _get_box_by_digit s d = None).
Proof.
  unfold _get_box_by_digit, _set_box_by_digit. split; [|split].
  - intro Hd. assert (H : d = 1 \/ d = 2 \/ d = 3) by lia.
    destruct H as [->|[->| ->]]; reflexivity.
  - intros d' Hne.
    destruct (d =? 1) eqn:E1; [apply Z.eqb_eq in E1; subst d|
      destruct (d =? 2) eqn:E2; [apply Z.eqb_eq in E2; subst d|
        destruct (d =? 3) eqn:E3; [apply Z.eqb_eq in E3; subst d|reflexivity]]];
      simpl.
    + destruct (d' =? 1) eqn:E; [apply Z.eqb_eq in E; congruence | reflexivity].
    + destruct (d' =? 1); [reflexivity|].
      destruct (d' =? 2) eqn:E; [apply Z.eqb_eq in E; congruence | reflexivity].
    + destruct (d' =? 1); [reflexivity|]. destruct (d' =? 2); [reflexivity|].
      destruct (d' =? 3) eqn:E; [apply Z.eqb_eq in E; congruence | reflexivity].
  - intro Hd.
    destruct (d =? 1) eqn:E1; [apply Z.eqb_eq in E1; lia|].
    destruct (d =? 2) eqn:E2; [apply Z.eqb_eq in E2; lia|].
    destruct (d =? 3) eqn:E3; [apply Z.eqb_eq in E3; lia|].
    auto.
Qed.

Lemma _get_set_same (s : t) (d : Z) (record : BoxRecord) :
  1 <= d <= 3 -> _get_box_by_digit (_set_box_by_digit s d record) d = Some record.
Proof.
  intro Hd. unfold _get_box_by_digit, _set_box_by_digit.
  assert (H : d = 1 \/ d = 2 \/ d = 3) by lia.
  destruct H as [->|[->| ->]]; reflexivity.
Qed.

Lemma _get_set_other (s : t) (d d' : Z) (record : BoxRecord) :
  d' <> d ->
  _get_box_by_digit (_set_box_by_digit s d record) d' = _get_box_by_digit s d'.
Proof.
  intro Hne. unfold _get_box_by_digit, _set_box_by_digit.
  destruct (d =? 1) eqn:E1; [apply Z.eqb_eq in E1; subst d|
    destruct (d =? 2) eqn:E2; [apply Z.eqb_eq in E2; subst d|
      destruct (d =? 3) eqn:E3; [apply Z.eqb_eq in E3; subst d|reflexivity]]];
    simpl.
  - destruct (d' =? 1) eqn:E; [apply Z.eqb_eq in E; congruence | reflexivity].
  - destruct (d' =? 1); [reflexivity|].
    destruct (d' =? 2) eqn:E; [apply Z.eqb_eq in E; congruence | reflexivity].
  - destruct (d' =? 1); [reflexivity|]. destruct (d' =? 2); [reflexivity|].
    destruct (d' =? 3) eqn:E; [apply Z.eqb_eq in E; congruence | reflexivity].
Qed.

Lemma has_color_slot (s : t) (c : Color) (k : Z) :
  1 <= k <= 3 ->
  has_color c (_get_box_by_digit s k) = true <-> slot_color s k = Some c.
Proof.
  intros _. unfold slot_color.
  destruct (_get_box_by_digit s k) as [r|]; simpl.
  - rewrite color_eqb_eq. split; congruence.
  - split; discriminate.
Qed.

(** X14.  [_find_matching_box] returns the record of the lowest slot whose
    colour is the given one, and nothing exactly when no slot has that
    colour. *)
Theorem matching_box_is_the_first_of_its_colour (s : t) (c : Color) :
  match _find_matching_box s c with
  | Some k =>
      1 <= k <= 3 /\ slot_color s k = Some c
      /\ forall j, 1 <= j < k -> slot_color s j <> Some c
  | None => forall j, slot_color s j <> Some c
  end.
Proof.
  unfold _find_matching_box.
  pose proof (has_color_slot s c 1) as H1.
  pose proof (has_color_slot s c 2) as H2.
  pose proof (has_color_slot s c 3) as H3.
  change (_get_box_by_digit s 1) with (BoxNumber1 s) in H1.
  change (_get_box_by_digit s 2) with (BoxNumber2 s) in H2.
  change (_get_box_by_digit s 3) with (BoxNumber3 s) in H3.
  destruct (has_color c (BoxNumber1 s)) eqn:E1.
  { split; [lia|]. split; [apply H1; [lia | reflexivity]|]. intros j Hj. lia. }
  destruct (has_color c (BoxNumber2 s)) eqn:E2.
  { split; [lia|]. split; [apply H2; [lia | reflexivity]|].
    intros j Hj Hc. assert (j = 1) by lia. subst j.
    apply H1 in Hc; [discriminate | lia]. }
  destruct (has_color c (BoxNumber3 s)) eqn:E3.
  { split; [lia|]. split; [apply H3; [lia | reflexivity]|].
    intros j Hj Hc. assert (H : j = 1 \/ j = 2) by lia.
    destruct H as [->| ->];
      [apply H1 in Hc | apply H2 in Hc]; (discriminate || lia). }
  intros j Hc.
  assert (Hj : 1 <= j <= 3).
  { unfold slot_color, _get_box_by_digit in Hc.
    destruct (j =? 1) eqn:J1; [apply Z.eqb_eq in J1; lia|].
    destruct (j =? 2) eqn:J2; [apply Z.eqb_eq in J2; lia|].
    destruct (j =? 3) eqn:J3; [apply Z.eqb_eq in J3; lia|].
    discriminate. }
  assert (H : j = 1 \/ j = 2 \/ j = 3) by lia.
  destruct H as [->|[->| ->]];
    [apply H1 in Hc | apply H2 in Hc | apply H3 in Hc]; (discriminate || lia).
Qed.

(** One detection of the loop of [_update_number_boxes]. *)
Lemma update_number_box_other (s : t) (detection : Detection) (d : Z) :
  digit detection <> d ->
  _get_box_by_digit (update_number_box cfg frame s detection) d
  = _get_box_by_digit s d.
Proof.
  intro Hne. unfold update_number_box.
  destruct (box detection) as [[[x y] w] h].
  apply _get_set_other. congruence.
Qed.

Lemma update_number_box_same (s : t) (detection : Detection) :
  1 <= digit detection <= 3 ->
  exists record,
    _get_box_by_digit (update_number_box cfg frame s detection) (digit detection)
    = Some record
    /\ placed_at detection record
    /\ color record
       = (if in_background cfg (box_color frame (box detection))
          then match _get_box_by_digit s (digit detection) with
               | Some cached => color cached
               | None => box_color frame (box detection)
               end
          else box_color frame (box detection)).
Proof.
  intro Hd. unfold update_number_box, placed_at, box_color.
  destruct (box detection) as [[[x y] w] h].
  eexists. split; [apply _get_set_same; exact Hd|]. simpl. auto.
Qed.

Lemma _update_number_boxes_untouched (detections : list Detection) (s : t) (d : Z) :
  Forall (fun detection => digit detection <> d) detections ->
  _get_box_by_digit (_update_number_boxes cfg s detections frame) d
  = _get_box_by_digit s d.
Proof.
  unfold _update_number_boxes. revert s.
  induction detections as [|detection rest IH]; intros s Hall; simpl.
  - reflexivity.
  - inversion Hall as [|? ? Hne Hrest]; subst.
    rewrite IH by exact Hrest. apply update_number_box_other. exact Hne.
Qed.

(** X15.  After [_update_number_boxes], a slot for which no template hit
    was reported is as before, and a slot for which hits were reported
    holds the centre and bounds of the last hit of its digit. *)
Theorem last_hit_of_a_digit_fills_its_slot
  (s : t) (before after : list Detection) (detection : Detection) :
  1 <= digit detection <= 3 ->
  Forall (fun other => digit other <> digit detection) after ->
  (exists record,
      _get_box_by_digit
        (_update_number_boxes cfg s (before ++ detection :: after) frame)
        (digit detection) = Some record
      /\ placed_at detection record)
  /\ forall d,
       Forall (fun other => digit other <> d) (before ++ detection :: after) ->
       _get_box_by_digit
         (_update_number_boxes cfg s (before ++ detection :: after) frame) d
       = _get_box_by_digit s d.
Proof.
  intros Hd Hafter. split.
  - unfold _update_number_boxes. rewrite fold_left_app. cbn [fold_left].
    set (s1 := fold_left (update_number_box cfg frame) before s).
    destruct (update_number_box_same s1 detection Hd) as (record & Hget & Hplaced & _).
    exists record. split; [|exact Hplaced].
    rewrite <- Hget.
    apply (_update_number_boxes_untouched after
             (update_number_box cfg frame s1 detection) (digit detection) Hafter).
  - intros d Hall. apply _update_number_boxes_untouched. exact Hall.
Qed.

(** X16.  The colour of a slot is sticky against the background: if the
    slot holds a record of colour [c] and every template hit of its digit
    has a dominant colour within the background range, the slot still has
    colour [c] after [_update_number_boxes]. *)
Theorem slot_colour_survives_background_hits
  (detections : list Detection) (s : t) (d : Z) (c : Color) :
  slot_color s d = Some c ->
  Forall (fun detection => digit detection = d -> on_background cfg frame detection)
         detections ->
  slot_color (_update_number_boxes cfg s detections frame) d = Some c.
Proof.
  unfold _update_number_boxes. revert s.
  induction detections as [|detection rest IH]; intros s Hc Hall; simpl.
  - exact Hc.
  - inversion Hall as [|? ? Hbg Hrest]; subst.
    apply IH; [|exact Hrest].
    destruct (Z.eq_dec (digit detection) d) as [E|E].
    + assert (Hd : 1 <= digit detection <= 3).
      { rewrite E. unfold slot_color, _get_box_by_digit in Hc.
        destruct (d =? 1) eqn:J1; [apply Z.eqb_eq in J1; lia|].
        destruct (d =? 2) eqn:J2; [apply Z.eqb_eq in J2; lia|].
        destruct (d =? 3) eqn:J3; [apply Z.eqb_eq in J3; lia|].
        discriminate. }
      destruct (update_number_box_same s detection Hd) as (record & Hget & _ & Hcol).
      unfold slot_color. rewrite <- E, Hget. simpl. rewrite Hcol.
      specialize (Hbg E). unfold on_background in Hbg. rewrite Hbg.
      unfold slot_color in Hc. rewrite <- E in Hc.
      destruct (_get_box_by_digit s (digit detection)) as [cached|];
        [simpl in Hc; congruence | discriminate].
    + unfold slot_color. rewrite update_number_box_other by exact E. exact Hc.
Qed.

End Slots.

(** ** Shape candidates and their clicks *)

Section Candidates.

Import FivemAutoFish.

Variable cfg : Config.
Variable frame : Image.

Lemma scan_box_frame (st : Scan) (b : Box) :
  new_fish_mini (self (scan_box cfg frame st b)) = new_fish_mini (self st)
  /\ went_to_none (self (scan_box cfg frame st b)) = went_to_none (self st)
  /\ (succeeded cfg frame b = true -> self (scan_box cfg frame st b) = self st).
Proof.
  destruct b as [[[x y] w] h]. unfold scan_box, succeeded, box_color.
  destruct (color_eqb _ (cs_success_color cfg)); [simpl; auto|].
  destruct (_find_matching_box _ _) as [slot|]; simpl;
    [|repeat split; auto; discriminate].
  unfold refresh. destruct (_get_box_by_digit _ _); [|repeat split; auto; discriminate].
  unfold _set_box_by_digit.
  repeat match goal with |- context [if ?c then _ else _] => destruct c end;
    simpl; repeat split; auto; discriminate.
Qed.

Lemma scan_boxes_frame (boxes : list Box) (st : Scan) :
  let st' := fold_left (scan_box cfg frame) boxes st in
  new_fish_mini (self st') = new_fish_mini (self st)
  /\ went_to_none (self st') = went_to_none (self st)
  /\ (Forall (fun b => succeeded cfg frame b = true) boxes -> self st' = self st).
Proof.
  revert st. induction boxes as [|b rest IH]; intro st; simpl.
  - auto.
  - destruct (IH (scan_box cfg frame st b)) as (H1 & H2 & H3).
    destruct (scan_box_frame st b) as (G1 & G2 & G3).
    rewrite H1, H2, G1, G2. repeat split; auto.
    intro Hall. inversion Hall as [|? ? Hb Hrest]; subst.
    rewrite (H3 Hrest). apply G3. exact Hb.
Qed.

Lemma has_live_false (boxes : list Box) :
  has_live cfg frame boxes = false ->
  Forall (fun b => succeeded cfg frame b = true) boxes.
Proof.
  unfold has_live. induction boxes as [|b rest IH]; simpl; intro H.
  - constructor.
  - apply orb_false_iff in H. destruct H as [Hb Hrest].
    constructor; [apply negb_false_iff; exact Hb | apply IH; exact Hrest].
Qed.

(** X17.  [_handle_boxes] issues at most one click, and reports an action
    exactly when it clicked.  It changes nothing of the object but the
    centre and bounds of tracked records: the colours of the slots, the bar
    minigame and the two flags of the main loop's bookkeeping are kept; and
    when no candidate is live the object is left as it was, with no
    click. *)
Theorem handle_boxes_clicks_at_most_once (s : t) (boxes : list Box) :
  let r := _handle_boxes cfg s boxes frame in
  (length (snd (fst r)) <= 1)%nat
  /\ (snd r = true <-> snd (fst r) <> [])
  /\ (forall d, slot_color (fst (fst r)) d = slot_color s d)
  /\ new_fish_mini (fst (fst r)) = new_fish_mini s
  /\ went_to_none (fst (fst r)) = went_to_none s
  /\ (has_live cfg frame boxes = false -> r = (s, [], false)).
Proof.
  unfold _handle_boxes.
  destruct (scan_boxes_spec cfg frame s boxes) as (_ & Hl & Hs).
  destruct (scan_boxes_frame boxes (mkScan s 0 false)) as (Hm & Hw & Hsame).
  fold (scan_boxes cfg s boxes frame) in Hm, Hw, Hsame. simpl in Hm, Hw, Hsame.
  rewrite Hl.
  destruct (has_live cfg frame boxes) eqn:E; simpl.
  - destruct (target_of _ _) as [target|]; simpl;
      repeat split; auto; try discriminate; try (intro H; congruence).
  - repeat split; auto; try discriminate; try (intro H; congruence).
    intros _. rewrite Hsame; [reflexivity | apply has_live_false; exact E].
Qed.

End Candidates.

Section ShapeFilter.

Import Pipelines.

Lemma aspect_bounds (w h : Z) :
  0 < h ->
  (Qle_bool (8 # 10) (aspect w h) = true <-> 4 * h <= 5 * w)
  /\ (Qle_bool (aspect w h) (12 # 10) = true <-> 5 * w <= 6 * h).
Proof.
  intro Hh. rewrite !Qle_bool_iff. unfold aspect.
  destruct h as [|p|p]; try lia.
  unfold Qle, Qdiv, Qmult, Qinv, inject_Z. cbn [Qnum Qden].
  rewrite ?Pos2Z.inj_mul. lia.
Qed.

Lemma keeps_spec (a : Approx) :
  keeps a = true <->
  n_vertices a = 4%nat /\ is_convex a = true /\ near_square (bounding_rect a).
Proof.
  unfold keeps, near_square. destruct (bounding_rect a) as [[[x y] w] h].
  destruct (Nat.eqb (n_vertices a) 4) eqn:E4; simpl.
  - apply Nat.eqb_eq in E4. destruct (is_convex a); simpl.
    + destruct (w <? 20) eqn:Ew; simpl.
      { apply Z.ltb_lt in Ew. split; [discriminate | lia]. }
      destruct (h <? 20) eqn:Eh; simpl.
      { apply Z.ltb_lt in Eh. split; [discriminate | lia]. }
      apply Z.ltb_ge in Ew. apply Z.ltb_ge in Eh.
      destruct (aspect_bounds w h) as [Hlo Hhi]; [lia|].
      split.
      * intro H.
        destruct (Qle_bool (8 # 10) (aspect w h)) eqn:E1;
          destruct (Qle_bool (aspect w h) (12 # 10)) eqn:E2;
          simpl in H; try discriminate.
        repeat split; auto; [apply Hlo; reflexivity | apply Hhi; reflexivity].
      * intros (_ & _ & _ & _ & H1 & H2).
        apply Hlo in H1. apply Hhi in H2. rewrite H1, H2. reflexivity.
    + split; [discriminate | intros (_ & H & _); discriminate].
  - apply Nat.eqb_neq in E4. split; [discriminate | tauto].
Qed.

(** X18.  [process_frame_boxes] returns, in the order of the contours, the
    bounding rectangles of the convex quadrilaterals that are at least 20
    pixels wide and high and whose width is between 0.8 and 1.2 times their
    height, and no other rectangle. *)
Theorem candidates_are_near_square_quadrilaterals (contours : list Approx) :
  (forall b, In b (process_frame_boxes_of contours) <->
             exists a, In a contours /\ bounding_rect a = b
                       /\ n_vertices a = 4%nat /\ is_convex a = true
                       /\ near_square b)
  /\ Forall near_square (process_frame_boxes_of contours)
  /\ (forall first second,
        contours = first ++ second ->
        process_frame_boxes_of contours
        = process_frame_boxes_of first ++ process_frame_boxes_of second).
Proof.
  assert (Hin : forall b, In b (process_frame_boxes_of contours) <->
                          exists a, In a contours /\ bounding_rect a = b
                                    /\ n_vertices a = 4%nat /\ is_convex a = true
                                    /\ near_square b).
  { intro b. unfold process_frame_boxes_of. rewrite in_map_iff. split.
    - intros (a & Hb & Ha). apply filter_In in Ha. destruct Ha as [Ha Hk].
      apply keeps_spec in Hk. destruct Hk as (H4 & Hc & Hn).
      exists a. subst b. auto.
    - intros (a & Ha & Hb & H4 & Hc & Hn). exists a. split; [exact Hb|].
      apply filter_In. split; [exact Ha|]. apply keeps_spec. subst b. auto. }
  split; [exact Hin|]. split.
  - apply Forall_forall. intros b Hb. apply Hin in Hb.
    destruct Hb as (a & _ & _ & _ & _ & Hn). exact Hn.
  - intros first second ->. unfold process_frame_boxes_of.
    rewrite filter_app, map_app. reflexivity.
Qed.

End ShapeFilter.

Section FailSafeClicks.

Import FivemAutoFish.

Variable cfg : Config.

(** X19.  The fail-safe clicks once on every candidate, in order; for
    candidates as [process_frame_boxes] returns them, each click falls
    inside its candidate (translated to the screen by the origin of the
    working region). *)
Theorem fail_safe_clicks_every_candidate (boxes : list Box) :
  Forall near_square boxes ->
  Forall2 (clicks_within cfg) boxes (_click_fail_safe cfg boxes).
Proof.
  unfold _click_fail_safe. induction boxes as [|b rest IH]; intro Hall; simpl.
  - constructor.
  - inversion Hall as [|? ? Hb Hrest]; subst.
    destruct b as [[[x y] w] h]. simpl. constructor; [|apply IH; exact Hrest].
    unfold clicks_within. unfold near_square in Hb.
    exists (x + w / 2), (y + h / 2). split; [f_equal; lia|].
    assert (Hw : 10 <= w / 2 < w).
    { split; [apply Z.div_le_lower_bound; lia | apply Z.div_lt_upper_bound; lia]. }
    assert (Hh : 10 <= h / 2 < h).
    { split; [apply Z.div_le_lower_bound; lia | apply Z.div_lt_upper_bound; lia]. }
    lia.
Qed.

End FailSafeClicks.

(** ** Template hits *)

Section TemplateHits.

Import Pipelines.

Variable conf : Q.

Lemma hits_in_row_In (y x0 : Z) (row : list Q) (px py : Z) :
  In (px, py) (hits_in_row conf y x0 row) <->
  py = y /\ exists (j : nat) (v : Q),
              px = x0 + Z.of_nat j /\ nth_error row j = Some v /\ (to_float32 conf <= v)%Q.
Proof.
  revert x0. induction row as [|v rest IH]; intro x0; simpl.
  - split; [contradiction|]. intros (_ & j & v & _ & Hj & _).
    destruct j; discriminate.
  - rewrite in_app_iff, IH. split.
    + intros [H|(Hy & j & u & Hx & Hj & Hu)].
      * destruct (Qle_bool (to_float32 conf) v) eqn:E; [|contradiction].
        destruct H as [H|[]]. injection H as <- <-.
        split; [reflexivity|]. exists 0%nat, v.
        apply Qle_bool_iff in E. split; [lia | auto].
      * split; [exact Hy|]. exists (S j), u. split; [lia | auto].
    + intros (Hy & [|j] & u & Hx & Hj & Hu); simpl in Hj.
      * injection Hj as <-. left. apply Qle_bool_iff in Hu. rewrite Hu.
        left. f_equal; lia.
      * right. split; [exact Hy|]. exists j, u. split; [lia | auto].
Qed.

Lemma hits_In (y0 : Z) (result : list (list Q)) (px py : Z) :
  In (px, py) (hits conf y0 result) <->
  exists (i j : nat) (row : list Q) (v : Q),
    py = y0 + Z.of_nat i /\ px = Z.of_nat j
    /\ nth_error result i = Some row /\ nth_error row j = Some v /\ (to_float32 conf <= v)%Q.
Proof.
  revert y0. induction result as [|row rest IH]; intro y0; simpl.
  - split; [contradiction|]. intros ([|i] & j & row & v & _ & _ & Hi & _); discriminate.
  - rewrite in_app_iff, hits_in_row_In, IH. split.
    + intros [(Hy & j & v & Hx & Hj & Hv)|(i & j & r & v & Hy & Hx & Hi & Hj & Hv)].
      * exists 0%nat, j, row, v. repeat split; auto; lia.
      * exists (S i), j, r, v. repeat split; auto; lia.
    + intros ([|i] & j & r & v & Hy & Hx & Hi & Hj & Hv); simpl in Hi.
      * injection Hi as <-. left. split; [lia|]. exists j, v. repeat split; auto; lia.
      * right. exists i, j, r, v. repeat split; auto; lia.
Qed.

Lemma detections_from_In (idx : Z) (matches : list Match) (d : Detection) :
  In d (detections_from conf idx matches) <->
  exists (k i j : nat) (result : list (list Q)) (h w : Z) (row : list Q) (v : Q),
    nth_error matches k = Some (result, (h, w))
    /\ nth_error result i = Some row
    /\ nth_error row j = Some v
    /\ (to_float32 conf <= v)%Q
    /\ d = mkDetection (idx + Z.of_nat k + 1) (Z.of_nat j, Z.of_nat i, w, h).
Proof.
  revert idx. induction matches as [|[result [h w]] rest IH]; intro idx; simpl.
  - split; [contradiction|].
    intros ([|k] & i & j & r & h & w & row & v & Hk & _); discriminate.
  - rewrite in_app_iff, in_map_iff, IH. split.
    + intros [([px py] & Hd & Hpt)|(k & i & j & r & h' & w' & row & v & Hk & Hi & Hj & Hv & Hd)].
      * apply hits_In in Hpt.
        destruct Hpt as (i & j & row & v & Hy & Hx & Hi & Hj & Hv).
        exists 0%nat, i, j, result, h, w, row, v. simpl in *.
        repeat split; auto. subst d px py. cbn [fst snd].
        rewrite ?Z.add_0_r, ?Z.add_0_l. reflexivity.
      * exists (S k), i, j, r, h', w', row, v. simpl.
        repeat split; auto. subst d. f_equal. lia.
    + intros ([|k] & i & j & r & h' & w' & row & v & Hk & Hi & Hj & Hv & Hd);
        simpl in Hk.
      * injection Hk as <- <- <-. left. exists (Z.of_nat j, Z.of_nat i).
        split; [subst d; cbn [fst snd Z.of_nat]; rewrite Z.add_0_r; reflexivity|].
        apply hits_In. exists i, j, row, v. repeat split; auto.
      * right. exists k, i, j, r, h', w', row, v. repeat split; auto.
        subst d. f_equal. lia.
Qed.

Lemma detections_from_digits (idx : Z) (matches : list Match) :
  Forall (fun d => idx < digit d) (detections_from conf idx matches)
  /\ StronglySorted (fun a b => digit a <= digit b) (detections_from conf idx matches).
Proof.
  revert idx. induction matches as [|[result [h w]] rest IH]; intro idx; simpl.
  - split; constructor.
  - destruct (IH (idx + 1)) as [Hlow Hsorted].
    set (here := map _ (hits conf 0 result)).
    assert (Hhere : Forall (fun d => digit d = idx + 1) here).
    { subst here. apply Forall_forall. intros d Hd.
      apply in_map_iff in Hd. destruct Hd as (pt & <- & _). reflexivity. }
    split.
    + apply Forall_app. split.
      * eapply Forall_impl; [|exact Hhere]. intros d Hd. simpl in Hd. lia.
      * eapply Forall_impl; [|exact Hlow]. intros d Hd. simpl in Hd. lia.
    + clearbody here. induction here as [|d more IHm]; simpl; [exact Hsorted|].
      inversion Hhere as [|? ? Hd Hmore]; subst.
      constructor; [apply IHm; exact Hmore|].
      apply Forall_app. split.
      * eapply Forall_impl; [|exact Hmore]. intros e He. simpl in He. lia.
      * eapply Forall_impl; [|exact Hlow]. intros e He. simpl in He. lia.
Qed.

(** X20.  [process_frame_number] reports exactly the positions of the
    result matrices where the score reaches the configured confidence
    rounded to [float32], the precision in which numpy compares the two,
    each with the digit of its template (its position counted from 1) and a
    box of the template's shape at that position; the detections come
    ordered by digit, and every digit is within 1 and the number of
    templates. *)
Theorem detections_are_the_confident_positions (matches : list Match) :
  (forall d, In d (process_frame_number_of conf matches) <-> hit_of conf matches d)
  /\ StronglySorted (fun a b => digit a <= digit b)
                    (process_frame_number_of conf matches)
  /\ Forall (fun d => 1 <= digit d <= Z.of_nat (length matches))
            (process_frame_number_of conf matches).
Proof.
  unfold process_frame_number_of. split; [|split].
  - intro d. rewrite detections_from_In. unfold hit_of.
    split; intros (k & i & j & r & h & w & row & v & H);
      exists k, i, j, r, h, w, row, v; exact H.
  - apply detections_from_digits.
  - apply Forall_forall. intros d Hd. apply detections_from_In in Hd.
    destruct Hd as (k & i & j & r & h & w & row & v & Hk & _ & _ & _ & ->).
    simpl. assert (Hlt : (k < length matches)%nat).
    { apply nth_error_Some. congruence. }
    lia.
Qed.

End TemplateHits.

(** At the confidence 0.7 a score of [np.float32(0.7)], which is below the
    double 0.7, is a hit, and the next [float32] below it is none. *)
Example hit_at_the_rounded_confidence :
  Pipelines.hits_in_row (to_double (7 # 10)) 0 0
    [to_float32 (to_double (7 # 10)); 11744050 # 16777216] = [(0, 0)]
  /\ (to_float32 (to_double (7 # 10)) < to_double (7 # 10))%Q.
Proof. split; reflexivity. Qed.

(** ** Cropping *)

Lemma py_slice_length {A : Type} (start stop : Z) (l : list A) :
  0 <= start <= stop ->
  length (py_slice start stop l)
  = Z.to_nat (Z.min stop (Z.of_nat (length l)) - Z.min start (Z.of_nat (length l))).
Proof.
  intros [H0 Hle]. unfold py_slice, slice_bound.
  assert (E1 : (start <? 0) = false) by (apply Z.ltb_ge; lia).
  assert (E2 : (stop <? 0) = false) by (apply Z.ltb_ge; lia).
  rewrite E1, E2, length_firstn, length_skipn. lia.
Qed.

(** A normalised slice bound lies within the sequence. *)
Lemma slice_bound_range (len i : Z) : 0 <= len -> 0 <= slice_bound len i <= len.
Proof.
  intro Hlen. unfold slice_bound. destruct (i <? 0) eqn:E.
  - apply Z.ltb_lt in E. lia.
  - apply Z.ltb_ge in E. lia.
Qed.

Lemma py_slice_length_bounds {A : Type} (start stop : Z) (l : list A) :
  length (py_slice start stop l)
  = Z.to_nat (slice_bound (Z.of_nat (length l)) stop
              - slice_bound (Z.of_nat (length l)) start).
Proof.
  unfold py_slice. rewrite length_firstn, length_skipn.
  pose proof (slice_bound_range (Z.of_nat (length l)) start ltac:(lia)).
  pose proof (slice_bound_range (Z.of_nat (length l)) stop ltac:(lia)).
  lia.
Qed.

Lemma py_slice_incl {A : Type} (start stop : Z) (l : list A) (x : A) :
  In x (py_slice start stop l) -> In x l.
Proof.
  unfold py_slice. intro H.
  set (a := Z.to_nat (slice_bound (Z.of_nat (length l)) start)) in *.
  set (n := Z.to_nat _) in H.
  rewrite <- (firstn_skipn a l). apply in_or_app. right.
  rewrite <- (firstn_skipn n (skipn a l)). apply in_or_app. left. exact H.
Qed.

(** ** The main loop *)

Section MainLoop.

Import FivemAutoFish.

Context `{V : Vision}.
Variable cfg : Config.

Lemma _set_box_by_digit_last s digit record :
  last_no_detection (_set_box_by_digit s digit record) = last_no_detection s.
Proof.
  unfold _set_box_by_digit.
  repeat match goal with |- context [if ?c then _ else _] => destruct c end;
    reflexivity.
Qed.

Lemma _update_number_boxes_last detections s frame :
  last_no_detection (_update_number_boxes cfg s detections frame)
  = last_no_detection s.
Proof.
  unfold _update_number_boxes. revert s.
  induction detections as [|d rest IH]; intro s; simpl; [reflexivity|].
  rewrite IH. unfold update_number_box.
  destruct (box d) as [[[x y] w] h]. apply _set_box_by_digit_last.
Qed.

Lemma scan_box_last frame st b :
  last_no_detection (self (scan_box cfg frame st b)) = last_no_detection (self st).
Proof.
  destruct b as [[[x y] w] h]. unfold scan_box.
  destruct (color_eqb _ _); [reflexivity|].
  destruct (_find_matching_box _ _); [|reflexivity]. simpl.
  unfold refresh. destruct (_get_box_by_digit _ _); [|reflexivity].
  apply _set_box_by_digit_last.
Qed.

Lemma _handle_boxes_last s boxes frame :
  last_no_detection (fst (fst (_handle_boxes cfg s boxes frame)))
  = last_no_detection s.
Proof.
  assert (H : forall st,
             last_no_detection (self (fold_left (scan_box cfg frame) boxes st))
             = last_no_detection (self st)).
  { induction boxes as [|b rest IH]; intro st; simpl; [reflexivity|].
    rewrite IH. apply scan_box_last. }
  unfold _handle_boxes, scan_boxes.
  destruct (negb _); [|destruct (target_of _ _)]; simpl; apply (H (mkScan s 0 false)).
Qed.

(** The box pipeline writes the timestamp only with the reading of the
    clock, and fires the fail-safe only past the delay. *)
Lemma box_pipeline_timestamp s frame now :
  let r := box_pipeline cfg s frame now in
  (last_no_detection (fst (fst r)) = last_no_detection s
   \/ last_no_detection (fst (fst r)) = now)
  /\ (snd r = FailSafe ->
      (last_no_detection_delay cfg < now - last_no_detection s)%Q
      /\ last_no_detection (fst (fst r)) = now)
  /\ snd r <> NoRegionFrame.
Proof.
  unfold box_pipeline.
  set (detections := if went_to_none s then [] else process_frame_number frame).
  set (s1 := if nonempty detections
             then with_went_to_none (_update_number_boxes cfg s detections frame) false
             else s).
  assert (H1 : last_no_detection s1 = last_no_detection s).
  { subst s1. destruct (nonempty detections); [|reflexivity].
    simpl. apply _update_number_boxes_last. }
  destruct (nonempty detections || went_to_none s1); simpl;
    [|split; [auto | split; [discriminate | discriminate]]].
  destruct (negb (nonempty (process_frame_boxes frame))); simpl;
    [split; [auto | split; [discriminate | discriminate]]|].
  pose proof (_handle_boxes_last s1 (process_frame_boxes frame) frame) as H2.
  destruct (_handle_boxes cfg s1 (process_frame_boxes frame) frame)
    as [[s2 clicks] action_taken].
  simpl in H2. rewrite H1 in H2.
  destruct action_taken; simpl;
    [split; [auto | split; [discriminate | discriminate]]|].
  destruct (Qlt_bool _ _) eqn:E; simpl.
  - apply Qlt_bool_iff in E. rewrite H2 in E.
    split; [auto | split; [auto | discriminate]].
  - split; [auto | split; [discriminate | discriminate]].
Qed.

Lemma cycle_timestamp s i :
  let r := cycle cfg s i in
  (last_no_detection (fst (fst r)) = last_no_detection s
   \/ last_no_detection (fst (fst r)) = clock i)
  /\ (snd r = FailSafe ->
      (last_no_detection_delay cfg < clock i - last_no_detection s)%Q
      /\ last_no_detection (fst (fst r)) = clock i).
Proof.
  unfold cycle.
  destruct (pause i); [simpl; split; [auto | discriminate]|].
  destruct (capture_screen_full (camera_full i)) as [full_frame|];
    [|simpl; split; [auto | discriminate]].
  destruct (NewMiniGame.run_frame _ _ _) as [[m keys] active].
  destruct active; [simpl; split; [auto | discriminate]|].
  destruct (capture_screen cfg (camera_region i)) as [region_frame|];
    [|simpl; split; [auto | discriminate]].
  pose proof (box_pipeline_timestamp (with_mini s m) region_frame (clock i)) as H.
  destruct (box_pipeline cfg (with_mini s m) region_frame (clock i))
    as [[s2 clicks] outcome].
  simpl in *. destruct H as (Ha & Hb & _). auto.
Qed.

(** Once the timestamp is at least [L] and the clock does not go back
    below [L], every later firing comes more than the delay after [L]. *)
Lemma fail_safe_times_after (L : Q) inputs s :
  (L <= last_no_detection s)%Q ->
  Forall (fun t => (L <= t)%Q) (map clock inputs) ->
  Forall (fun t => (last_no_detection_delay cfg < t - L)%Q)
         (fail_safe_times (snd (run cfg s inputs))).
Proof.
  revert s. induction inputs as [|i rest IH]; intros s Hs Hclock; simpl.
  - constructor.
  - inversion Hclock as [|? ? Hi Hrest]; subst.
    pose proof (cycle_timestamp s i) as Hc.
    destruct (cycle cfg s i) as [[s1 actions] outcome]. simpl in Hc.
    destruct Hc as [Hlast Hfire].
    assert (Hs1 : (L <= last_no_detection s1)%Q).
    { destruct Hlast as [->| ->]; assumption. }
    specialize (IH s1 Hs1 Hrest).
    destruct (run cfg s1 rest) as [s2 trace]. simpl in IH |- *.
    unfold fail_safe_times in IH |- *. simpl.
    apply Forall_app. split; [|exact IH].
    destruct outcome; try constructor; [|constructor].
    destruct (Hfire eq_refl) as [Hgt _]. lra.
Qed.

(** C7.  Whenever the clock readings of the iterations do not go back,
    any two firings of the fail-safe are separated by more than
    [last_no_detection_delay]; and an iteration fires the fail-safe only
    when the reading of the clock exceeds [last_no_detection] by more than
    the delay, and then sets [last_no_detection] to that reading. *)
Theorem fail_safe_firings_are_separated (s : t) (inputs : list Input) :
  StronglySorted Qle (map clock inputs) ->
  StronglySorted (fun t1 t2 => (last_no_detection_delay cfg < t2 - t1)%Q)
                 (fail_safe_times (snd (run cfg s inputs)))
  /\ forall (s0 : t) (i : Input),
       snd (cycle cfg s0 i) = FailSafe ->
       (last_no_detection_delay cfg < clock i - last_no_detection s0)%Q
       /\ last_no_detection (fst (fst (cycle cfg s0 i))) = clock i.
Proof.
  intro Hsorted. split; [|intros s0 i; apply cycle_timestamp].
  revert s Hsorted. induction inputs as [|i rest IH]; intros s Hsorted; simpl.
  - constructor.
  - inversion Hsorted as [|? ? Hrest Hi]; subst.
    pose proof (cycle_timestamp s i) as Hc.
    destruct (cycle cfg s i) as [[s1 actions] outcome]. simpl in Hc.
    destruct Hc as [_ Hfire].
    specialize (IH s1 Hrest).
    pose proof (fail_safe_times_after (clock i) rest s1) as Hafter.
    destruct (run cfg s1 rest) as [s2 trace]. simpl in IH, Hafter |- *.
    unfold fail_safe_times in IH, Hafter |- *. simpl.
    destruct outcome; simpl; try exact IH.
    destruct (Hfire eq_refl) as [_ Hset].
    constructor; [exact IH|].
    apply Hafter; [rewrite Hset; apply Qle_refl | exact Hi].
Qed.

(** C9, as amended.  Cropping a frame by a region validates nothing and
    never fails: the crop is the numpy slice
    [frame[top : bottom, left : right]], each bound of which is brought
    into the frame.  A bound beyond the frame is clipped to the size of the
    frame, so that a region reaching beyond the frame yields the rows and
    columns that exist; a negative bound counts from the far edge and is
    clipped at 0.  [capture_screen] fails only when the camera has no
    frame, and in an iteration that reaches the capture of the working
    region the cycle is skipped for want of a frame exactly when the camera
    returned none. *)
Theorem crop_is_clipped_and_only_a_missing_frame_skips :
  (forall camera, capture_screen cfg camera = None <-> camera = None)
  /\ (forall frame,
        capture_screen cfg (Some frame) = Some (crop (region cfg) frame))
  /\ (forall (r : Region.t) (frame : Image),
        length (crop r frame)
        = Z.to_nat (slice_bound (Z.of_nat (length frame)) (Region.bottom r)
                    - slice_bound (Z.of_nat (length frame)) (Region.top r)))
  /\ (forall (r : Region.t) (frame : Image) (row : list Color),
        In row (crop r frame) ->
        exists src, In src frame
          /\ row = py_slice (Region.left r) (Region.right r) src
          /\ length row
             = Z.to_nat (slice_bound (Z.of_nat (length src)) (Region.right r)
                         - slice_bound (Z.of_nat (length src)) (Region.left r)))
  /\ (forall len i : Z,
        0 <= len ->
        0 <= slice_bound len i <= len
        /\ (0 <= i -> slice_bound len i = Z.min i len)
        /\ (i < 0 -> slice_bound len i = Z.max 0 (i + len)))
  /\ (forall (r : Region.t) (frame : Image),
        0 <= Region.top r -> 0 <= Region.height r ->
        length (crop r frame)
        = Z.to_nat (Z.min (Region.bottom r) (Z.of_nat (length frame))
                    - Z.min (Region.top r) (Z.of_nat (length frame))))
  /\ (forall (r : Region.t) (frame : Image) (row : list Color),
        0 <= Region.left r -> 0 <= Region.width r ->
        In row (crop r frame) ->
        exists src, In src frame
          /\ row = py_slice (Region.left r) (Region.right r) src
          /\ length row
             = Z.to_nat (Z.min (Region.right r) (Z.of_nat (length src))
                         - Z.min (Region.left r) (Z.of_nat (length src))))
  /\ (forall (s : t) (i : Input) (full_frame : Image),
        pause i = false ->
        camera_full i = Some full_frame ->
        snd (NewMiniGame.run_frame (mini_cfg cfg) (new_fish_mini s) full_frame)
        = false ->
        (snd (cycle cfg s i) = NoRegionFrame <-> camera_region i = None)).
Proof.
  split; [|split; [|split; [|split; [|split; [|split; [|split]]]]]].
  - intros [frame|]; unfold capture_screen, capture_screen_full;
      split; intro H; (discriminate || reflexivity).
  - reflexivity.
  - intros r frame. unfold crop. rewrite length_map.
    apply py_slice_length_bounds.
  - intros r frame row Hin. unfold crop in Hin.
    apply in_map_iff in Hin. destruct Hin as (src & <- & Hsrc).
    exists src. split; [eapply py_slice_incl; exact Hsrc|].
    split; [reflexivity | apply py_slice_length_bounds].
  - intros len i Hlen. split; [apply slice_bound_range; exact Hlen|].
    unfold slice_bound. split; intro Hi.
    + apply Z.ltb_ge in Hi. rewrite Hi. reflexivity.
    + apply Z.ltb_lt in Hi. rewrite Hi. reflexivity.
  - intros r frame Ht Hh. unfold crop. rewrite length_map.
    apply py_slice_length. unfold Region.bottom. lia.
  - intros r frame row Hl Hw Hin. unfold crop in Hin.
    apply in_map_iff in Hin. destruct Hin as (src & <- & Hsrc).
    exists src. split; [eapply py_slice_incl; exact Hsrc|].
    split; [reflexivity|].
    apply py_slice_length. unfold Region.right. lia.
  - intros s i full_frame Hp Hfull Hbar. unfold cycle.
    rewrite Hp, Hfull. simpl.
    destruct (NewMiniGame.run_frame _ _ _) as [[m keys] active].
    simpl in Hbar. subst active.
    destruct (camera_region i) as [frame|]; simpl.
    + pose proof (box_pipeline_timestamp (with_mini s m)
                    (crop (region cfg) frame) (clock i)) as H.
      destruct (box_pipeline _ _ _ _) as [[s2 clicks] outcome].
      simpl in *. destruct H as (_ & _ & H). split; [contradiction | discriminate].
    + split; reflexivity.
Qed.

End MainLoop.

(** ** The numeral window *)

Lemma py_slice_map {A B : Type} (f : A -> B) (start stop : Z) (l : list A) :
  py_slice start stop (map f l) = map f (py_slice start stop l).
Proof.
  unfold py_slice. rewrite length_map, skipn_map, firstn_map. reflexivity.
Qed.

(** A slice of a slice, both within the same bounds, is the slice. *)
Lemma py_slice_py_slice {A : Type} (z r a b : Z) (l : list A) :
  0 <= z <= a -> a <= b -> b <= r ->
  py_slice (a - z) (b - z) (py_slice z r l) = py_slice a b l.
Proof.
  intros Hz Hab Hbr. unfold py_slice at 1.
  assert (Hlen : Z.of_nat (length (py_slice z r l))
                 = Z.min r (Z.of_nat (length l)) - Z.min z (Z.of_nat (length l))).
  { rewrite py_slice_length by lia. lia. }
  rewrite Hlen. unfold py_slice, slice_bound.
  assert (E1 : (z <? 0) = false) by (apply Z.ltb_ge; lia).
  assert (E2 : (r <? 0) = false) by (apply Z.ltb_ge; lia).
  assert (E3 : (a <? 0) = false) by (apply Z.ltb_ge; lia).
  assert (E4 : (b <? 0) = false) by (apply Z.ltb_ge; lia).
  assert (E5 : (a - z <? 0) = false) by (apply Z.ltb_ge; lia).
  assert (E6 : (b - z <? 0) = false) by (apply Z.ltb_ge; lia).
  rewrite E1, E2, E3, E4, E5, E6.
  rewrite skipn_firstn_comm, firstn_firstn, skipn_skipn.
  f_equal; [lia|]. f_equal. lia.
Qed.

(** X11.  When the numeral region lies inside the bar zone (and the zone
    starts at non-negative coordinates), the numeral window that [run] cuts
    out of the cropped zone with the relative region of [__init__] is the
    crop of the frame by the numeral region itself, also where the frame is
    smaller than the zone. *)
Theorem numeral_window_is_the_numeral_region
  (zone number_region : Region.t) (frame : Image) :
  0 <= Region.left zone <= Region.left number_region ->
  0 <= Region.top zone <= Region.top number_region ->
  0 <= Region.width number_region -> 0 <= Region.height number_region ->
  Region.right number_region <= Region.right zone ->
  Region.bottom number_region <= Region.bottom zone ->
  crop (Setup.number_zone_of zone number_region) (crop zone frame)
  = crop number_region frame.
Proof.
  intros Hl Ht Hw Hh Hr Hb. unfold crop, Setup.number_zone_of.
  unfold Region.right, Region.bottom in *. simpl.
  rewrite py_slice_map, map_map.
  replace (Region.top number_region - Region.top zone + Region.height number_region)
    with (Region.top number_region + Region.height number_region - Region.top zone)
    by lia.
  rewrite py_slice_py_slice by lia.
  apply map_ext. intro row.
  replace (Region.left number_region - Region.left zone + Region.width number_region)
    with (Region.left number_region + Region.width number_region - Region.left zone)
    by lia.
  apply py_slice_py_slice; lia.
Qed.

Lemma py_slice_nth_error {A : Type} (a b i : Z) (l : list A) :
  0 <= a -> 0 <= i < b - a ->
  nth_error (py_slice a b l) (Z.to_nat i) = nth_error l (Z.to_nat (a + i)).
Proof.
  intros Ha Hi. unfold py_slice, slice_bound.
  assert (E1 : (a <? 0) = false) by (apply Z.ltb_ge; lia).
  assert (E2 : (b <? 0) = false) by (apply Z.ltb_ge; lia).
  rewrite E1, E2, nth_error_firstn, nth_error_skipn.
  destruct (Z_lt_le_dec (a + i) (Z.of_nat (length l))) as [Hin|Hout].
  - assert (E : (Z.to_nat i <? Z.to_nat (Z.min b (Z.of_nat (length l))
                                          - Z.min a (Z.of_nat (length l))))%nat
                = true) by (apply Nat.ltb_lt; lia).
    rewrite E. f_equal. lia.
  - assert (Hnone : nth_error l (Z.to_nat (a + i)) = None)
      by (apply nth_error_None; lia).
    rewrite Hnone.
    destruct (Nat.ltb _ _) eqn:E; [|reflexivity].
    apply Nat.ltb_lt in E. apply nth_error_None. lia.
Qed.

(** X27.  The pixel at column [j] of row [i] of a crop (within the width
    and height of a region of non-negative origin) is the pixel of the
    frame at column [left + j] of row [top + i], and the crop has no pixel
    there when the frame has none. *)
Theorem crop_reads_the_window (r : Region.t) (frame : Image) (i j : Z) :
  0 <= Region.left r -> 0 <= Region.top r ->
  0 <= i < Region.height r -> 0 <= j < Region.width r ->
  pixel_at (crop r frame) j i = pixel_at frame (Region.left r + j) (Region.top r + i).
Proof.
  intros Hl Ht Hi Hj. unfold pixel_at, crop.
  rewrite nth_error_map.
  rewrite py_slice_nth_error by (unfold Region.bottom; lia).
  destruct (nth_error frame (Z.to_nat (Region.top r + i))) as [row|]; simpl;
    [|reflexivity].
  apply py_slice_nth_error; unfold Region.right; lia.
Qed.

(** ** More on the main loop *)

Section Iterations.

Import FivemAutoFish.

Context `{V : Vision}.
Variable cfg : Config.

Lemma run_inactive_no_keys (mcfg : NewMiniGame.Config) (m : NewMiniGame.t)
  (current_area : Z) (scores : list Q) :
  (length (snd (fst (NewMiniGame.run mcfg m current_area scores))) <= 1)%nat
  /\ Forall is_key_tap (snd (fst (NewMiniGame.run mcfg m current_area scores)))
  /\ (snd (NewMiniGame.run mcfg m current_area scores) = false ->
      snd (fst (NewMiniGame.run mcfg m current_area scores)) = []).
Proof.
  unfold NewMiniGame.run, NewMiniGame.act.
  destruct (NewMiniGame.State_eqb _ _ && _); cbn [fst snd].
  - split; [simpl; lia|]. split; [|discriminate].
    constructor; [eexists; reflexivity | constructor].
  - split; [simpl; lia|]. split; [constructor | reflexivity].
Qed.

Lemma _click_fail_safe_clicks (boxes : list Box) :
  Forall is_click (_click_fail_safe cfg boxes)
  /\ length (_click_fail_safe cfg boxes) = length boxes.
Proof.
  unfold _click_fail_safe. induction boxes as [|[[[x y] w] h] rest IH]; simpl.
  - split; [constructor | reflexivity].
  - destruct IH as [H1 H2]. split; [|rewrite H2; reflexivity].
    constructor; [eexists; eexists; reflexivity | exact H1].
Qed.

Lemma _handle_boxes_went (s : t) (boxes : list Box) (frame : Image) :
  let r := _handle_boxes cfg s boxes frame in
  (snd r = true -> exists x y, snd (fst r) = [Click x y])
  /\ (snd r = false -> snd (fst r) = []).
Proof.
  unfold _handle_boxes. destruct (negb _); simpl.
  - split; [discriminate | reflexivity].
  - destruct (target_of _ _) as [target|]; simpl.
    + split; [|discriminate]. intros _. unfold click_box, _click_absolute.
      eexists; eexists; reflexivity.
    + split; [discriminate | reflexivity].
Qed.

Lemma box_pipeline_accounts (s : t) (frame : Image) (i : Input) :
  let r := box_pipeline cfg s frame (clock i) in
  accounts_for cfg s i (fst (fst r)) (snd (fst r)) (snd r)
  /\ snd r <> Paused /\ snd r <> NoFullFrame /\ snd r <> BarActive
  /\ snd r <> NoRegionFrame.
Proof.
  unfold box_pipeline.
  set (detections := if went_to_none s then [] else process_frame_number frame).
  set (s1 := if nonempty detections
             then with_went_to_none (_update_number_boxes cfg s detections frame) false
             else s).
  assert (H1 : last_no_detection s1 = last_no_detection s).
  { subst s1. destruct (nonempty detections); [|reflexivity].
    simpl. apply _update_number_boxes_last. }
  destruct (nonempty detections || went_to_none s1); cbn [fst snd];
    [|repeat split; try discriminate; reflexivity].
  destruct (negb (nonempty (process_frame_boxes frame))) eqn:Eb; cbn [fst snd];
    [repeat split; try discriminate; reflexivity|].
  pose proof (_handle_boxes_last cfg s1 (process_frame_boxes frame) frame) as H2.
  pose proof (_handle_boxes_went s1 (process_frame_boxes frame) frame) as H3.
  destruct (_handle_boxes cfg s1 (process_frame_boxes frame) frame)
    as [[s2 clicks] action_taken].
  cbn [fst snd] in H2, H3. rewrite H1 in H2. destruct H3 as [Hyes Hno].
  destruct action_taken; cbn [fst snd].
  - repeat split; try discriminate; auto.
  - rewrite (Hno eq_refl). rewrite app_nil_l.
    destruct (Qlt_bool _ _) eqn:E; cbn [fst snd].
    + apply Qlt_bool_iff in E. rewrite H2 in E.
      destruct (_click_fail_safe_clicks (process_frame_boxes frame)) as [Hc Hlen].
      repeat split; try discriminate; auto.
      intro Hnil. rewrite Hnil in Hlen. simpl in Hlen.
      destruct (process_frame_boxes frame); [discriminate Eb | discriminate Hlen].
    + repeat split; try discriminate; auto.
      unfold Qlt_bool in E. apply negb_false_iff, Qle_bool_iff in E.
      rewrite H2 in E. exact E.
Qed.

(** X21.  Each exit of an iteration of the main loop accounts for its
    actions: a paused iteration only releases E; a bar iteration presses at
    most one key and leaves the box tracker alone; an action is exactly one
    click and sets [went_to_none]; the fail-safe clicks at least once, only
    past the delay, and restarts the timer; an iteration that waits does
    nothing and is within the delay; an iteration without detections or
    without candidates does nothing but clear [went_to_none] and restart the
    timer.  No iteration both presses a key and clicks. *)
Theorem iteration_accounts_for_its_actions (s : t) (i : Input) :
  accounts_for cfg s i (fst (fst (cycle cfg s i))) (snd (fst (cycle cfg s i)))
    (snd (cycle cfg s i))
  /\ (Forall is_key_tap (snd (fst (cycle cfg s i)))
      \/ Forall is_click (snd (fst (cycle cfg s i)))
      \/ snd (fst (cycle cfg s i)) = [KeyUp "e"%string]).
Proof.
  unfold cycle.
  destruct (pause i); [cbn [fst snd accounts_for]; auto|].
  destruct (capture_screen_full (camera_full i)) as [full_frame|];
    [|cbn [fst snd accounts_for]; split; [auto | left; constructor]].
  unfold NewMiniGame.run_frame.
  pose proof (run_inactive_no_keys (mini_cfg cfg) (new_fish_mini s)
                (bar_area (NewMiniGame._crop_zone (mini_cfg cfg) full_frame))
                (number_scores
                   (crop (NewMiniGame.number_zone (mini_cfg cfg))
                      (NewMiniGame._crop_zone (mini_cfg cfg) full_frame))))
    as (Hlen & Hkeys & Hnone).
  destruct (NewMiniGame.run _ _ _ _) as [[m keys] active].
  cbn [fst snd] in Hlen, Hkeys, Hnone.
  destruct active; cbn [fst snd accounts_for].
  { split; [|left; exact Hkeys]. unfold same_tracker. simpl. auto 10. }
  rewrite (Hnone eq_refl).
  destruct (capture_screen cfg (camera_region i)) as [region_frame|];
    cbn [fst snd accounts_for].
  - pose proof (box_pipeline_accounts (with_mini s m) region_frame i) as (Hacc & Hout).
    destruct (box_pipeline cfg (with_mini s m) region_frame (clock i))
      as [[s2 clicks] outcome].
    cbn [fst snd app] in *. split.
    + destruct outcome; simpl in Hacc |- *; try exact Hacc;
        destruct Hout as (O1 & O2 & O3 & O4); congruence.
    + destruct outcome; simpl in Hacc;
        try (destruct Hacc as [-> _]; left; constructor);
        try (destruct Hout as (O1 & O2 & O3 & O4); congruence).
      * destruct Hacc as ((x & y & ->) & _). right. left.
        constructor; [eexists; eexists; reflexivity | constructor].
      * destruct Hacc as (_ & Hc & _). right. left. exact Hc.
  - split; [|left; constructor]. unfold same_tracker. simpl. auto 10.
Qed.

Lemma _set_box_by_digit_keeps (s : t) (d : Z) (record : BoxRecord) :
  keeps_slots s (_set_box_by_digit s d record).
Proof.
  intros k Hk. unfold slot_color in *.
  destruct (Z.eq_dec k d) as [->|Hne].
  - assert (Hd : 1 <= d <= 3).
    { unfold _get_box_by_digit in Hk.
      destruct (d =? 1) eqn:J1; [apply Z.eqb_eq in J1; lia|].
      destruct (d =? 2) eqn:J2; [apply Z.eqb_eq in J2; lia|].
      destruct (d =? 3) eqn:J3; [apply Z.eqb_eq in J3; lia|].
      contradiction. }
    rewrite _get_set_same by exact Hd. discriminate.
  - rewrite _get_set_other by exact Hne. exact Hk.
Qed.

Lemma _update_number_boxes_keeps (detections : list Detection) (s : t)
  (frame : Image) :
  keeps_slots s (_update_number_boxes cfg s detections frame).
Proof.
  unfold _update_number_boxes. revert s.
  induction detections as [|detection rest IH]; intro s; simpl.
  - intros d Hd. exact Hd.
  - intros d Hd. apply IH. unfold update_number_box.
    destruct (box detection) as [[[x y] w] h].
    apply _set_box_by_digit_keeps. exact Hd.
Qed.

Lemma box_pipeline_keeps (s : t) (frame : Image) (now : Q) :
  keeps_slots s (fst (fst (box_pipeline cfg s frame now))).
Proof.
  unfold box_pipeline.
  set (detections := if went_to_none s then [] else process_frame_number frame).
  set (s1 := if nonempty detections
             then with_went_to_none (_update_number_boxes cfg s detections frame) false
             else s).
  assert (H1 : keeps_slots s s1).
  { subst s1. destruct (nonempty detections); [|intros d Hd; exact Hd].
    intros d Hd. apply (_update_number_boxes_keeps detections s frame d) in Hd.
    exact Hd. }
  destruct (nonempty detections || went_to_none s1); cbn [fst snd];
    [|intros d Hd; apply H1 in Hd; exact Hd].
  destruct (negb (nonempty (process_frame_boxes frame))); cbn [fst snd];
    [intros d Hd; apply H1 in Hd; exact Hd|].
  assert (H2 : forall d,
             slot_color (fst (fst (_handle_boxes cfg s1 (process_frame_boxes frame) frame))) d
             = slot_color s1 d).
  { intro d. unfold _handle_boxes.
    destruct (scan_boxes_spec cfg frame s1 (process_frame_boxes frame)) as (_ & _ & Hs).
    destruct (negb _); [|destruct (target_of _ _)]; simpl; apply Hs. }
  destruct (_handle_boxes cfg s1 (process_frame_boxes frame) frame)
    as [[s2 clicks] action_taken].
  cbn [fst snd] in H2.
  assert (H3 : keeps_slots s s2).
  { intros d Hd. apply H1 in Hd. unfold slot_color in *. rewrite H2. exact Hd. }
  destruct action_taken; cbn [fst snd]; [exact H3|].
  destruct (Qlt_bool _ _); cbn [fst snd]; exact H3.
Qed.

Lemma cycle_keeps (s : t) (i : Input) :
  keeps_slots s (fst (fst (cycle cfg s i))).
Proof.
  unfold cycle.
  destruct (pause i); [intros d Hd; exact Hd|].
  destruct (capture_screen_full (camera_full i)) as [full_frame|];
    [|intros d Hd; exact Hd].
  destruct (NewMiniGame.run_frame _ _ _) as [[m keys] active].
  destruct active; [intros d Hd; exact Hd|].
  destruct (capture_screen cfg (camera_region i)) as [region_frame|];
    [|intros d Hd; exact Hd].
  pose proof (box_pipeline_keeps (with_mini s m) region_frame (clock i)) as H.
  destruct (box_pipeline cfg (with_mini s m) region_frame (clock i))
    as [[s2 clicks] outcome].
  exact H.
Qed.

(** X22.  No iteration of the main loop empties a slot: a slot that holds
    a record keeps holding one through any run of iterations. *)
Theorem slots_are_never_emptied (inputs : list Input) (s : t) :
  keeps_slots s (fst (run cfg s inputs)).
Proof.
  revert s. induction inputs as [|i rest IH]; intro s; cbn [run].
  - intros d Hd. exact Hd.
  - pose proof (cycle_keeps s i) as Hc.
    destruct (cycle cfg s i) as [[s1 actions] outcome]. cbn [fst] in Hc.
    specialize (IH s1). destruct (run cfg s1 rest) as [s2 trace].
    cbn [fst] in *. intros d Hd. apply IH. apply Hc. exact Hd.
Qed.

End Iterations.

(** X23.  While [went_to_none] is set, an iteration of the box pipeline
    does not run the template detection: its result is the same whatever
    [process_frame_number] would return, and the colour of every slot is
    left as it was. *)
Theorem template_detection_is_skipped_after_an_action
  (V1 V2 : Vision) (cfg : FivemAutoFish.Config) (s : FivemAutoFish.t)
  (region_frame : Image) (now : Q) :
  FivemAutoFish.went_to_none s = true ->
  @process_frame_boxes V1 region_frame = @process_frame_boxes V2 region_frame ->
  @FivemAutoFish.box_pipeline V1 cfg s region_frame now
  = @FivemAutoFish.box_pipeline V2 cfg s region_frame now
  /\ forall d,
       slot_color (fst (fst (@FivemAutoFish.box_pipeline V1 cfg s region_frame now))) d
       = slot_color s d.
Proof.
  intros Hw Hboxes. unfold FivemAutoFish.box_pipeline. rewrite Hw, Hboxes.
  cbn [FivemAutoFish.nonempty orb]. rewrite Hw. split; [reflexivity|].
  intro d.
  destruct (negb (FivemAutoFish.nonempty (process_frame_boxes region_frame)));
    cbn [fst snd]; [reflexivity|].
  assert (H2 : slot_color
                 (fst (fst (FivemAutoFish._handle_boxes cfg s
                              (process_frame_boxes region_frame) region_frame))) d
               = slot_color s d).
  { unfold FivemAutoFish._handle_boxes.
    destruct (scan_boxes_spec cfg region_frame s (process_frame_boxes region_frame))
      as (_ & _ & Hs).
    destruct (negb _); [|destruct (FivemAutoFish.target_of _ _)]; simpl; apply Hs. }
  destruct (FivemAutoFish._handle_boxes cfg s (process_frame_boxes region_frame)
              region_frame) as [[s2 clicks] action_taken].
  cbn [fst snd] in H2.
  destruct action_taken; cbn [fst snd]; [exact H2|].
  destruct (Qlt_bool _ _); cbn [fst snd]; exact H2.
Qed.

Section WentToNone.

Import FivemAutoFish.

Context `{V : Vision}.
Variable cfg : Config.

Lemma _handle_boxes_went_to_none (s : t) (boxes : list Box) (frame : Image) :
  went_to_none (fst (fst (_handle_boxes cfg s boxes frame))) = went_to_none s.
Proof.
  unfold _handle_boxes, scan_boxes.
  destruct (scan_boxes_frame cfg frame boxes (mkScan s 0 false)) as (_ & Hw & _).
  destruct (negb _); [|destruct (target_of _ _)]; simpl; exact Hw.
Qed.

Lemma cycle_went_to_none (s : t) (i : Input) :
  went_to_none s = true ->
  snd (cycle cfg s i) <> NoDetections
  /\ (snd (cycle cfg s i) = NoBoxes \/ went_to_none (fst (fst (cycle cfg s i))) = true).
Proof.
  intro Hw. unfold cycle.
  destruct (pause i); [cbn [fst snd]; split; [discriminate | auto]|].
  destruct (capture_screen_full (camera_full i)) as [full_frame|];
    [|cbn [fst snd]; split; [discriminate | auto]].
  destruct (NewMiniGame.run_frame _ _ _) as [[m keys] active].
  destruct active; [cbn [fst snd]; split; [discriminate | auto]|].
  destruct (capture_screen cfg (camera_region i)) as [region_frame|];
    [|cbn [fst snd]; split; [discriminate | auto]].
  unfold box_pipeline.
  assert (E : went_to_none (with_mini s m) = true) by exact Hw.
  rewrite E. cbn [nonempty orb]. rewrite E.
  destruct (negb (nonempty (process_frame_boxes region_frame))); cbn [fst snd];
    [split; [discriminate | auto]|].
  pose proof (_handle_boxes_went_to_none (with_mini s m)
                (process_frame_boxes region_frame) region_frame) as H.
  destruct (_handle_boxes cfg (with_mini s m) (process_frame_boxes region_frame)
              region_frame) as [[s2 clicks] action_taken].
  cbn [fst snd] in H. rewrite E in H.
  destruct action_taken; cbn [fst snd]; [split; [discriminate | auto]|].
  destruct (Qlt_bool _ _); cbn [fst snd]; split; try discriminate; auto.
Qed.

(** X3.  Once an action has set [went_to_none], the flag stays set, and
    the template detection stays off, through every iteration until one
    finds no shape candidate: over a run of iterations none of which exits
    for want of candidates, the flag is still set at the end, and no
    iteration exits for want of detections. *)
Theorem template_detection_stays_off_while_candidates_last
  (inputs : list Input) (s : t) :
  went_to_none s = true ->
  Forall (fun e => snd (fst e) <> NoBoxes) (snd (run cfg s inputs)) ->
  went_to_none (fst (run cfg s inputs)) = true
  /\ Forall (fun e => snd (fst e) <> NoDetections) (snd (run cfg s inputs)).
Proof.
  revert s. induction inputs as [|i rest IH]; intros s Hw Hall; cbn [run] in *.
  - split; [exact Hw | constructor].
  - destruct (cycle_went_to_none s i Hw) as [Hnd Hkeep].
    destruct (cycle cfg s i) as [[s1 actions] outcome]. cbn [fst snd] in Hnd, Hkeep.
    specialize (IH s1). destruct (run cfg s1 rest) as [s2 trace].
    cbn [fst snd] in *. inversion Hall as [|? ? Hout Hrest]; subst.
    cbn [fst snd] in Hout. destruct Hkeep as [Hk|Hk]; [contradiction|].
    destruct (IH Hk Hrest) as [H1 H2]. split; [exact H1|].
    constructor; [exact Hnd | exact H2].
Qed.

End WentToNone.

(** ** The background threads *)

Section PauseThread.

Import Background.

Variable pause_key_code : Z.

(** X24.  After any sequence of keyboard events the pause flag has been
    flipped once for every press ("down") of the pause key, releases and
    other keys counting for nothing, and one sound was played for every
    flip: the flag is as it was after an even number of presses and
    inverted after an odd number. *)
Theorem pause_follows_the_parity_of_presses (pause : bool) (events : list KeyEvent) :
  let n := length (filter (toggles pause_key_code) events) in
  fst (handle_pause pause_key_code pause events) = xorb pause (Nat.odd n)
  /\ length (snd (handle_pause pause_key_code pause events)) = n.
Proof.
  revert pause. induction events as [|event rest IH]; intro pause; cbn zeta.
  - simpl. rewrite xorb_false_r. auto.
  - cbn [handle_pause filter]. unfold on_key_event.
    fold (toggles pause_key_code event).
    destruct (toggles pause_key_code event); cbn zeta.
    + destruct (IH (negb pause)) as [H1 H2]. cbn zeta in H1, H2.
      destruct (handle_pause pause_key_code (negb pause) rest) as [pause2 sounds2].
      cbn [fst snd length] in *. rewrite Nat.odd_succ, <- Nat.negb_odd.
      split.
      * rewrite H1. destruct pause, (Nat.odd _); reflexivity.
      * rewrite length_app, H2. destruct (negb pause); reflexivity.
    + destruct (IH pause) as [H1 H2]. cbn zeta in H1, H2.
      destruct (handle_pause pause_key_code pause rest) as [pause2 sounds2].
      cbn [fst snd app] in *. auto.
Qed.

End PauseThread.

Section ProbeThread.

Import Background.

Lemma np_index_in_range {A : Type} (l : list A) (i : Z) :
  0 <= i < Z.of_nat (length l) ->
  exists v, np_index l i = Some v /\ nth_error l (Z.to_nat i) = Some v.
Proof.
  intro Hi. unfold np_index.
  assert (E1 : (0 <=? i) = true) by (apply Z.leb_le; lia).
  assert (E2 : (i <? Z.of_nat (length l)) = true) by (apply Z.ltb_lt; lia).
  rewrite E1, E2.
  destruct (nth_error l (Z.to_nat i)) as [v|] eqn:E.
  - exists v. auto.
  - apply nth_error_None in E. lia.
Qed.

Lemma np_index_below {A : Type} (l : list A) (i : Z) :
  i < - Z.of_nat (length l) -> np_index l i = None.
Proof.
  intro Hi. unfold np_index.
  assert (E1 : (0 <=? i) = false) by (apply Z.leb_gt; lia).
  assert (E2 : (- Z.of_nat (length l) <=? i) = false) by (apply Z.leb_gt; lia).
  rewrite E1, E2. reflexivity.
Qed.

(** X25.  [is_bar_available] on a grey image of [H] rows and [W] columns:
    a probe point at or beyond the right or lower edge gives [False]; a
    point inside the image gives whether its grey value exceeds 70; no
    point with non-negative coordinates raises; a row coordinate below
    [-H] raises [IndexError] (the bounds test of the method only guards the
    far edges). *)
Theorem bar_probe_is_guarded_at_the_far_edges
  (bar_x bar_y : Z) (gray : list (list Z)) :
  rectangular gray ->
  let H := shape0 gray in
  let W := shape1 gray in
  (H <= bar_y \/ W <= bar_x -> is_bar_available bar_x bar_y gray = Some false)
  /\ (0 <= bar_y < H -> 0 <= bar_x < W ->
      exists row v,
        nth_error gray (Z.to_nat bar_y) = Some row
        /\ nth_error row (Z.to_nat bar_x) = Some v
        /\ is_bar_available bar_x bar_y gray = Some (70 <? v))
  /\ (0 <= bar_y -> 0 <= bar_x -> is_bar_available bar_x bar_y gray <> None)
  /\ (bar_y < - H -> bar_x < W -> is_bar_available bar_x bar_y gray = None).
Proof.
  intros Hrect H W.
  assert (Hs0 : shape0 (map (map (threshold_binary 70)) gray) = H).
  { unfold shape0. rewrite length_map. reflexivity. }
  assert (Hs1 : shape1 (map (map (threshold_binary 70)) gray) = W).
  { unfold shape1. destruct gray as [|row rest]; simpl; [reflexivity|].
    rewrite length_map. reflexivity. }
  assert (Hin : 0 <= bar_y < H -> 0 <= bar_x < W ->
                exists row v,
                  nth_error gray (Z.to_nat bar_y) = Some row
                  /\ nth_error row (Z.to_nat bar_x) = Some v
                  /\ is_bar_available bar_x bar_y gray = Some (70 <? v)).
  { intros Hy Hx. unfold is_bar_available. rewrite Hs0, Hs1.
    assert (E : (H <=? bar_y) || (W <=? bar_x) = false).
    { apply orb_false_iff. split; apply Z.leb_gt; lia. }
    rewrite E.
    destruct (np_index_in_range (map (map (threshold_binary 70)) gray) bar_y)
      as (trow & Hi & Hn).
    { rewrite length_map. exact Hy. }
    rewrite Hi. rewrite nth_error_map in Hn.
    destruct (nth_error gray (Z.to_nat bar_y)) as [row|] eqn:Er; [|discriminate].
    simpl in Hn. injection Hn as <-.
    assert (Hlen : length row = length (hd [] gray)).
    { apply Hrect. eapply nth_error_In. exact Er. }
    destruct (np_index_in_range (map (threshold_binary 70) row) bar_x)
      as (tv & Hj & Hm).
    { rewrite length_map, Hlen. exact Hx. }
    rewrite Hj. rewrite nth_error_map in Hm.
    destruct (nth_error row (Z.to_nat bar_x)) as [v|] eqn:Ev; [|discriminate].
    simpl in Hm. injection Hm as <-.
    exists row, v. split; [first [reflexivity | exact Er]|].
    split; [first [reflexivity | exact Ev]|].
    unfold threshold_binary. destruct (70 <? v); reflexivity. }
  assert (Hfar : H <= bar_y \/ W <= bar_x ->
                 is_bar_available bar_x bar_y gray = Some false).
  { intro Hout. unfold is_bar_available. rewrite Hs0, Hs1.
    assert (E : (H <=? bar_y) || (W <=? bar_x) = true).
    { apply orb_true_iff. destruct Hout; [left | right]; apply Z.leb_le; lia. }
    rewrite E. reflexivity. }
  split; [exact Hfar|]. split; [exact Hin|]. split.
  - intros Hy Hx.
    destruct (Z_lt_le_dec bar_y H) as [Hy'|Hy'];
      [destruct (Z_lt_le_dec bar_x W) as [Hx'|Hx']|].
    + destruct Hin as (row & v & _ & _ & E); [lia | lia |]. rewrite E. discriminate.
    + rewrite Hfar by auto. discriminate.
    + rewrite Hfar by auto. discriminate.
  - intros Hy Hx. unfold is_bar_available. rewrite Hs0, Hs1.
    assert (E : (H <=? bar_y) || (W <=? bar_x) = false).
    { apply orb_false_iff. unfold H, shape0 in *. split; apply Z.leb_gt; lia. }
    rewrite E. rewrite np_index_below; [reflexivity|].
    rewrite length_map. exact Hy.
Qed.

Lemma bar_probe_guard (bar_x bar_y : Z) (gray : list (list Z)) :
  rectangular gray -> 0 <= bar_y -> 0 <= bar_x ->
  exists b, is_bar_available bar_x bar_y gray = Some b.
Proof.
  intros Hrect Hy Hx. unfold is_bar_available.
  destruct ((shape0 (map (map (threshold_binary 70)) gray) <=? bar_y)
            || (shape1 (map (map (threshold_binary 70)) gray) <=? bar_x)) eqn:E;
    [eexists; reflexivity|].
  apply orb_false_iff in E. destruct E as [E0 E1].
  apply Z.leb_gt in E0. apply Z.leb_gt in E1.
  unfold shape0 in E0. unfold shape1 in E1.
  destruct (np_index_in_range (map (map (threshold_binary 70)) gray) bar_y)
    as (trow & Hi & Hn); [lia|].
  rewrite Hi. rewrite nth_error_map in Hn.
  destruct (nth_error gray (Z.to_nat bar_y)) as [row|] eqn:Er; [|discriminate].
  simpl in Hn. injection Hn as <-.
  assert (Hlen : length row = length (hd [] gray)).
  { apply Hrect. eapply nth_error_In. exact Er. }
  assert (Hw : length (hd [] (map (map (threshold_binary 70)) gray))
               = length (hd [] gray)).
  { destruct gray; simpl; [reflexivity | apply length_map]. }
  destruct (np_index_in_range (map (threshold_binary 70) row) bar_x)
    as (tv & Hj & _); [rewrite length_map; lia|].
  rewrite Hj. eexists. reflexivity.
Qed.

Context `{P : Probe}.

Variables bar_x bar_y : Z.

Lemma press_e_turn_spec (count : Z) (pause : bool) (camera : option Image) :
  0 <= bar_x -> 0 <= bar_y ->
  gray_is_array (pause, camera) ->
  press_e_turn bar_x bar_y count pause camera
  = Some (if e_is_due bar_x bar_y (pause, camera)
          then (count + 1, [Press "e"; Press "e"])
          else (count, [])).
Proof.
  intros Hx Hy Hrect. unfold press_e_turn, e_is_due.
  destruct pause; [reflexivity|].
  destruct camera as [frame|]; [|reflexivity].
  destruct (is_fish_press_e_available frame); [reflexivity|].
  destruct (bar_probe_guard bar_x bar_y (to_gray frame) (Hrect frame eq_refl) Hy Hx)
    as [b Hb].
  rewrite Hb. destruct b; reflexivity.
Qed.

Lemma e_is_due_live (pause : bool) (camera : option Image) :
  pause = true \/ camera = None -> e_is_due bar_x bar_y (pause, camera) = false.
Proof.
  intros [->| ->]; [reflexivity|]. destruct pause; reflexivity.
Qed.

(** X26.  With a probe point of non-negative coordinates (and grey images
    that are arrays), the probe of the thread pressing E raises no
    [IndexError].  A turn in which E is due (not paused, a frame at hand,
    and the prompt found or the probe point bright) presses E exactly twice
    and adds one to [e_press_count]; every other turn, and so every turn
    while paused or without a frame, presses nothing and leaves the
    counter.  Over any number of turns the keys pressed are two presses of
    E for each turn in which E is due, and the counter grows by the number
    of these turns. *)
Theorem e_is_pressed_in_pairs (count : Z) (turns : list (bool * option Image)) :
  0 <= bar_x -> 0 <= bar_y ->
  Forall gray_is_array turns ->
  (forall (c : Z) (pause : bool) (camera : option Image),
     In (pause, camera) turns ->
     (e_is_due bar_x bar_y (pause, camera) = true ->
      press_e_turn bar_x bar_y c pause camera
      = Some (c + 1, [Press "e"; Press "e"]))
     /\ (e_is_due bar_x bar_y (pause, camera) = false ->
         press_e_turn bar_x bar_y c pause camera = Some (c, []))
     /\ (pause = true \/ camera = None ->
         press_e_turn bar_x bar_y c pause camera = Some (c, [])))
  /\
  (let n := length (filter (e_is_due bar_x bar_y) turns) in
   handle_press_e bar_x bar_y count turns
   = Some (count + Z.of_nat n, repeat (Press "e") (2 * n)))
  /\
  (exists count' keys,
     handle_press_e bar_x bar_y count turns = Some (count', keys)
     /\ Z.of_nat (length keys) = 2 * (count' - count)
     /\ Forall (eq (Press "e")) keys
     /\ (Forall (fun turn => fst turn = true \/ snd turn = None) turns ->
         keys = [] /\ count' = count)).
Proof.
  intros Hx Hy Hrect.
  assert (Hrun : forall c,
             handle_press_e bar_x bar_y c turns
             = Some (c + Z.of_nat (length (filter (e_is_due bar_x bar_y) turns)),
                     repeat (Press "e")
                       (2 * length (filter (e_is_due bar_x bar_y) turns)))).
  { induction turns as [|[pause camera] rest IH]; intro c; cbn [handle_press_e].
    - cbn [filter length Z.of_nat Nat.mul repeat]. rewrite Z.add_0_r. reflexivity.
    - inversion Hrect as [|? ? Hturn Hrest]; subst.
      rewrite (press_e_turn_spec c pause camera Hx Hy Hturn).
      cbn [filter]. destruct (e_is_due bar_x bar_y (pause, camera)).
      + rewrite (IH Hrest (c + 1)). cbn [length].
        replace (2 * S (length (filter (e_is_due bar_x bar_y) rest)))%nat
          with (S (S (2 * length (filter (e_is_due bar_x bar_y) rest)))) by lia.
        cbn [repeat app]. do 2 f_equal. lia.
      + rewrite (IH Hrest c). reflexivity. }
  split; [|split].
  - intros c pause camera Hin.
    rewrite Forall_forall in Hrect.
    rewrite (press_e_turn_spec c pause camera Hx Hy (Hrect _ Hin)).
    split; [intros ->; reflexivity|]. split; [intros ->; reflexivity|].
    intro Hidle. rewrite (e_is_due_live pause camera Hidle). reflexivity.
  - exact (Hrun count).
  - eexists. eexists. split; [exact (Hrun count)|].
    split; [rewrite repeat_length; lia|].
    split; [apply Forall_forall; intros k Hk; apply repeat_spec in Hk; congruence|].
    intro Hidle.
    assert (E : filter (e_is_due bar_x bar_y) turns = []).
    { clear Hrun Hrect. induction turns as [|[pause camera] rest IH]; [reflexivity|].
      inversion Hidle as [|? ? Hturn Hrest]; subst. cbn [filter].
      rewrite (e_is_due_live pause camera Hturn). apply IH. exact Hrest. }
    rewrite E. cbn [length Nat.mul repeat Z.of_nat]. split; [reflexivity | lia].
Qed.

End ProbeThread.

(** ** Closed instances on the sample frames *)

(** C2, as stated, fails at a step of an execution: after two frames of
    a bar of area 120 and then 118 without a legible numeral the machine is
    in [FOUND] with the stored numeral 0; on a next frame where the bar has
    shrunk to area 40 (40 / 120 <= 0.4) and numeral 2 is legible, the step
    reads the numeral, enters [INTERCEPTION], presses key 2 and ends in
    [RESET], not in [FOUND]. *)
Lemma numeral_read_in_the_step_lets_interception_in :
  fst (run_frames Sample.mini_cfg NewMiniGame.init
         [(120, Sample.low_scores); (118, Sample.low_scores)])
  = NewMiniGame.mk NewMiniGame.FOUND 120 118 0 false
  /\ 40 <> 0
  /\ NewMiniGame.state
       (NewMiniGame.transition Sample.mini_cfg
          (NewMiniGame.mk NewMiniGame.FOUND 120 118 0 false) 40
          Sample.numeral_two_scores)
     = NewMiniGame.INTERCEPTION
  /\ NewMiniGame.run Sample.mini_cfg
       (NewMiniGame.mk NewMiniGame.FOUND 120 118 0 false) 40
       Sample.numeral_two_scores
     = (NewMiniGame.mk NewMiniGame.RESET 0 0 0 false,
        [KeyTap NewMiniGame.VK_2], true).
Proof.
  split; [vm_compute; reflexivity|]. split; [discriminate|].
  split; vm_compute; reflexivity.
Qed.

(** A bar that shrinks from area 300 to area 100 with numeral 2 stored, at
    [compare_dif = 0.3333333333333333]: the double [100 / 300] equals the
    threshold, which is below one third, and [INTERCEPTION] is entered.
    And the step of the execution above when no numeral is legible. *)
Lemma interception_only_from_found_with_numeral_witness :
  (NewMiniGame.state
     (NewMiniGame.transition Sample.third_cfg
        (NewMiniGame.mk NewMiniGame.FOUND 300 300 2 false) 100 Sample.low_scores)
   = NewMiniGame.INTERCEPTION
   /\ (NewMiniGame.ratio 100 300 <= NewMiniGame.compare_dif Sample.third_cfg)%Q
   /\ (NewMiniGame.compare_dif Sample.third_cfg < 100 # 300)%Q
   /\ 0 < NewMiniGame.number
           (NewMiniGame.sense Sample.third_cfg
              (NewMiniGame.mk NewMiniGame.FOUND 300 300 2 false) 100
              Sample.low_scores))
  /\
  (NewMiniGame.number
     (NewMiniGame.sense Sample.mini_cfg
        (NewMiniGame.mk NewMiniGame.FOUND 120 118 0 false) 40 Sample.low_scores)
   = 0
   /\ NewMiniGame.state
        (NewMiniGame.transition Sample.mini_cfg
           (NewMiniGame.mk NewMiniGame.FOUND 120 118 0 false) 40 Sample.low_scores)
      = NewMiniGame.FOUND).
Proof.
  assert (Hin : NewMiniGame.state
                  (NewMiniGame.transition Sample.third_cfg
                     (NewMiniGame.mk NewMiniGame.FOUND 300 300 2 false) 100
                     Sample.low_scores)
                = NewMiniGame.INTERCEPTION) by (vm_compute; reflexivity).
  assert (Hnone : NewMiniGame.number
                    (NewMiniGame.sense Sample.mini_cfg
                       (NewMiniGame.mk NewMiniGame.FOUND 120 118 0 false) 40
                       Sample.low_scores)
                  = 0) by (vm_compute; reflexivity).
  split.
  - destruct (proj1 (interception_only_from_found_with_numeral Sample.third_cfg
                       (NewMiniGame.mk NewMiniGame.FOUND 300 300 2 false) 100
                       Sample.low_scores)
                ltac:(discriminate) Hin) as (_ & _ & H3 & H4 & _).
    split; [exact Hin|]. split; [exact H3|]. split; [reflexivity | exact H4].
  - split; [exact Hnone|].
    exact (proj1 (proj1 (proj2 (interception_only_from_found_with_numeral
                                  Sample.mini_cfg
                                  (NewMiniGame.mk NewMiniGame.FOUND 120 118 0 false)
                                  40 Sample.low_scores))
                    eq_refl Hnone ltac:(discriminate))).
Defined.

Lemma sample_scores_are_float32 :
  Forall float32_value Sample.low_scores
  /\ Forall float32_value Sample.numeral_two_scores
  /\ Forall float32_value (map to_float32 [1 # 10; 6 # 10; 2 # 10]).
Proof.
  assert (H1 : float32_value (to_float32 (1 # 10)))
    by (exists 13421773, 0, 27; repeat split; try lia; vm_compute; reflexivity).
  assert (H2 : float32_value (to_float32 (2 # 10)))
    by (exists 13421773, 0, 26; repeat split; try lia; vm_compute; reflexivity).
  assert (H6 : float32_value (to_float32 (6 # 10)))
    by (exists 10066330, 0, 24; repeat split; try lia; vm_compute; reflexivity).
  assert (H9 : float32_value (to_float32 (9 # 10)))
    by (exists 15099494, 0, 24; repeat split; try lia; vm_compute; reflexivity).
  split; [|split]; repeat constructor; assumption.
Qed.

(** With the confidence 0.8: the scores 0.1, 0.9, 0.1 select numeral 2 by
    the threshold, and the scores 0.1, 0.6, 0.2, none of which reaches it,
    select numeral 2 because 0.6 exceeds the floor. *)
Lemma numeral_selection_on_float32_scores_witness :
  (-1 < to_double (8 # 10))%Q
  /\ Forall float32_value Sample.numeral_two_scores
  /\ Forall float32_value (map to_float32 [1 # 10; 6 # 10; 2 # 10])
  /\ (exists v,
        first_best (reaches (to_double (8 # 10))) Sample.numeral_two_scores
          (NewMiniGame.detected_number (to_double (8 # 10))
             Sample.numeral_two_scores) v)
  /\ NewMiniGame.detected_number (to_double (8 # 10))
       (map to_float32 [1 # 10; 6 # 10; 2 # 10]) = 2.
Proof.
  destruct sample_scores_are_float32 as (_ & Htwo & Hsix).
  assert (Hconf : (-1 < to_double (8 # 10))%Q) by reflexivity.
  split; [exact Hconf|]. split; [exact Htwo|]. split; [exact Hsix|]. split.
  - apply (proj1 (numeral_selection_on_float32_scores _ _ (or_introl Hconf) Htwo)).
    exists (to_float32 (9 # 10)). split; [simpl; auto | discriminate].
  - apply (proj2 (proj1 (proj2 (numeral_selection_on_float32_scores _ _
                                  (or_introl Hconf) Hsix))
                    ltac:(intros v [<-|[<-|[<-|[]]]]; intro H; exact (H eq_refl)))
             2 (to_float32 (6 # 10))); [|reflexivity].
    split; [lia|]. split; [reflexivity|]. split; [exact I|].
    intros [|[|[|j]]] w Hj _; cbn in Hj;
      [| | | destruct j; discriminate];
      injection Hj as <-; (split; [discriminate | intro; try lia; reflexivity]).
Defined.

Lemma click_target_follows_success_count_witness :
  has_live Sample.cfg (Sample.frame_of [Sample.green; Sample.red; Sample.blue])
    (Sample.boxes_of 3) = true
  /\ count_succeeded Sample.cfg
       (Sample.frame_of [Sample.green; Sample.red; Sample.blue])
       (Sample.boxes_of 3) = 1
  /\ snd (fst (FivemAutoFish._handle_boxes Sample.cfg Sample.tracked
                 (Sample.boxes_of 3)
                 (Sample.frame_of [Sample.green; Sample.red; Sample.blue])))
     = [Click (2 + 50) (1 + 10)]
  /\ snd (FivemAutoFish._handle_boxes Sample.cfg Sample.tracked
            (Sample.boxes_of 3)
            (Sample.frame_of [Sample.green; Sample.red; Sample.blue]))
     = true.
Proof.
  assert (Hlive : has_live Sample.cfg
                    (Sample.frame_of [Sample.green; Sample.red; Sample.blue])
                    (Sample.boxes_of 3) = true)
    by (vm_compute; reflexivity).
  assert (Hcount : count_succeeded Sample.cfg
                     (Sample.frame_of [Sample.green; Sample.red; Sample.blue])
                     (Sample.boxes_of 3) = 1)
    by (vm_compute; reflexivity).
  split; [exact Hlive|]. split; [exact Hcount|].
  pose proof (click_target_follows_success_count Sample.cfg
                (Sample.frame_of [Sample.green; Sample.red; Sample.blue])
                Sample.tracked (Sample.boxes_of 3) 1 Hlive Hcount
                (conj (Z.le_0_1) (Z.le_succ_diag_r 1))) as H.
  cbv zeta in H. destruct H as [_ H].
  vm_compute in H. vm_compute. exact H.
Defined.

Lemma no_target_beyond_two_successes_witness :
  has_live Sample.cfg
    (Sample.frame_of [Sample.green; Sample.green; Sample.green; Sample.red])
    (Sample.boxes_of 4) = true
  /\ FivemAutoFish.BoxNumber1 Sample.tracked <> None
  /\ snd (fst (FivemAutoFish._handle_boxes Sample.cfg Sample.tracked
                 (Sample.boxes_of 4)
                 (Sample.frame_of
                    [Sample.green; Sample.green; Sample.green; Sample.red])))
     = []
  /\ snd (FivemAutoFish._handle_boxes Sample.cfg Sample.tracked
            (Sample.boxes_of 4)
            (Sample.frame_of
               [Sample.green; Sample.green; Sample.green; Sample.red]))
     = false.
Proof.
  split; [vm_compute; reflexivity|]. split; [discriminate|].
  apply (no_target_beyond_two_successes Sample.cfg
           (Sample.frame_of [Sample.green; Sample.green; Sample.green; Sample.red])
           Sample.tracked (Sample.boxes_of 4)).
  vm_compute. discriminate.
Defined.

(** C8, as stated, fails: of three candidates with dominant colours
    [green; red; green], green the success colour, two are counted as
    succeeded, not one, and the click goes to the record of slot 3 (centre
    (50, 10)), not to that of slot 2 (centre (30, 10)). *)
Lemma three_candidates_two_of_success_colour :
  map (box_color (Sample.frame_of [Sample.green; Sample.red; Sample.green]))
      (Sample.boxes_of 3)
  = [Sample.green; Sample.red; Sample.green]
  /\ FivemAutoFish.cs_success_color Sample.cfg = Sample.green
  /\ FivemAutoFish.success_count
       (FivemAutoFish.scan_boxes Sample.cfg Sample.tracked (Sample.boxes_of 3)
          (Sample.frame_of [Sample.green; Sample.red; Sample.green]))
     = 2
  /\ snd (fst (FivemAutoFish._handle_boxes Sample.cfg Sample.tracked
                 (Sample.boxes_of 3)
                 (Sample.frame_of [Sample.green; Sample.red; Sample.green])))
     = [Click (2 + 50) (1 + 10)]
  /\ [Click (2 + 50) (1 + 10)] <> [Click (2 + 30) (1 + 10)].
Proof.
  split; [vm_compute; reflexivity|]. split; [reflexivity|].
  split; [vm_compute; reflexivity|]. split; [vm_compute; reflexivity|].
  discriminate.
Qed.

Lemma two_success_boxes_count_twice_witness :
  FivemAutoFish.success_count
    (FivemAutoFish.scan_boxes Sample.cfg Sample.tracked
       [(0, 0, 20, 20); (20, 0, 20, 20); (40, 0, 20, 20)]
       (Sample.frame_of [Sample.green; Sample.red; Sample.green]))
  = 2.
Proof.
  assert (H1 : box_color (Sample.frame_of [Sample.green; Sample.red; Sample.green])
                 (0, 0, 20, 20) = Sample.green) by (vm_compute; reflexivity).
  assert (H2 : box_color (Sample.frame_of [Sample.green; Sample.red; Sample.green])
                 (20, 0, 20, 20) = Sample.red) by (vm_compute; reflexivity).
  assert (H3 : box_color (Sample.frame_of [Sample.green; Sample.red; Sample.green])
                 (40, 0, 20, 20) = Sample.green) by (vm_compute; reflexivity).
  assert (Hne : Sample.red <> Sample.green) by discriminate.
  exact (proj1 (two_success_boxes_count_twice Sample.cfg
                  (Sample.frame_of [Sample.green; Sample.red; Sample.green])
                  Sample.tracked (0, 0, 20, 20) (20, 0, 20, 20) (40, 0, 20, 20)
                  Sample.green Sample.red H1 H2 H3 eq_refl Hne)).
Defined.

Lemma fail_safe_firings_are_separated_witness :
  fail_safe_times_of_sample = [10 # 1; 20 # 1]
  /\ StronglySorted
       (fun t1 t2 => (FivemAutoFish.last_no_detection_delay Sample.cfg < t2 - t1)%Q)
       fail_safe_times_of_sample.
Proof.
  split; [vm_compute; reflexivity|].
  apply (@fail_safe_firings_are_separated Sample.vision Sample.cfg
           (FivemAutoFish.init 0)
           [Sample.tick (10 # 1); Sample.tick (11 # 1); Sample.tick (20 # 1)]).
  simpl. repeat constructor; discriminate.
Defined.

(** C9, as stated, fails: the working region (2, 1, 60, 20) reaches beyond
    a frame of 20 by 20 pixels, and [capture_screen] returns the 19 rows of
    18 pixels that exist instead of a failure; the iteration does not skip
    for want of a frame, it searches this image for templates. *)
Lemma crop_beyond_the_frame_is_not_surfaced :
  (length (Sample.frame_of [Sample.red]) = 20%nat
   /\ Forall (fun row => length row = 20%nat) (Sample.frame_of [Sample.red])
   /\ 20 < Region.right (FivemAutoFish.region Sample.cfg)
   /\ 20 < Region.bottom (FivemAutoFish.region Sample.cfg))
  /\ FivemAutoFish.capture_screen Sample.cfg (Some (Sample.frame_of [Sample.red]))
     = Some (repeat (repeat Sample.red 18) 19)
  /\ @FivemAutoFish.cycle Sample2.vision_of_nothing Sample.cfg
       (FivemAutoFish.init 0)
       (FivemAutoFish.mkInput false
          (Some (Sample.frame_of [Sample.red]))
          (Some (Sample.frame_of [Sample.red])) (10 # 1))
     = (FivemAutoFish.init (10 # 1), [], FivemAutoFish.NoDetections).
Proof.
  split; [split; [reflexivity | split; [|split; reflexivity]]|].
  - repeat constructor.
  - split; vm_compute; reflexivity.
Qed.

(** The working region on a frame of 20 by 20 pixels and on a screen that
    holds it; and a region of 5 by 2 pixels whose origin is 2 pixels left of
    the frame: the column bounds -2 and 3 are those of the slice
    [row[18 : 3]], which is empty. *)
Lemma crop_is_clipped_and_only_a_missing_frame_skips_witness :
  length (crop (FivemAutoFish.region Sample.cfg) (Sample.frame_of [Sample.red]))
  = 19%nat
  /\ length (crop (FivemAutoFish.region Sample.cfg) (Sample.screen_of [Sample.red]))
     = 20%nat
  /\ crop Sample2.region_left_of_frame (Sample.frame_of [Sample.red]) = [[]; []]
  /\ (exists src,
        In src (Sample.frame_of [Sample.red])
        /\ [] = py_slice (-2) 3 src
        /\ length (@nil Color)
           = Z.to_nat (slice_bound (Z.of_nat (length src)) 3
                       - slice_bound (Z.of_nat (length src)) (-2))).
Proof.
  pose proof (@crop_is_clipped_and_only_a_missing_frame_skips
                Sample.vision Sample.cfg) as (_ & _ & _ & Hrow & _ & H & _).
  assert (Hcrop : crop Sample2.region_left_of_frame (Sample.frame_of [Sample.red])
                  = [[]; []]) by (vm_compute; reflexivity).
  split; [|split; [|split]].
  - rewrite (H (FivemAutoFish.region Sample.cfg) (Sample.frame_of [Sample.red]));
      [reflexivity | simpl; lia | simpl; lia].
  - rewrite (H (FivemAutoFish.region Sample.cfg) (Sample.screen_of [Sample.red]));
      [reflexivity | simpl; lia | simpl; lia].
  - exact Hcrop.
  - apply (Hrow Sample2.region_left_of_frame (Sample.frame_of [Sample.red]) []).
    rewrite Hcrop. left. reflexivity.
Defined.

(** ** More closed instances *)

Lemma executions_press_keys_one_to_three_witness :
  Forall (fun e : NewMiniGame.State * list Action * bool =>
            Forall numeral_key (snd (fst e)))
    (snd (run_frames Sample.mini_cfg NewMiniGame.init
            [(120, Sample.low_scores); (40, [1 # 10; 9 # 10; 1 # 10])])).
Proof.
  apply (proj2 (executions_press_keys_one_to_three Sample.mini_cfg
                  [(120, Sample.low_scores); (40, [1 # 10; 9 # 10; 1 # 10])]
                  ltac:(repeat constructor; simpl; lia))).
Defined.

Lemma shrunk_bar_with_numeral_fires_witness :
  NewMiniGame.run Sample.mini_cfg
    (NewMiniGame.mk NewMiniGame.FOUND 120 118 3 false) 30 Sample.low_scores
  = (NewMiniGame.mk NewMiniGame.RESET 0 0 0 false, [KeyTap NewMiniGame.VK_3], true).
Proof.
  apply (shrunk_bar_with_numeral_fires Sample.mini_cfg
           (NewMiniGame.mk NewMiniGame.FOUND 120 118 3 false) 30 Sample.low_scores 3);
    [reflexivity | discriminate | discriminate | reflexivity | lia].
Defined.

Lemma found_without_numeral_outlasts_empty_frames_witness :
  Forall (fun e => e = (NewMiniGame.FOUND, @nil Action, true))
    (snd (run_frames Sample.mini_cfg
            (NewMiniGame.mk NewMiniGame.FOUND 120 120 0 true)
            [(0, []); (0, Sample.low_scores); (0, [1 # 10; 9 # 10; 1 # 10])])).
Proof.
  apply (found_without_numeral_outlasts_empty_frames Sample.mini_cfg
           (NewMiniGame.mk NewMiniGame.FOUND 120 120 0 true)
           [(0, []); (0, Sample.low_scores); (0, [1 # 10; 9 # 10; 1 # 10])]);
    [reflexivity | discriminate | reflexivity | repeat constructor].
Defined.

Lemma numeral_of_new_round_is_read_afresh_witness :
  NewMiniGame.number
    (fst (fst (NewMiniGame.run Sample.mini_cfg NewMiniGame.init 120
                 [1 # 10; 9 # 10; 1 # 10])))
  = 2
  /\ NewMiniGame.number
       (NewMiniGame.sense Sample.mini_cfg
          (fst (fst (NewMiniGame.run Sample.mini_cfg NewMiniGame.init 120
                       [1 # 10; 9 # 10; 1 # 10])))
          118 Sample.low_scores)
     = NewMiniGame.detected_number (NewMiniGame.number_conf Sample.mini_cfg)
         Sample.low_scores.
Proof.
  split; [reflexivity|].
  apply (numeral_of_new_round_is_read_afresh Sample.mini_cfg NewMiniGame.init
           120 118 [1 # 10; 9 # 10; 1 # 10] Sample.low_scores);
    [reflexivity | lia | lia].
Defined.

Lemma numeral_window_is_the_numeral_region_witness :
  crop (Setup.number_zone_of Sample2.zone Sample2.number_region)
       (crop Sample2.zone Sample2.grid)
  = [[(2, 2, 0); (3, 2, 0)]].
Proof.
  rewrite (numeral_window_is_the_numeral_region Sample2.zone Sample2.number_region
             Sample2.grid);
    [reflexivity | | | | | | ];
    unfold Sample2.zone, Sample2.number_region, Region.right, Region.bottom;
    cbn [Region.left Region.top Region.width Region.height]; lia.
Defined.

Lemma last_hit_of_a_digit_fills_its_slot_witness :
  exists record,
    FivemAutoFish._get_box_by_digit
      (FivemAutoFish._update_number_boxes Sample.cfg (FivemAutoFish.init 0)
         ([Sample2.hit_a; Sample2.hit_b] ++ Sample2.hit_c :: [])
         (Sample.frame_of [Sample.red; Sample.blue; Sample.yellow]))
      (digit Sample2.hit_c)
    = Some record
    /\ placed_at Sample2.hit_c record.
Proof.
  apply (proj1 (last_hit_of_a_digit_fills_its_slot Sample.cfg
                  (Sample.frame_of [Sample.red; Sample.blue; Sample.yellow])
                  (FivemAutoFish.init 0) [Sample2.hit_a; Sample2.hit_b] []
                  Sample2.hit_c ltac:(simpl; lia) ltac:(constructor))).
Defined.

Lemma slot_colour_survives_background_hits_witness :
  slot_color
    (FivemAutoFish._update_number_boxes Sample.cfg Sample.tracked [Sample2.hit_b]
       (Sample.frame_of [Sample.red; Sample.black]))
    1
  = Some Sample.red.
Proof.
  apply (slot_colour_survives_background_hits Sample.cfg
           (Sample.frame_of [Sample.red; Sample.black]) [Sample2.hit_b]
           Sample.tracked 1 Sample.red);
    [reflexivity|].
  constructor; [|constructor]. intros _. unfold on_background.
  vm_compute. reflexivity.
Defined.

Lemma fail_safe_clicks_every_candidate_witness :
  Forall2 (clicks_within Sample.cfg) (Sample.boxes_of 3)
    (FivemAutoFish._click_fail_safe Sample.cfg (Sample.boxes_of 3)).
Proof.
  apply (fail_safe_clicks_every_candidate Sample.cfg (Sample.boxes_of 3)).
  repeat constructor; simpl; lia.
Defined.

Lemma slots_are_never_emptied_witness :
  slot_color Sample.tracked 3 <> None
  /\ slot_color
       (fst (@FivemAutoFish.run Sample.vision Sample.cfg Sample.tracked
               [Sample.tick (10 # 1); Sample.tick (11 # 1)]))
       3
     <> None.
Proof.
  split; [discriminate|].
  apply (@slots_are_never_emptied Sample.vision Sample.cfg
           [Sample.tick (10 # 1); Sample.tick (11 # 1)] Sample.tracked 3).
  discriminate.
Defined.

Lemma template_detection_is_skipped_after_an_action_witness :
  @FivemAutoFish.box_pipeline Sample.vision Sample.cfg Sample2.acted
    (Sample.frame_of [Sample.red]) (10 # 1)
  = @FivemAutoFish.box_pipeline Sample2.vision_without_hits Sample.cfg Sample2.acted
      (Sample.frame_of [Sample.red]) (10 # 1).
Proof.
  apply (template_detection_is_skipped_after_an_action Sample.vision
           Sample2.vision_without_hits Sample.cfg Sample2.acted
           (Sample.frame_of [Sample.red]) (10 # 1));
    reflexivity.
Defined.

Lemma sample_gray_is_rectangular : rectangular Sample2.gray.
Proof.
  intros row Hrow. simpl in Hrow.
  destruct Hrow as [<-|[<-|[]]]; reflexivity.
Qed.

Lemma bar_probe_is_guarded_at_the_far_edges_witness :
  Background.is_bar_available 3 0 Sample2.gray = Some false
  /\ Background.is_bar_available 0 (-3) Sample2.gray = None.
Proof.
  pose proof (bar_probe_is_guarded_at_the_far_edges 3 0 Sample2.gray
                sample_gray_is_rectangular) as (H1 & _).
  pose proof (bar_probe_is_guarded_at_the_far_edges 0 (-3) Sample2.gray
                sample_gray_is_rectangular) as (_ & _ & _ & H2).
  split; [apply H1; right | apply H2];
    vm_compute; first [reflexivity | discriminate].
Defined.

Lemma sample_turns_gray_is_array : Forall (@gray_is_array Sample2.probe) Sample2.turns.
Proof.
  repeat constructor; intros frame Hf; simpl in Hf;
    try discriminate; injection Hf as <-;
    intros row Hrow; simpl in Hrow;
    destruct Hrow as [<-|[]]; reflexivity.
Qed.

Lemma e_is_pressed_in_pairs_witness :
  @Background.handle_press_e Sample2.probe 0 0 0 Sample2.turns
  = Some (2, [Background.Press "e"; Background.Press "e";
              Background.Press "e"; Background.Press "e"])
  /\ @Background.press_e_turn Sample2.probe 0 0 7 false (Some Sample2.bright)
     = Some (8, [Background.Press "e"; Background.Press "e"])
  /\ @Background.press_e_turn Sample2.probe 0 0 7 false (Some Sample2.dark)
     = Some (7, [])
  /\ @Background.press_e_turn Sample2.probe 0 0 7 true (Some Sample2.bright)
     = Some (7, []).
Proof.
  destruct (@e_is_pressed_in_pairs Sample2.probe 0 0 0 Sample2.turns
              ltac:(lia) ltac:(lia) sample_turns_gray_is_array)
    as (Hturn & Hrun & _).
  split; [exact Hrun|].
  split; [|split].
  - apply (proj1 (Hturn 7 false (Some Sample2.bright) ltac:(simpl; auto))).
    reflexivity.
  - apply (proj1 (proj2 (Hturn 7 false (Some Sample2.dark) ltac:(simpl; auto)))).
    reflexivity.
  - apply (proj2 (proj2 (Hturn 7 true (Some Sample2.bright) ltac:(simpl; auto)))).
    left. reflexivity.
Defined.

Lemma template_detection_stays_off_while_candidates_last_witness :
  FivemAutoFish.went_to_none
    (fst (@FivemAutoFish.run Sample.vision Sample.cfg Sample2.acted
            [Sample.tick (10 # 1); Sample.tick (11 # 1)]))
  = true.
Proof.
  apply (@template_detection_stays_off_while_candidates_last Sample.vision
           Sample.cfg [Sample.tick (10 # 1); Sample.tick (11 # 1)] Sample2.acted);
    [reflexivity|].
  vm_compute. repeat constructor; discriminate.
Defined.

Lemma crop_reads_the_window_witness :
  pixel_at (crop Sample2.zone Sample2.grid) 3 1 = Some (4, 2, 0)
  /\ pixel_at (crop Sample2.zone Sample2.grid) 1 0 = Some (2, 1, 0).
Proof.
  split.
  - rewrite (crop_reads_the_window Sample2.zone Sample2.grid 1 3);
      [reflexivity | | | | ];
      unfold Sample2.zone; cbn [Region.left Region.top Region.width Region.height];
      lia.
  - rewrite (crop_reads_the_window Sample2.zone Sample2.grid 0 1);
      [reflexivity | | | | ];
      unfold Sample2.zone; cbn [Region.left Region.top Region.width Region.height];
      lia.
Defined.
